(** * hatchling.builders.config : the builder configuration object

    A shallow embedding of [BuilderConfig] (backend/src/hatchling/builders/config.py):
    the lazily computed, memoized configuration properties, the inclusion
    decision [include_path], the source map with [get_distribution_path], and
    the build-time overlay installed by [set_build_data].

    Python values are an inductive type, dictionaries are association lists in
    insertion order, exceptions are an error type, and the mutable attributes of
    the object are a record threaded through a state-and-error monad. *)

From Stdlib Require Import String Ascii List Bool Arith ZArith Lia.
From Stdlib Require Import DecimalString Sorted Permutation OrderedTypeEx.
Import ListNotations.
Open Scope string_scope.
Open Scope list_scope.

Set Implicit Arguments.
Set Warnings "-register-all".

(** ** Python values and exceptions *)

(** The values a parsed configuration table can hold. *)
Inductive value : Type :=
| VBool (b : bool)
| VInt (z : Z)
| VStr (s : string)
| VList (l : list value)
| VDict (d : list (string * value)).

(** A table: string keys, in insertion order. *)
Definition dict := list (string * value).

Inductive exn : Type :=
| TypeError (msg : string)
| ValueError (msg : string)
| KeyError (key : string)
| OSError (msg : string).

Definition result (A : Type) : Type := (exn + A)%type.

Definition rbind {A B} (r : result A) (f : A -> result B) : result B :=
  match r with
  | inl e => inl e
  | inr a => f a
  end.

(** Truth value of an object, as [if x:] and [not x] take it. *)
Definition truthy (v : value) : bool :=
  match v with
  | VBool b => b
  | VInt z => negb (Z.eqb z 0)
  | VStr s => negb (s =? EmptyString)
  | VList l => match l with [] => false | _ => true end
  | VDict d => match d with [] => false | _ => true end
  end.

Definition nonempty {A} (l : list A) : bool :=
  match l with [] => false | _ => true end.

Definition str_nonempty (s : string) : bool := negb (s =? EmptyString).

(** ** Dictionaries *)

Section Dict.
Variable V : Type.

(** [d.get(k)] *)
Fixpoint dict_get (k : string) (d : list (string * V)) : option V :=
  match d with
  | [] => None
  | (k', v) :: rest => if k' =? k then Some v else dict_get k rest
  end.

(** [k in d] *)
Definition dict_contains (k : string) (d : list (string * V)) : bool :=
  match dict_get k d with Some _ => true | None => false end.

(** [d.get(k, default)] *)
Definition dict_get_default (k : string) (default : V) (d : list (string * V)) : V :=
  match dict_get k d with Some v => v | None => default end.

(** [d[k] = v]: an existing key keeps its position, a new key goes last. *)
Fixpoint dict_set (k : string) (v : V) (d : list (string * V)) : list (string * V) :=
  match d with
  | [] => [(k, v)]
  | (k', v') :: rest =>
      if k' =? k then (k', v) :: rest else (k', v') :: dict_set k v rest
  end.

(** [d.setdefault(k, v)] *)
Definition dict_setdefault (k : string) (v : V) (d : list (string * V)) : list (string * V) :=
  if dict_contains k d then d else dict_set k v d.

(** [d.update(other)] *)
Definition dict_update (d other : list (string * V)) : list (string * V) :=
  fold_left (fun acc kv => dict_set (fst kv) (snd kv) acc) other d.

Definition keys (d : list (string * V)) : list string := map fst d.
End Dict.

(** An [OrderedDict] whose values are all [None], used as an ordered set. *)
Definition mem (x : string) (l : list string) : bool := existsb (String.eqb x) l.

Definition oset_add (x : string) (l : list string) : list string :=
  if mem x l then l else l ++ [x].

Definition oset_extend (l xs : list string) : list string :=
  fold_left (fun acc x => oset_add x acc) xs l.

(** ** String built-ins *)

(** [str(i)] for the 1-based indices of [enumerate(xs, 1)]. *)
Definition str_of_nat (n : nat) : string := NilZero.string_of_uint (Nat.to_uint n).

Fixpoint drop (n : nat) (s : string) : string :=
  match n, s with
  | 0, _ => s
  | S n', String _ t => drop n' t
  | S _, EmptyString => EmptyString
  end.

(** [s.startswith(p)] *)
Definition startswith (s p : string) : bool := prefix p s.

(** [s.replace(old, new, 1)]: the leftmost occurrence only. *)
Fixpoint replace_first (old new s : string) : string :=
  if prefix old s then new ++ drop (String.length old) s
  else match s with
       | EmptyString => EmptyString
       | String c t => String c (replace_first old new t)
       end.

(** [s.replace(old, new)] for a non-empty [old]: every occurrence, left to
    right, without overlap; [skip] counts the characters of a match still to
    be passed over. *)
Fixpoint replace_from (old new : string) (skip : nat) (s : string) : string :=
  match s with
  | EmptyString => EmptyString
  | String c t =>
      match skip with
      | S k => replace_from old new k t
      | 0 =>
          if prefix old s
          then new ++ replace_from old new (String.length old - 1) t
          else String c (replace_from old new 0 t)
      end
  end.

(** With an empty [old], Python puts [new] before every character and at the end. *)
Fixpoint interleave (new s : string) : string :=
  match s with
  | EmptyString => new
  | String c t => new ++ String c (interleave new t)
  end.

Definition replace_all (old new s : string) : string :=
  if old =? EmptyString then interleave new s else replace_from old new 0 s.

(** [sep.join(xs)] *)
Definition join (sep : string) (xs : list string) : string := String.concat sep xs.

(** ** [sorted] *)

Section Sorting.
Variable A : Type.
Variable leb : A -> A -> bool.

Fixpoint insert_sorted (x : A) (l : list A) : list A :=
  match l with
  | [] => [x]
  | y :: t => if leb x y then x :: l else y :: insert_sorted x t
  end.

(** A stable sort: of equal elements the earlier one stays first. *)
Definition sorted (l : list A) : list A := fold_right insert_sorted [] l.
End Sorting.

(** Order of the tuples [(key, value)] of [d.items()]: first components first. *)
Definition item_leb (a b : string * string) : bool :=
  match String.compare (fst a) (fst b) with
  | Lt => true
  | Gt => false
  | Eq => String.leb (snd a) (snd b)
  end.

(** ** The pattern matcher (the pathspec library)

    A compiled [PathSpec] is kept as the pattern lines it was built from; a
    line is turned into a pattern by the factory when a path is matched.  The
    constructor [from_lines] is the spec of lines that all compile; compiling
    is [PathSpec_from_lines] below, which can raise. *)

Record PathSpec : Type := from_lines { lines : list string }.

(** ** The world outside the class

    The Python runtime, the pathspec pattern class and the sibling modules
    [hatchling.builders.constants] and [hatchling.builders.utils], on which the
    class depends and whose code is not part of this development. *)
Record World : Type := mkWorld {
  (* os *)
  os_path_sep : string;
  os_path_split : string -> string * string;
  os_path_isabs : string -> bool;
  os_path_join : string -> string -> string;
  os_path_normpath : string -> string;
  os_environ : list (string * string);
  (* str.upper *)
  upper : string -> string;
  (* the lines of the project's .gitignore, when locate_file finds one *)
  gitignore_lines : option (list string);
  (* the exception that opening or decoding that file raises, when it does *)
  gitignore_error : option exn;
  (* pathspec.patterns.GitWildMatchPattern: a pattern says whether it includes
     or excludes ([None] for a comment or a blank line) and which paths it matches *)
  Pattern : Type;
  GitWildMatchPattern : string -> Pattern;
  (* the message of the GitWildMatchPatternError, a ValueError, that the
     factory raises on a line it refuses *)
  pattern_error : string -> option string;
  pattern_include : Pattern -> option bool;
  pattern_match : Pattern -> string -> bool;
  (* hatchling.builders.constants *)
  DEFAULT_BUILD_DIRECTORY : string;
  NO_HOOKS : string;
  HOOKS_ENABLE : string;
  HOOK_ENABLE_PREFIX : string;
  (* hatchling.builders.utils *)
  normalize_relative_path : string -> string;
  normalize_relative_directory : string -> string;
  normalize_inclusion_map : list (string * string) -> string -> list (string * string)
}.

(** The message of the first line that the pattern factory refuses. *)
Fixpoint first_pattern_error (W : World) (pattern_lines : list string)
    : option string :=
  match pattern_lines with
  | [] => None
  | line :: rest =>
      match pattern_error W line with
      | Some msg => Some msg
      | None => first_pattern_error W rest
      end
  end.

(** [pathspec.PathSpec.from_lines(pathspec.patterns.GitWildMatchPattern, lines)]:
    the lines are handed to the factory in order, and the first one it
    refuses raises. *)
Definition PathSpec_from_lines (W : World) (pattern_lines : list string)
    : result PathSpec :=
  match first_pattern_error W pattern_lines with
  | Some msg => inl (ValueError msg)
  | None => inr (from_lines pattern_lines)
  end.

(** What the class asks of its builder. *)
Record Builder : Type := mkBuilder {
  get_default_versions : list string;
  (* the keys of the mapping returned by get_version_api() *)
  get_version_api : list string;
  (* builder.metadata.core.dependencies *)
  metadata_core_dependencies : list string
}.

(** The arguments of [__init__], never reassigned afterwards. *)
Record BuilderConfig : Type := mkBuilderConfig {
  builder : Builder;
  root : string;
  plugin_name : string;
  build_config : dict;
  target_config : dict
}.

(** The record handed to [set_build_data]; [None] stands for a missing key. *)
Record BuildData : Type := mkBuildData {
  bd_artifacts : option (list string);
  bd_force_include : option (list (string * string))
}.

(** ** The mutable attributes of the object *)

Record state : Type := mkState {
  __hook_config : option (list (string * dict));
  __versions : option (list string);
  __dependencies : option (list string);
  __sources : option (list (string * string));
  __packages : option (list string);
  __force_include : option (list (string * string));
  __include_spec : option PathSpec;
  __exclude_spec : option PathSpec;
  __artifact_spec : option PathSpec;
  __include_patterns : option (list string);
  __exclude_patterns : option (list string);
  __artifact_patterns : option (list string);
  build_artifact_spec : option PathSpec;
  build_force_include : list (string * string);
  __directory : option string;
  __ignore_vcs : option bool;
  __only_packages : option bool;
  __reproducible : option bool;
  __dev_mode_dirs : option (list string);
  __dev_mode_exact : option bool;
  __require_runtime_dependencies : option bool
}.

Definition set_hook_config (v : option (list (string * dict))) (s : state) : state :=
  mkState v (__versions s) (__dependencies s) (__sources s) (__packages s)
    (__force_include s) (__include_spec s) (__exclude_spec s)
    (__artifact_spec s) (__include_patterns s) (__exclude_patterns s)
    (__artifact_patterns s) (build_artifact_spec s) (build_force_include s)
    (__directory s) (__ignore_vcs s) (__only_packages s) (__reproducible s)
    (__dev_mode_dirs s) (__dev_mode_exact s)
    (__require_runtime_dependencies s).

Definition set_versions (v : option (list string)) (s : state) : state :=
  mkState (__hook_config s) v (__dependencies s) (__sources s)
    (__packages s) (__force_include s) (__include_spec s) (__exclude_spec s)
    (__artifact_spec s) (__include_patterns s) (__exclude_patterns s)
    (__artifact_patterns s) (build_artifact_spec s) (build_force_include s)
    (__directory s) (__ignore_vcs s) (__only_packages s) (__reproducible s)
    (__dev_mode_dirs s) (__dev_mode_exact s)
    (__require_runtime_dependencies s).

Definition set_dependencies (v : option (list string)) (s : state) : state :=
  mkState (__hook_config s) (__versions s) v (__sources s) (__packages s)
    (__force_include s) (__include_spec s) (__exclude_spec s)
    (__artifact_spec s) (__include_patterns s) (__exclude_patterns s)
    (__artifact_patterns s) (build_artifact_spec s) (build_force_include s)
    (__directory s) (__ignore_vcs s) (__only_packages s) (__reproducible s)
    (__dev_mode_dirs s) (__dev_mode_exact s)
    (__require_runtime_dependencies s).

Definition set_sources (v : option (list (string * string))) (s : state) : state :=
  mkState (__hook_config s) (__versions s) (__dependencies s) v
    (__packages s) (__force_include s) (__include_spec s) (__exclude_spec s)
    (__artifact_spec s) (__include_patterns s) (__exclude_patterns s)
    (__artifact_patterns s) (build_artifact_spec s) (build_force_include s)
    (__directory s) (__ignore_vcs s) (__only_packages s) (__reproducible s)
    (__dev_mode_dirs s) (__dev_mode_exact s)
    (__require_runtime_dependencies s).

Definition set_packages (v : option (list string)) (s : state) : state :=
  mkState (__hook_config s) (__versions s) (__dependencies s) (__sources s)
    v (__force_include s) (__include_spec s) (__exclude_spec s)
    (__artifact_spec s) (__include_patterns s) (__exclude_patterns s)
    (__artifact_patterns s) (build_artifact_spec s) (build_force_include s)
    (__directory s) (__ignore_vcs s) (__only_packages s) (__reproducible s)
    (__dev_mode_dirs s) (__dev_mode_exact s)
    (__require_runtime_dependencies s).

Definition set_force_include (v : option (list (string * string))) (s : state) : state :=
  mkState (__hook_config s) (__versions s) (__dependencies s) (__sources s)
    (__packages s) v (__include_spec s) (__exclude_spec s)
    (__artifact_spec s) (__include_patterns s) (__exclude_patterns s)
    (__artifact_patterns s) (build_artifact_spec s) (build_force_include s)
    (__directory s) (__ignore_vcs s) (__only_packages s) (__reproducible s)
    (__dev_mode_dirs s) (__dev_mode_exact s)
    (__require_runtime_dependencies s).

Definition set_include_spec (v : option PathSpec) (s : state) : state :=
  mkState (__hook_config s) (__versions s) (__dependencies s) (__sources s)
    (__packages s) (__force_include s) v (__exclude_spec s)
    (__artifact_spec s) (__include_patterns s) (__exclude_patterns s)
    (__artifact_patterns s) (build_artifact_spec s) (build_force_include s)
    (__directory s) (__ignore_vcs s) (__only_packages s) (__reproducible s)
    (__dev_mode_dirs s) (__dev_mode_exact s)
    (__require_runtime_dependencies s).

Definition set_exclude_spec (v : option PathSpec) (s : state) : state :=
  mkState (__hook_config s) (__versions s) (__dependencies s) (__sources s)
    (__packages s) (__force_include s) (__include_spec s) v
    (__artifact_spec s) (__include_patterns s) (__exclude_patterns s)
    (__artifact_patterns s) (build_artifact_spec s) (build_force_include s)
    (__directory s) (__ignore_vcs s) (__only_packages s) (__reproducible s)
    (__dev_mode_dirs s) (__dev_mode_exact s)
    (__require_runtime_dependencies s).

Definition set_artifact_spec (v : option PathSpec) (s : state) : state :=
  mkState (__hook_config s) (__versions s) (__dependencies s) (__sources s)
    (__packages s) (__force_include s) (__include_spec s) (__exclude_spec s)
    v (__include_patterns s) (__exclude_patterns s) (__artifact_patterns s)
    (build_artifact_spec s) (build_force_include s) (__directory s)
    (__ignore_vcs s) (__only_packages s) (__reproducible s)
    (__dev_mode_dirs s) (__dev_mode_exact s)
    (__require_runtime_dependencies s).

Definition set_include_patterns (v : option (list string)) (s : state) : state :=
  mkState (__hook_config s) (__versions s) (__dependencies s) (__sources s)
    (__packages s) (__force_include s) (__include_spec s) (__exclude_spec s)
    (__artifact_spec s) v (__exclude_patterns s) (__artifact_patterns s)
    (build_artifact_spec s) (build_force_include s) (__directory s)
    (__ignore_vcs s) (__only_packages s) (__reproducible s)
    (__dev_mode_dirs s) (__dev_mode_exact s)
    (__require_runtime_dependencies s).

Definition set_exclude_patterns (v : option (list string)) (s : state) : state :=
  mkState (__hook_config s) (__versions s) (__dependencies s) (__sources s)
    (__packages s) (__force_include s) (__include_spec s) (__exclude_spec s)
    (__artifact_spec s) (__include_patterns s) v (__artifact_patterns s)
    (build_artifact_spec s) (build_force_include s) (__directory s)
    (__ignore_vcs s) (__only_packages s) (__reproducible s)
    (__dev_mode_dirs s) (__dev_mode_exact s)
    (__require_runtime_dependencies s).

Definition set_artifact_patterns (v : option (list string)) (s : state) : state :=
  mkState (__hook_config s) (__versions s) (__dependencies s) (__sources s)
    (__packages s) (__force_include s) (__include_spec s) (__exclude_spec s)
    (__artifact_spec s) (__include_patterns s) (__exclude_patterns s) v
    (build_artifact_spec s) (build_force_include s) (__directory s)
    (__ignore_vcs s) (__only_packages s) (__reproducible s)
    (__dev_mode_dirs s) (__dev_mode_exact s)
    (__require_runtime_dependencies s).

Definition set_build_artifact_spec (v : option PathSpec) (s : state) : state :=
  mkState (__hook_config s) (__versions s) (__dependencies s) (__sources s)
    (__packages s) (__force_include s) (__include_spec s) (__exclude_spec s)
    (__artifact_spec s) (__include_patterns s) (__exclude_patterns s)
    (__artifact_patterns s) v (build_force_include s) (__directory s)
    (__ignore_vcs s) (__only_packages s) (__reproducible s)
    (__dev_mode_dirs s) (__dev_mode_exact s)
    (__require_runtime_dependencies s).

Definition set_build_force_include (v : list (string * string)) (s : state) : state :=
  mkState (__hook_config s) (__versions s) (__dependencies s) (__sources s)
    (__packages s) (__force_include s) (__include_spec s) (__exclude_spec s)
    (__artifact_spec s) (__include_patterns s) (__exclude_patterns s)
    (__artifact_patterns s) (build_artifact_spec s) v (__directory s)
    (__ignore_vcs s) (__only_packages s) (__reproducible s)
    (__dev_mode_dirs s) (__dev_mode_exact s)
    (__require_runtime_dependencies s).

Definition set_directory (v : option string) (s : state) : state :=
  mkState (__hook_config s) (__versions s) (__dependencies s) (__sources s)
    (__packages s) (__force_include s) (__include_spec s) (__exclude_spec s)
    (__artifact_spec s) (__include_patterns s) (__exclude_patterns s)
    (__artifact_patterns s) (build_artifact_spec s) (build_force_include s)
    v (__ignore_vcs s) (__only_packages s) (__reproducible s)
    (__dev_mode_dirs s) (__dev_mode_exact s)
    (__require_runtime_dependencies s).

Definition set_ignore_vcs (v : option bool) (s : state) : state :=
  mkState (__hook_config s) (__versions s) (__dependencies s) (__sources s)
    (__packages s) (__force_include s) (__include_spec s) (__exclude_spec s)
    (__artifact_spec s) (__include_patterns s) (__exclude_patterns s)
    (__artifact_patterns s) (build_artifact_spec s) (build_force_include s)
    (__directory s) v (__only_packages s) (__reproducible s)
    (__dev_mode_dirs s) (__dev_mode_exact s)
    (__require_runtime_dependencies s).

Definition set_only_packages (v : option bool) (s : state) : state :=
  mkState (__hook_config s) (__versions s) (__dependencies s) (__sources s)
    (__packages s) (__force_include s) (__include_spec s) (__exclude_spec s)
    (__artifact_spec s) (__include_patterns s) (__exclude_patterns s)
    (__artifact_patterns s) (build_artifact_spec s) (build_force_include s)
    (__directory s) (__ignore_vcs s) v (__reproducible s)
    (__dev_mode_dirs s) (__dev_mode_exact s)
    (__require_runtime_dependencies s).

Definition set_reproducible (v : option bool) (s : state) : state :=
  mkState (__hook_config s) (__versions s) (__dependencies s) (__sources s)
    (__packages s) (__force_include s) (__include_spec s) (__exclude_spec s)
    (__artifact_spec s) (__include_patterns s) (__exclude_patterns s)
    (__artifact_patterns s) (build_artifact_spec s) (build_force_include s)
    (__directory s) (__ignore_vcs s) (__only_packages s) v
    (__dev_mode_dirs s) (__dev_mode_exact s)
    (__require_runtime_dependencies s).

Definition set_dev_mode_dirs (v : option (list string)) (s : state) : state :=
  mkState (__hook_config s) (__versions s) (__dependencies s) (__sources s)
    (__packages s) (__force_include s) (__include_spec s) (__exclude_spec s)
    (__artifact_spec s) (__include_patterns s) (__exclude_patterns s)
    (__artifact_patterns s) (build_artifact_spec s) (build_force_include s)
    (__directory s) (__ignore_vcs s) (__only_packages s) (__reproducible s)
    v (__dev_mode_exact s) (__require_runtime_dependencies s).

Definition set_dev_mode_exact (v : option bool) (s : state) : state :=
  mkState (__hook_config s) (__versions s) (__dependencies s) (__sources s)
    (__packages s) (__force_include s) (__include_spec s) (__exclude_spec s)
    (__artifact_spec s) (__include_patterns s) (__exclude_patterns s)
    (__artifact_patterns s) (build_artifact_spec s) (build_force_include s)
    (__directory s) (__ignore_vcs s) (__only_packages s) (__reproducible s)
    (__dev_mode_dirs s) v (__require_runtime_dependencies s).

Definition set_require_runtime_dependencies (v : option bool) (s : state) : state :=
  mkState (__hook_config s) (__versions s) (__dependencies s) (__sources s)
    (__packages s) (__force_include s) (__include_spec s) (__exclude_spec s)
    (__artifact_spec s) (__include_patterns s) (__exclude_patterns s)
    (__artifact_patterns s) (build_artifact_spec s) (build_force_include s)
    (__directory s) (__ignore_vcs s) (__only_packages s) (__reproducible s)
    (__dev_mode_dirs s) (__dev_mode_exact s) v.

(** The attributes as [__init__] leaves them. *)
Definition init_state : state :=
  mkState None None None None None None None None None None None None
          None [] None None None None None None None.

(** ** Computations over the attributes: state and exceptions

    An exception leaves the attributes as they were when it was raised. *)

Definition M (A : Type) : Type := state -> result A * state.

Definition ret {A} (a : A) : M A := fun s => (inr a, s).

Definition raise {A} (e : exn) : M A := fun s => (inl e, s).

Definition bind {A B} (m : M A) (f : A -> M B) : M B :=
  fun s =>
    match m s with
    | (inr a, s') => f a s'
    | (inl e, s') => (inl e, s')
    end.

Definition lift {A} (r : result A) : M A := fun s => (r, s).

Definition gets {A} (f : state -> A) : M A := fun s => (inr (f s), s).

Definition modify (f : state -> state) : M unit := fun s => (inr tt, f s).

Declare Scope py_scope.
Delimit Scope py_scope with py.
Notation "x <- c ;; k" := (bind c (fun x => k))
  (at level 61, c at next level, right associativity) : py_scope.
Notation "c ;;; k" := (bind c (fun _ => k))
  (at level 61, right associativity) : py_scope.
Notation "x <~ c ;; k" := (rbind c (fun x => k))
  (at level 61, c at next level, right associativity) : py_scope.
Open Scope py_scope.

(** [try: body finally: cleanup] *)
Definition try_finally {A} (body : M A) (cleanup : state -> state) : M A :=
  fun s => let (r, s') := body s in (r, cleanup s').

(** The shape of every memoized property:
    [if self.__x is None: ...; self.__x = v] and then [return self.__x]. *)
Definition memoized {A} (get : state -> option A)
    (put : option A -> state -> state) (compute : M A) : M A :=
  fun s =>
    match get s with
    | Some v => (inr v, s)
    | None =>
        match compute s with
        | (inr v, s') => (inr v, put (Some v) s')
        | (inl e, s') => (inl e, s')
        end
    end.

(** The three pattern properties are guarded by the pattern list, and the
    spec attribute is assigned only when the list is not empty.  The list is
    compiled before anything is assigned: when [from_lines] raises, the two
    attributes stay unset, and what [compute] cached stays cached. *)
Definition memoized_spec (from_lines : list string -> result PathSpec)
    (get_patterns : state -> option (list string))
    (put_patterns : option (list string) -> state -> state)
    (get_spec : state -> option PathSpec)
    (put_spec : option PathSpec -> state -> state)
    (compute : M (list string)) : M (option PathSpec) :=
  fun s =>
    match get_patterns s with
    | Some _ => (inr (get_spec s), s)
    | None =>
        match compute s with
        | (inr all_patterns, s') =>
            if nonempty all_patterns then
              match from_lines all_patterns with
              | inr spec =>
                  let s2 := put_patterns (Some all_patterns)
                              (put_spec (Some spec) s') in
                  (inr (get_spec s2), s2)
              | inl e => (inl e, s')
              end
            else
              let s2 := put_patterns (Some all_patterns) s' in
              (inr (get_spec s2), s2)
        | (inl e, s') => (inl e, s')
        end
    end.

(** ** Pieces shared by the properties *)

(** [d[k]] *)
Definition dict_getitem {V} (k : string) (d : list (string * V)) : result V :=
  match dict_get k d with
  | Some v => inr v
  | None => inl (KeyError k)
  end.

(** [os.environ]-driven switch. *)
Definition env_var_enabled (environ : list (string * string))
    (env_var : string) (default : bool) : bool :=
  match dict_get env_var environ with
  | Some v => (v =? "1") || (v =? "true")
  | None => default
  end.

(** The loop [for i, x in enumerate(xs, 1)] over a list that must hold
    strings: the first element that is not a string raises [type_error i];
    when [empty_error] is given, the first empty string raises it.  The
    strings are returned in order. *)
Fixpoint check_strings (type_error : nat -> exn)
    (empty_error : option (nat -> exn)) (i : nat) (xs : list value)
    : result (list string) :=
  match xs with
  | [] => inr []
  | x :: rest =>
      match x with
      | VStr s =>
          match empty_error with
          | Some err =>
              if s =? EmptyString then inl (err i)
              else rbind (check_strings type_error empty_error (S i) rest)
                         (fun l => inr (s :: l))
          | None =>
              rbind (check_strings type_error empty_error (S i) rest)
                    (fun l => inr (s :: l))
          end
      | _ => inl (type_error i)
      end
  end.

(** [isinstance(v, list)], or a [TypeError] with the given message. *)
Definition expect_list (msg : string) (v : value) : result (list value) :=
  match v with
  | VList l => inr l
  | _ => inl (TypeError msg)
  end.

Definition must_be_string (kind : string) (location : string) (i : nat) : exn :=
  TypeError (kind ++ " #" ++ str_of_nat i ++ " in field `" ++ location
             ++ "` must be a string").

Definition cannot_be_empty (kind : string) (location : string) (i : nat) : exn :=
  ValueError (kind ++ " #" ++ str_of_nat i ++ " in field `" ++ location
              ++ "` cannot be an empty string").

(** An array of non-empty strings found at [location]. *)
Definition string_array (kind : string) (location : string) (v : value)
    : result (list string) :=
  l <~ expect_list ("Field `" ++ location ++ "` must be an array of strings") v ;;
  check_strings (must_be_string kind location)
                (Some (cannot_be_empty kind location)) 1 l.

Section BuilderConfig.
Variable W : World.
Variable self : BuilderConfig.

Definition target_location (option_name : string) : string :=
  "tool.hatch.build.targets." ++ plugin_name self ++ "." ++ option_name.

Definition global_location (option_name : string) : string :=
  "tool.hatch.build." ++ option_name.

(** The table an option is read from and the name it has there: the target's
    table when the key is present in it, the global one otherwise. *)
Definition select_config (key : string) : dict * string :=
  if dict_contains key (target_config self)
  then (target_config self, target_location key)
  else (build_config self, global_location key).

Definition default_include : list value := [].
Definition default_exclude : list value := [].
Definition default_packages : list value := [].
Definition default_global_exclude : list string :=
  [".git"; "__pycache__"; "*.py[cod]"].

(** Without an ignore file there is nothing to read; with one, reading it
    can raise. *)
Definition load_vcs_ignore_patterns : result (list string) :=
  match gitignore_lines W with
  | None => inr []
  | Some file_lines =>
      match gitignore_error W with
      | Some e => inl e
      | None => inr file_lines
      end
  end.

Definition normalize_build_directory (build_directory : string) : string :=
  os_path_normpath W
    (if os_path_isabs W build_directory then build_directory
     else os_path_join W (root self) build_directory).

(** *** Scalar options *)

(** The five boolean options share one shape. *)
Definition bool_option (key : string) (default : bool) : result bool :=
  if dict_contains key (target_config self) then
    v <~ dict_getitem key (target_config self) ;;
    match v with
    | VBool b => inr b
    | _ => inl (TypeError ("Field `" ++ target_location key ++ "` must be a boolean"))
    end
  else
    match dict_get_default key (VBool default) (build_config self) with
    | VBool b => inr b
    | _ => inl (TypeError ("Field `" ++ global_location key ++ "` must be a boolean"))
    end.

Definition ignore_vcs : M bool :=
  memoized __ignore_vcs set_ignore_vcs (lift (bool_option "ignore-vcs" false)).

Definition require_runtime_dependencies : M bool :=
  memoized __require_runtime_dependencies set_require_runtime_dependencies
    (lift (bool_option "require-runtime-dependencies" false)).

Definition only_packages : M bool :=
  memoized __only_packages set_only_packages
    (lift (bool_option "only-packages" false)).

Definition reproducible : M bool :=
  memoized __reproducible set_reproducible
    (lift (bool_option "reproducible" true)).

Definition dev_mode_exact : M bool :=
  memoized __dev_mode_exact set_dev_mode_exact
    (lift (bool_option "dev-mode-exact" false)).

Definition directory_value : result string :=
  if dict_contains "directory" (target_config self) then
    v <~ dict_getitem "directory" (target_config self) ;;
    match v with
    | VStr d => inr (normalize_build_directory d)
    | _ => inl (TypeError ("Field `" ++ target_location "directory"
                           ++ "` must be a string"))
    end
  else
    match dict_get_default "directory" (VStr (DEFAULT_BUILD_DIRECTORY W))
                           (build_config self) with
    | VStr d => inr (normalize_build_directory d)
    | _ => inl (TypeError "Field `tool.hatch.build.directory` must be a string")
    end.

Definition directory : M string :=
  memoized __directory set_directory (lift directory_value).

Definition dev_mode_dirs_value : result (list string) :=
  let (dev_mode_dirs_config, dev_mode_dirs_location) :=
    select_config "dev-mode-dirs" in
  string_array "Directory" dev_mode_dirs_location
    (dict_get_default "dev-mode-dirs" (VList []) dev_mode_dirs_config).

Definition dev_mode_dirs : M (list string) :=
  memoized __dev_mode_dirs set_dev_mode_dirs (lift dev_mode_dirs_value).

(** *** Packages *)

Definition packages_value : result (list string) :=
  let (package_config, package_location) := select_config "packages" in
  pkgs <~ string_array "Package" package_location
            (dict_get_default "packages" (VList default_packages) package_config) ;;
  inr (sorted String.leb (map (normalize_relative_path W) pkgs)).

Definition packages : M (list string) :=
  memoized __packages set_packages (lift packages_value).

(** *** The three pattern specs *)

Definition package_pattern (relative_path : string) : string :=
  "/" ++ replace_all (os_path_sep W) "/" relative_path ++ "/".

Definition include_spec : M (option PathSpec) :=
  memoized_spec (PathSpec_from_lines W) __include_patterns set_include_patterns
                __include_spec set_include_spec
    (let (include_config, include_location) := select_config "include" in
     include_patterns <-
       lift (string_array "Pattern" include_location
               (dict_get_default "include" (VList default_include) include_config)) ;;
     pkgs <- packages ;;
     ret (include_patterns ++ map package_pattern pkgs)).

Definition exclude_spec : M (option PathSpec) :=
  memoized_spec (PathSpec_from_lines W) __exclude_patterns set_exclude_patterns
                __exclude_spec set_exclude_spec
    (let (exclude_config, exclude_location) := select_config "exclude" in
     exclude_patterns <-
       lift (string_array "Pattern" exclude_location
               (dict_get_default "exclude" (VList default_exclude) exclude_config)) ;;
     no_vcs <- ignore_vcs ;;
     vcs_patterns <- lift (if no_vcs then inr [] else load_vcs_ignore_patterns) ;;
     ret (default_global_exclude ++ exclude_patterns ++ vcs_patterns)).

Definition artifact_spec : M (option PathSpec) :=
  memoized_spec (PathSpec_from_lines W) __artifact_patterns set_artifact_patterns
                __artifact_spec set_artifact_spec
    (let (artifact_config, artifact_location) := select_config "artifacts" in
     lift (string_array "Pattern" artifact_location
             (dict_get_default "artifacts" (VList []) artifact_config))).

(** *** Build hooks *)

(** [hook_config[hook_name] = config] over the target's hooks. *)
Fixpoint merge_target_hooks (hooks : dict) (hook_config : list (string * dict))
    : result (list (string * dict)) :=
  match hooks with
  | [] => inr hook_config
  | (hook_name, config) :: rest =>
      match config with
      | VDict c => merge_target_hooks rest (dict_set hook_name c hook_config)
      | _ => inl (TypeError ("Field `tool.hatch.build.targets." ++ plugin_name self
                             ++ ".hooks." ++ hook_name ++ "` must be a table"))
      end
  end.

(** [hook_config.setdefault(hook_name, config)] over the global hooks. *)
Fixpoint merge_global_hooks (hooks : dict) (hook_config : list (string * dict))
    : result (list (string * dict)) :=
  match hooks with
  | [] => inr hook_config
  | (hook_name, config) :: rest =>
      match config with
      | VDict c => merge_global_hooks rest (dict_setdefault hook_name c hook_config)
      | _ => inl (TypeError ("Field `tool.hatch.build.hooks." ++ hook_name
                             ++ "` must be a table"))
      end
  end.

Definition expect_table (msg : string) (v : value) : result dict :=
  match v with
  | VDict d => inr d
  | _ => inl (TypeError msg)
  end.

Definition hook_enabled (all_hooks_enabled : bool) (hook_name : string)
    (config : dict) : bool :=
  all_hooks_enabled
  || truthy (dict_get_default "enable-by-default" (VBool true) config)
  || env_var_enabled (os_environ W)
       (HOOK_ENABLE_PREFIX W ++ upper W hook_name) false.

Definition enabled_hooks (hook_config : list (string * dict))
    : list (string * dict) :=
  if negb (env_var_enabled (os_environ W) (NO_HOOKS W) false) then
    let all_hooks_enabled := env_var_enabled (os_environ W) (HOOKS_ENABLE W) false in
    fold_left
      (fun final_hook_config hook =>
         if hook_enabled all_hooks_enabled (fst hook) (snd hook)
         then dict_set (fst hook) (snd hook) final_hook_config
         else final_hook_config)
      hook_config []
  else [].

Definition merged_hooks : result (list (string * dict)) :=
  target_hook_config <~
    expect_table ("Field `tool.hatch.build.targets." ++ plugin_name self
                  ++ ".hooks` must be a table")
      (dict_get_default "hooks" (VDict []) (target_config self)) ;;
  hook_config <~ merge_target_hooks target_hook_config [] ;;
  global_hook_config <~
    expect_table "Field `tool.hatch.build.hooks` must be a table"
      (dict_get_default "hooks" (VDict []) (build_config self)) ;;
  merge_global_hooks global_hook_config hook_config.

Definition hook_config_value : result (list (string * dict)) :=
  hook_config <~ merged_hooks ;;
  inr (enabled_hooks hook_config).

Definition hook_config : M (list (string * dict)) :=
  memoized __hook_config set_hook_config (lift hook_config_value).

(** *** Versions *)

(** [set(all_versions) - set(get_version_api())], sorted. *)
Definition unknown_versions (all_versions : list string) : list string :=
  sorted String.leb
    (filter (fun v => negb (mem v (get_version_api (builder self)))) all_versions).

Definition versions_value : result (list string) :=
  versions <~
    expect_list ("Field `" ++ target_location "versions"
                 ++ "` must be an array of strings")
      (dict_get_default "versions" (VList []) (target_config self)) ;;
  checked <~ check_strings (must_be_string "Version" (target_location "versions"))
               (Some (cannot_be_empty "Version" (target_location "versions")))
               1 versions ;;
  let all_versions := oset_extend [] checked in
  if negb (nonempty all_versions) then
    inr (oset_extend all_versions (get_default_versions (builder self)))
  else
    let unknown := unknown_versions all_versions in
    if nonempty unknown then
      inl (ValueError ("Unknown versions in field `" ++ target_location "versions"
                       ++ "`: " ++ join ", " unknown))
    else inr all_versions.

Definition versions : M (list string) :=
  memoized __versions set_versions (lift versions_value).

(** *** Dependencies *)

Definition hook_dependency_error (hook_name : string) (i : nat) : exn :=
  TypeError ("Dependency #" ++ str_of_nat i
             ++ " of option `dependencies` of build hook `" ++ hook_name
             ++ "` must be a string").

(** The loop over [self.hook_config.items()]: the flag and the ordered set
    of dependencies are carried along. *)
Fixpoint hook_dependencies (hooks : list (string * dict))
    (require_runtime : bool) (dependencies : list string)
    : result (bool * list string) :=
  match hooks with
  | [] => inr (require_runtime, dependencies)
  | (hook_name, config) :: rest =>
      match dict_get_default "require-runtime-dependencies" (VBool false) config with
      | VBool hook_require_runtime =>
          deps <~
            expect_list ("Option `dependencies` of build hook `" ++ hook_name
                         ++ "` must be an array")
              (dict_get_default "dependencies" (VList []) config) ;;
          checked <~ check_strings (hook_dependency_error hook_name) None 1 deps ;;
          hook_dependencies rest (hook_require_runtime || require_runtime)
            (oset_extend dependencies checked)
      | _ =>
          inl (TypeError ("Option `require-runtime-dependencies` of build hook `"
                          ++ hook_name ++ "` must be a boolean"))
      end
  end.

Definition dependency_error (location : string) (i : nat) : exn :=
  TypeError ("Dependency #" ++ str_of_nat i ++ " of field `" ++ location
             ++ "` must be a string").

Definition declared_dependencies : result (list string) :=
  target_dependencies <~
    expect_list ("Field `" ++ target_location "dependencies" ++ "` must be an array")
      (dict_get_default "dependencies" (VList []) (target_config self)) ;;
  from_target <~
    check_strings (dependency_error (target_location "dependencies")) None 1
      target_dependencies ;;
  global_dependencies <~
    expect_list "Field `tool.hatch.build.dependencies` must be an array"
      (dict_get_default "dependencies" (VList []) (build_config self)) ;;
  from_global <~
    check_strings (dependency_error (global_location "dependencies")) None 1
      global_dependencies ;;
  inr (oset_extend (oset_extend [] from_target) from_global).

Definition dependencies : M (list string) :=
  memoized __dependencies set_dependencies
    (declared <- lift declared_dependencies ;;
     require_runtime <- require_runtime_dependencies ;;
     hooks <- hook_config ;;
     flag_and_deps <- lift (hook_dependencies hooks require_runtime declared) ;;
     ret (if fst flag_and_deps
          then oset_extend (snd flag_and_deps)
                 (metadata_core_dependencies (builder self))
          else snd flag_and_deps)).

(** *** The source map *)

(** The array form: every source directory is stripped. *)
Fixpoint sources_from_list (location : string) (i : nat) (raw : list value)
    (sources : list (string * string)) : result (list (string * string)) :=
  match raw with
  | [] => inr sources
  | source :: rest =>
      match source with
      | VStr s =>
          if s =? EmptyString then inl (cannot_be_empty "Source" location i)
          else sources_from_list location (S i) rest
                 (dict_set (normalize_relative_directory W s) EmptyString sources)
      | _ => inl (must_be_string "Source" location i)
      end
  end.

(** The mapping form: source directory to replacement. *)
Fixpoint sources_from_dict (location : string) (i : nat) (raw : dict)
    (sources : list (string * string)) : result (list (string * string)) :=
  match raw with
  | [] => inr sources
  | (source, path) :: rest =>
      if source =? EmptyString then inl (cannot_be_empty "Source" location i)
      else
        match path with
        | VStr p =>
            let normalized_path := normalize_relative_path W p in
            let normalized_path :=
              if str_nonempty normalized_path
              then (normalized_path ++ os_path_sep W)%string
              else normalized_path in
            sources_from_dict location (S i) rest
              (dict_set (normalize_relative_directory W source) normalized_path sources)
        | _ => inl (TypeError ("Path for source `" ++ source ++ "` in field `"
                               ++ location ++ "` must be a string"))
        end
  end.

Definition explicit_sources : result (list (string * string)) :=
  let (sources_config, sources_location) := select_config "sources" in
  match dict_get_default "sources" (VList []) sources_config with
  | VList raw => sources_from_list sources_location 1 raw []
  | VDict raw => sources_from_dict sources_location 1 raw []
  | _ => inl (TypeError ("Field `" ++ sources_location
                         ++ "` must be a mapping or array of strings"))
  end.

(** One turn of [for relative_path in self.packages]. *)
Definition add_package_source (sources : list (string * string))
    (relative_path : string) : list (string * string) :=
  let (source, package) := os_path_split W relative_path in
  if str_nonempty source
     && negb (dict_contains (normalize_relative_directory W relative_path) sources)
  then dict_set (normalize_relative_directory W source) EmptyString sources
  else sources.

Definition sources : M (list (string * string)) :=
  memoized __sources set_sources
    (explicit <- lift explicit_sources ;;
     pkgs <- packages ;;
     ret (sorted item_leb (fold_left add_package_source pkgs explicit))).

(** [for source, replacement in self.sources.items()] *)
Fixpoint first_source_match (items : list (string * string))
    (relative_path : string) : string :=
  match items with
  | [] => relative_path
  | (source, replacement) :: rest =>
      if startswith relative_path source
      then replace_first source replacement relative_path
      else first_source_match rest relative_path
  end.

Definition get_distribution_path (relative_path : string) : M string :=
  srcs <- sources ;;
  ret (first_source_match srcs relative_path).

(** *** Forced inclusion *)

Fixpoint check_force_include (location : string) (i : nat) (raw : dict)
    : result (list (string * string)) :=
  match raw with
  | [] => inr []
  | (source, relative_path) :: rest =>
      if source =? EmptyString then inl (cannot_be_empty "Source" location i)
      else
        match relative_path with
        | VStr p =>
            if p =? EmptyString then
              inl (ValueError ("Path for source `" ++ source ++ "` in field `"
                               ++ location ++ "` cannot be an empty string"))
            else
              l <~ check_force_include location (S i) rest ;;
              inr ((source, p) :: l)
        | _ => inl (TypeError ("Path for source `" ++ source ++ "` in field `"
                               ++ location ++ "` must be a string"))
        end
  end.

Definition force_include_value : result (list (string * string)) :=
  let (force_include_config, force_include_location) :=
    select_config "force-include" in
  raw <~ expect_table ("Field `" ++ force_include_location ++ "` must be a mapping")
           (dict_get_default "force-include" (VDict []) force_include_config) ;;
  entries <~ check_force_include force_include_location 1 raw ;;
  inr (normalize_inclusion_map W entries (root self)).

Definition force_include : M (list (string * string)) :=
  memoized __force_include set_force_include (lift force_include_value).

Definition get_force_include : M (list (string * string)) :=
  static <- force_include ;;
  overlay <- gets build_force_include ;;
  ret (dict_update static overlay).

(** *** The inclusion decision *)

(** [PathSpec.match_file]: of the patterns that match the file, the last
    one decides; comments and blank lines decide nothing. *)
Definition match_file (spec : PathSpec) (file : string) : bool :=
  fold_left
    (fun matched line =>
       let pattern := GitWildMatchPattern W line in
       match pattern_include W pattern with
       | Some include => if pattern_match W pattern file then include else matched
       | None => matched
       end)
    (lines spec) false.

Definition path_is_included (relative_path : string) : M bool :=
  spec <- include_spec ;;
  ret (match spec with
       | None => true
       | Some sp => match_file sp relative_path
       end).

Definition path_is_excluded (relative_path : string) : M bool :=
  spec <- exclude_spec ;;
  ret (match spec with
       | None => false
       | Some sp => match_file sp relative_path
       end).

Definition path_is_artifact (relative_path : string) : M bool :=
  spec <- artifact_spec ;;
  ret (match spec with
       | None => false
       | Some sp => match_file sp relative_path
       end).

Definition path_is_build_artifact (relative_path : string) : M bool :=
  spec <- gets build_artifact_spec ;;
  ret (match spec with
       | None => false
       | Some sp => match_file sp relative_path
       end).

(** [a or b] and [a and b] on booleans: [b] is run only when needed. *)
Definition or_else (a b : M bool) : M bool :=
  x <- a ;; if x then ret true else b.

Definition and_then (a b : M bool) : M bool :=
  x <- a ;; if x then b else ret false.

Definition not_ (a : M bool) : M bool :=
  x <- a ;; ret (negb x).

Definition include_path (relative_path : string) (is_package : bool) : M bool :=
  or_else (path_is_build_artifact relative_path)
    (or_else (path_is_artifact relative_path)
       (and_then
          (not_ (and_then only_packages (ret (negb is_package))))
          (and_then (path_is_included relative_path)
                    (not_ (path_is_excluded relative_path))))).

(** *** The build-time overlay *)

Definition clear_build_data (s : state) : state :=
  set_build_force_include [] (set_build_artifact_spec None s).

(** What the generator does up to its [yield]. *)
Definition enter_build_data (build_data : BuildData) : M unit :=
  build_artifacts <- lift (match bd_artifacts build_data with
                           | Some l => inr l
                           | None => inl (KeyError "artifacts")
                           end) ;;
  (if nonempty build_artifacts
   then spec <- lift (PathSpec_from_lines W build_artifacts) ;;
        modify (set_build_artifact_spec (Some spec))
   else ret tt) ;;;
  contributed <- lift (match bd_force_include build_data with
                       | Some m => inr m
                       | None => inl (KeyError "force-include")
                       end) ;;
  modify (fun s =>
            set_build_force_include
              (dict_update (build_force_include s)
                           (normalize_inclusion_map W contributed (root self))) s).

(** [with self.set_build_data(build_data): body] *)
Definition set_build_data {A} (build_data : BuildData) (body : M A) : M A :=
  try_finally (enter_build_data build_data ;;; body) clear_build_data.
End BuilderConfig.

(** ** A POSIX world

    A concrete instance of [World], on which the definitions above can be run. *)
Module Posix.

Definition slash : ascii := "/"%char.

(** [s.split('/')] *)
Fixpoint split_on (c : ascii) (s : string) : list string :=
  match s with
  | EmptyString => [EmptyString]
  | String a t =>
      if Ascii.eqb a c then EmptyString :: split_on c t
      else match split_on c t with
           | [] => [String a EmptyString]
           | h :: r => String a h :: r
           end
  end.

(** [s.lstrip('/')] and [s.rstrip('/')] *)
Fixpoint lstrip (c : ascii) (s : string) : string :=
  match s with
  | String a t => if Ascii.eqb a c then lstrip c t else s
  | EmptyString => EmptyString
  end.

Fixpoint rstrip (c : ascii) (s : string) : string :=
  match s with
  | EmptyString => EmptyString
  | String a t =>
      match rstrip c t with
      | EmptyString => if Ascii.eqb a c then EmptyString else String a EmptyString
      | r => String a r
      end
  end.

Definition strip (c : ascii) (s : string) : string := lstrip c (rstrip c s).

(** [posixpath.isabs] *)
Definition isabs (p : string) : bool := prefix "/" p.

(** [s.endswith('/')] *)
Fixpoint ends_with (c : ascii) (s : string) : bool :=
  match s with
  | EmptyString => false
  | String a EmptyString => Ascii.eqb a c
  | String _ t => ends_with c t
  end.

(** [posixpath.join] of two paths. *)
Definition join_path (a b : string) : string :=
  if prefix "/" b then b
  else if (a =? EmptyString) || ends_with slash a then (a ++ b)%string
  else (a ++ "/" ++ b)%string.

(** The part of [p] up to and including its last slash, and the rest. *)
Fixpoint split_last (p : string) : option (string * string) :=
  match p with
  | EmptyString => None
  | String c t =>
      match split_last t with
      | Some (h, tl) => Some (String c h, tl)
      | None => if Ascii.eqb c slash then Some (String c EmptyString, t) else None
      end
  end.

(** [posixpath.split] *)
Definition split (p : string) : string * string :=
  match split_last p with
  | None => (EmptyString, p)
  | Some (head, tail) =>
      if str_nonempty (lstrip slash head) then (rstrip slash head, tail)
      else (head, tail)
  end.

Definition norm_step (initial_slashes : nat) (new_comps : list string)
    (comp : string) : list string :=
  if (comp =? EmptyString) || (comp =? ".") then new_comps
  else if negb (comp =? "..")
          || ((initial_slashes =? 0)%nat && negb (nonempty new_comps))
          || (nonempty new_comps && (last new_comps EmptyString =? ".."))
       then new_comps ++ [comp]
       else removelast new_comps.

(** [posixpath.normpath] *)
Definition normpath (path : string) : string :=
  if path =? EmptyString then "." else
  let initial_slashes :=
    if prefix "/" path then
      if prefix "//" path && negb (prefix "///" path) then 2 else 1
    else 0 in
  let comps := fold_left (norm_step initial_slashes) (split_on slash path) [] in
  let joined := String.concat "/" comps in
  let path' := (match initial_slashes with
                | 0 => EmptyString
                | 1 => "/"
                | _ => "//"
                end ++ joined)%string in
  if path' =? EmptyString then "." else path'.

(** [str.upper] on ASCII letters. *)
Definition upper_char (c : ascii) : ascii :=
  let n := nat_of_ascii c in
  if (97 <=? n)%nat && (n <=? 122)%nat then ascii_of_nat (n - 32) else c.

Fixpoint upper (s : string) : string :=
  match s with
  | EmptyString => EmptyString
  | String c t => String (upper_char c) (upper t)
  end.

(** Modelled from the spec: [normalize_relative_path] of
    hatchling.builders.utils, which brings a path to canonical
    relative-path form (no leading or trailing separator). *)
Definition normalize_relative_path (path : string) : string :=
  strip slash (normpath path).

(** Modelled from the spec: [normalize_relative_directory] of
    hatchling.builders.utils, which brings a source directory to canonical
    trailing-separator form. *)
Definition normalize_relative_directory (path : string) : string :=
  (normalize_relative_path path ++ "/")%string.

(** Modelled from the spec: [normalize_inclusion_map] of
    hatchling.builders.utils, which maps every source path, taken from the
    project root when relative, to its normalized destination path. *)
Definition normalize_inclusion_map (inclusion_map : list (string * string))
    (root : string) : list (string * string) :=
  fold_left
    (fun normalized entry =>
       let source := if isabs (fst entry) then fst entry
                     else join_path root (fst entry) in
       dict_set (normpath source) (normalize_relative_path (snd entry)) normalized)
    inclusion_map [].

(** *** A fragment of the gitignore patterns

    Modelled from the spec: the pattern semantics of its section 4.1, for
    patterns without a double star: negation with a leading [!], comments
    and blank lines, patterns anchored at the root by a slash, patterns with
    a trailing slash matching directories only, and the wildcards [*], [?]
    and [[...]] inside one path component.  A path below a matched
    directory is matched. *)

Inductive token : Type :=
| TStar
| TAny
| TClass (members : list ascii)
| TChar (c : ascii).

(** The characters of a class up to its closing bracket, and what follows. *)
Fixpoint read_class (s : string) : option (list ascii * string) :=
  match s with
  | EmptyString => None
  | String c t =>
      if Ascii.eqb c "]"%char then Some ([], t)
      else match read_class t with
           | Some (members, rest) => Some (c :: members, rest)
           | None => None
           end
  end.

Fixpoint tokens_fuel (fuel : nat) (s : string) : list token :=
  match fuel with
  | 0 => []
  | S fuel' =>
      match s with
      | EmptyString => []
      | String c t =>
          if Ascii.eqb c "*"%char then TStar :: tokens_fuel fuel' t
          else if Ascii.eqb c "?"%char then TAny :: tokens_fuel fuel' t
          else if Ascii.eqb c "["%char then
            match read_class t with
            | Some (members, rest) => TClass members :: tokens_fuel fuel' rest
            | None => TChar c :: tokens_fuel fuel' t
            end
          else TChar c :: tokens_fuel fuel' t
      end
  end.

Definition tokens (s : string) : list token := tokens_fuel (String.length s) s.

(** Does the component [s] match the wildcard expression? *)
Fixpoint glob (p : list token) : string -> bool :=
  match p with
  | [] => fun s => s =? EmptyString
  | TStar :: p' =>
      fix star (s : string) : bool :=
        glob p' s || match s with
                     | EmptyString => false
                     | String _ t => star t
                     end
  | TAny :: p' =>
      fun s => match s with
               | String _ t => glob p' t
               | EmptyString => false
               end
  | TClass members :: p' =>
      fun s => match s with
               | String a t => existsb (Ascii.eqb a) members && glob p' t
               | EmptyString => false
               end
  | TChar c :: p' =>
      fun s => match s with
               | String a t => Ascii.eqb a c && glob p' t
               | EmptyString => false
               end
  end.

(** The segments of an anchored pattern against the leading components of
    the path; [dir_only] asks for something below the matched prefix. *)
Fixpoint match_segments (segments : list (list token)) (comps : list string)
    (dir_only : bool) : bool :=
  match segments, comps with
  | [], [] => negb dir_only
  | [], _ :: _ => true
  | _ :: _, [] => false
  | seg :: segments', comp :: comps' =>
      glob seg comp && match_segments segments' comps' dir_only
  end.

(** A single name against every component of the path. *)
Fixpoint match_anywhere (segment : list token) (comps : list string)
    (dir_only : bool) : bool :=
  match comps with
  | [] => false
  | comp :: comps' =>
      (glob segment comp && (negb dir_only || nonempty comps'))
      || match_anywhere segment comps' dir_only
  end.

Record pattern : Type := mkPattern {
  include : option bool;
  anchored : bool;
  dir_only : bool;
  segments : list (list token)
}.

Definition parse_pattern (line : string) : pattern :=
  if (line =? EmptyString) || prefix "#" line then mkPattern None false false []
  else
    let (positive, body) :=
      if prefix "!" line then (false, drop 1 line) else (true, line) in
    let parts := split_on slash body in
    let names := filter str_nonempty parts in
    mkPattern (Some positive)
              (prefix "/" body || (1 <? List.length names)%nat)
              (ends_with slash body)
              (map tokens names).

(** Modelled from the spec: the factory refuses a negation of nothing, the
    line [!]; the message quotes the line. *)
Definition pattern_error (line : string) : option string :=
  if line =? "!" then Some ("Invalid git pattern: '" ++ line ++ "'")%string
  else None.

Definition pattern_matches (p : pattern) (file : string) : bool :=
  let comps := filter str_nonempty (split_on slash file) in
  if anchored p then match_segments (segments p) comps (dir_only p)
  else match segments p with
       | [segment] => match_anywhere segment comps (dir_only p)
       | _ => false
       end.
End Posix.

(** The world of a POSIX machine with the given environment and ignore file. *)
Definition posix_world (environ : list (string * string))
    (gitignore : option (list string)) : World :=
  {| os_path_sep := "/";
     os_path_split := Posix.split;
     os_path_isabs := Posix.isabs;
     os_path_join := Posix.join_path;
     os_path_normpath := Posix.normpath;
     os_environ := environ;
     upper := Posix.upper;
     gitignore_lines := gitignore;
     gitignore_error := None;
     Pattern := Posix.pattern;
     GitWildMatchPattern := Posix.parse_pattern;
     pattern_error := Posix.pattern_error;
     pattern_include := Posix.include;
     pattern_match := Posix.pattern_matches;
     DEFAULT_BUILD_DIRECTORY := "dist";
     NO_HOOKS := "HATCH_BUILD_NO_HOOKS";
     HOOKS_ENABLE := "HATCH_BUILD_HOOKS_ENABLE";
     HOOK_ENABLE_PREFIX := "HATCH_BUILD_HOOK_ENABLE_";
     normalize_relative_path := Posix.normalize_relative_path;
     normalize_relative_directory := Posix.normalize_relative_directory;
     normalize_inclusion_map := Posix.normalize_inclusion_map |}.

(** ** What the properties compute, as values

    The memoized properties below are given a second reading, free of the
    attributes: the value (or the exception) the first access computes.  The
    invariant [coherent] says that whatever the attributes hold is that value. *)
Section Values.
Variable W : World.
Variable self : BuilderConfig.

Definition spec_of (all_patterns : list string) : option PathSpec :=
  if nonempty all_patterns then Some (from_lines all_patterns) else None.

(** The spec attribute after a pattern list is computed: absent for the empty
    list, compiled otherwise. *)
Definition compile_spec (all_patterns : list string) : result (option PathSpec) :=
  if nonempty all_patterns then
    spec <~ PathSpec_from_lines W all_patterns ;; inr (Some spec)
  else inr None.

Definition include_patterns_value : result (list string) :=
  let (include_config, include_location) := select_config self "include" in
  include_patterns <~
    string_array "Pattern" include_location
      (dict_get_default "include" (VList default_include) include_config) ;;
  pkgs <~ packages_value W self ;;
  inr (include_patterns ++ map (package_pattern W) pkgs).

Definition exclude_patterns_value : result (list string) :=
  let (exclude_config, exclude_location) := select_config self "exclude" in
  exclude_patterns <~
    string_array "Pattern" exclude_location
      (dict_get_default "exclude" (VList default_exclude) exclude_config) ;;
  no_vcs <~ bool_option self "ignore-vcs" false ;;
  vcs_patterns <~ (if no_vcs then inr [] else load_vcs_ignore_patterns W) ;;
  inr (default_global_exclude ++ exclude_patterns ++ vcs_patterns).

Definition artifact_patterns_value : result (list string) :=
  let (artifact_config, artifact_location) := select_config self "artifacts" in
  string_array "Pattern" artifact_location
    (dict_get_default "artifacts" (VList []) artifact_config).

Definition include_spec_value : result (option PathSpec) :=
  all_patterns <~ include_patterns_value ;; compile_spec all_patterns.

Definition exclude_spec_value : result (option PathSpec) :=
  all_patterns <~ exclude_patterns_value ;; compile_spec all_patterns.

Definition artifact_spec_value : result (option PathSpec) :=
  all_patterns <~ artifact_patterns_value ;; compile_spec all_patterns.

Definition dependencies_value : result (list string) :=
  declared <~ declared_dependencies self ;;
  require_runtime <~ bool_option self "require-runtime-dependencies" false ;;
  hooks <~ hook_config_value W self ;;
  flag_and_deps <~ hook_dependencies hooks require_runtime declared ;;
  inr (if fst flag_and_deps
       then oset_extend (snd flag_and_deps)
              (metadata_core_dependencies (builder self))
       else snd flag_and_deps).

Definition sources_value : result (list (string * string)) :=
  explicit <~ explicit_sources W self ;;
  pkgs <~ packages_value W self ;;
  inr (sorted item_leb (fold_left (add_package_source W) pkgs explicit)).

(** A cached value is the computed one. *)
Definition cached_ok {A} (cache : option A) (v : result A) : Prop :=
  forall a, cache = Some a -> v = inr a.

(** A cached pattern list is the computed one and the spec attribute is
    built from it; before the first access the spec attribute is unset. *)
Definition spec_ok (patterns : option (list string)) (spec : option PathSpec)
    (v : result (list string)) : Prop :=
  match patterns with
  | Some all_patterns =>
      v = inr all_patterns /\ compile_spec all_patterns = inr spec
  | None => spec = None
  end.

Record coherent (s : state) : Prop := mkCoherent {
  coh_hook_config : cached_ok (__hook_config s) (hook_config_value W self);
  coh_versions : cached_ok (__versions s) (versions_value self);
  coh_dependencies : cached_ok (__dependencies s) dependencies_value;
  coh_sources : cached_ok (__sources s) sources_value;
  coh_packages : cached_ok (__packages s) (packages_value W self);
  coh_force_include : cached_ok (__force_include s) (force_include_value W self);
  coh_include :
    spec_ok (__include_patterns s) (__include_spec s) include_patterns_value;
  coh_exclude :
    spec_ok (__exclude_patterns s) (__exclude_spec s) exclude_patterns_value;
  coh_artifact :
    spec_ok (__artifact_patterns s) (__artifact_spec s) artifact_patterns_value;
  coh_directory : cached_ok (__directory s) (directory_value W self);
  coh_ignore_vcs : cached_ok (__ignore_vcs s) (bool_option self "ignore-vcs" false);
  coh_only_packages :
    cached_ok (__only_packages s) (bool_option self "only-packages" false);
  coh_reproducible :
    cached_ok (__reproducible s) (bool_option self "reproducible" true);
  coh_dev_mode_dirs : cached_ok (__dev_mode_dirs s) (dev_mode_dirs_value self);
  coh_dev_mode_exact :
    cached_ok (__dev_mode_exact s) (bool_option self "dev-mode-exact" false);
  coh_require_runtime_dependencies :
    cached_ok (__require_runtime_dependencies s)
              (bool_option self "require-runtime-dependencies" false)
}.

(** A spec that may be absent: [default] is the answer of an absent one. *)
Definition matches (default : bool) (spec : option PathSpec) (path : string) : bool :=
  match spec with
  | None => default
  | Some sp => match_file W sp path
  end.

(** The decision of [include_path] for a given overlay spec. *)
Definition include_decision (overlay : option PathSpec) (relative_path : string)
    (is_package : bool) : result bool :=
  if matches false overlay relative_path then inr true else
  artifacts <~ artifact_spec_value ;;
  if matches false artifacts relative_path then inr true else
  only <~ bool_option self "only-packages" false ;;
  if only && negb is_package then inr false else
  included <~ include_spec_value ;;
  if matches true included relative_path then
    excluded <~ exclude_spec_value ;;
    inr (negb (matches false excluded relative_path))
  else inr false.

(** The overlay attributes, which no property touches. *)
Definition overlay (s : state) : option PathSpec * list (string * string) :=
  (build_artifact_spec s, build_force_include s).

(** On coherent attributes [m] yields [v], keeps them coherent and leaves
    the overlay alone. *)
Definition runs {A} (m : M A) (v : result A) : Prop :=
  forall s, coherent s ->
    fst (m s) = v /\ coherent (snd (m s))
    /\ overlay (snd (m s)) = overlay s.
End Values.

(** ** Vocabulary of the statements *)

(** A hook entry as it stands in a configuration table. *)
Definition table (hook : string * dict) : string * value :=
  (fst hook, VDict (snd hook)).

(** The order of strings: strictly below. *)
Definition str_lt (a b : string) : Prop := String.compare a b = Lt.

(** The three pattern options. *)
Inductive pattern_option : Type := OInclude | OExclude | OArtifacts.

Definition option_key (o : pattern_option) : string :=
  match o with
  | OInclude => "include"
  | OExclude => "exclude"
  | OArtifacts => "artifacts"
  end.

Definition pattern_spec (W : World) (self : BuilderConfig) (o : pattern_option)
    : M (option PathSpec) :=
  match o with
  | OInclude => include_spec W self
  | OExclude => exclude_spec W self
  | OArtifacts => artifact_spec W self
  end.

Definition cached_patterns (o : pattern_option) (s : state) : option (list string) :=
  match o with
  | OInclude => __include_patterns s
  | OExclude => __exclude_patterns s
  | OArtifacts => __artifact_patterns s
  end.

(** An option read from the target's table when the key is there, and from
    the global table otherwise: its fully-qualified name and its value. *)
Definition layered_location (self : BuilderConfig) (key : string) : string :=
  if dict_contains key (target_config self)
  then ("tool.hatch.build.targets." ++ plugin_name self ++ "." ++ key)%string
  else ("tool.hatch.build." ++ key)%string.

Definition layered_value (self : BuilderConfig) (key : string) (default : value)
    : value :=
  if dict_contains key (target_config self)
  then dict_get_default key default (target_config self)
  else dict_get_default key default (build_config self).

(** The five boolean options, with their defaults and properties. *)
Definition boolean_options (self : BuilderConfig) : list (string * bool * M bool) :=
  [("ignore-vcs", false, ignore_vcs self);
   ("require-runtime-dependencies", false, require_runtime_dependencies self);
   ("only-packages", false, only_packages self);
   ("reproducible", true, reproducible self);
   ("dev-mode-exact", false, dev_mode_exact self)].

(** The same configuration with another global table. *)
Definition with_build_config (self : BuilderConfig) (global : dict) : BuilderConfig :=
  mkBuilderConfig (builder self) (root self) (plugin_name self) global
                  (target_config self).

(** The directory a package lies in, as [os.path.split] gives it. *)
Definition package_directory (W : World) (relative_path : string) : string :=
  fst (os_path_split W relative_path).

Definition with_package_sources (W : World) (pkgs : list string)
    (explicit : list (string * string)) : list (string * string) :=
  fold_left (add_package_source W) pkgs explicit.




(** The memoized properties of the class. *)
Inductive property : Type :=
| PIncludeSpec | PExcludeSpec | PArtifactSpec | PHookConfig | PVersions
| PDependencies | PSources | PPackages | PForceInclude | PDirectory
| PIgnoreVcs | PRequireRuntimeDependencies | POnlyPackages | PReproducible
| PDevModeDirs | PDevModeExact.

(** What an access leaves behind: the exception, if any, and the attributes. *)
Definition outcome {A} (m : M A) (s : state) : option exn * state :=
  match m s with
  | (inl e, s') => (Some e, s')
  | (inr _, s') => (None, s')
  end.

Definition access (W : World) (self : BuilderConfig) (p : property)
    : state -> option exn * state :=
  match p with
  | PIncludeSpec => outcome (include_spec W self)
  | PExcludeSpec => outcome (exclude_spec W self)
  | PArtifactSpec => outcome (artifact_spec W self)
  | PHookConfig => outcome (hook_config W self)
  | PVersions => outcome (versions self)
  | PDependencies => outcome (dependencies W self)
  | PSources => outcome (sources W self)
  | PPackages => outcome (packages W self)
  | PForceInclude => outcome (force_include W self)
  | PDirectory => outcome (directory W self)
  | PIgnoreVcs => outcome (ignore_vcs self)
  | PRequireRuntimeDependencies => outcome (require_runtime_dependencies self)
  | POnlyPackages => outcome (only_packages self)
  | PReproducible => outcome (reproducible self)
  | PDevModeDirs => outcome (dev_mode_dirs self)
  | PDevModeExact => outcome (dev_mode_exact self)
  end.

(** The backing attribute that guards the computation of a property. *)
Definition unset (p : property) (s : state) : Prop :=
  match p with
  | PIncludeSpec => __include_patterns s = None
  | PExcludeSpec => __exclude_patterns s = None
  | PArtifactSpec => __artifact_patterns s = None
  | PHookConfig => __hook_config s = None
  | PVersions => __versions s = None
  | PDependencies => __dependencies s = None
  | PSources => __sources s = None
  | PPackages => __packages s = None
  | PForceInclude => __force_include s = None
  | PDirectory => __directory s = None
  | PIgnoreVcs => __ignore_vcs s = None
  | PRequireRuntimeDependencies => __require_runtime_dependencies s = None
  | POnlyPackages => __only_packages s = None
  | PReproducible => __reproducible s = None
  | PDevModeDirs => __dev_mode_dirs s = None
  | PDevModeExact => __dev_mode_exact s = None
  end.

(** A computation whose exceptions leave the attributes as they were. *)
Definition fails_clean {A} (m : M A) : Prop :=
  forall s e s', m s = (inl e, s') -> s' = s.

(** ** Reading a property, with its value *)

Definition property_type (p : property) : Type :=
  match p with
  | PIncludeSpec | PExcludeSpec | PArtifactSpec => option PathSpec
  | PHookConfig => list (string * dict)
  | PVersions | PDependencies | PPackages | PDevModeDirs => list string
  | PSources | PForceInclude => list (string * string)
  | PDirectory => string
  | PIgnoreVcs | PRequireRuntimeDependencies | POnlyPackages | PReproducible
  | PDevModeExact => bool
  end.

Definition read (W : World) (self : BuilderConfig) (p : property)
    : M (property_type p) :=
  match p with
  | PIncludeSpec => include_spec W self
  | PExcludeSpec => exclude_spec W self
  | PArtifactSpec => artifact_spec W self
  | PHookConfig => hook_config W self
  | PVersions => versions self
  | PDependencies => dependencies W self
  | PSources => sources W self
  | PPackages => packages W self
  | PForceInclude => force_include W self
  | PDirectory => directory W self
  | PIgnoreVcs => ignore_vcs self
  | PRequireRuntimeDependencies => require_runtime_dependencies self
  | POnlyPackages => only_packages self
  | PReproducible => reproducible self
  | PDevModeDirs => dev_mode_dirs self
  | PDevModeExact => dev_mode_exact self
  end.

(** A key that neither table holds. *)
Definition unconfigured (self : BuilderConfig) (key : string) : Prop :=
  dict_contains key (target_config self) = false
  /\ dict_contains key (build_config self) = false.

(** The exclusions every target starts from, and the lines of the ignore file. *)
Definition baseline_excludes (W : World) (no_vcs : bool) : list string :=
  [".git"; "__pycache__"; "*.py[cod]"]
  ++ (if no_vcs then []
      else match gitignore_lines W with
           | None => []
           | Some file_lines => file_lines
           end).

(** A dependency listed by the options of one of the hooks. *)
Definition hook_lists (hooks : list (string * dict)) (d : string) : Prop :=
  exists name config l,
    In (name, config) hooks
    /\ dict_get_default "dependencies" (VList []) config = VList l
    /\ In (VStr d) l.

(** One of the hooks asks for the runtime dependencies. *)
Definition hook_requires_runtime (hooks : list (string * dict)) : Prop :=
  exists name config,
    In (name, config) hooks
    /\ dict_get_default "require-runtime-dependencies" (VBool false) config
       = VBool true.

(** The attributes left by reading the properties of [ps] one after the
    other. *)
Definition after_reads (W : World) (self : BuilderConfig) (ps : list property)
    (s : state) : state :=
  fold_left (fun s0 p => snd (read W self p s0)) ps s.

(** An entry of a mapping of paths as it stands in a configuration table. *)
Definition path_entry (entry : string * string) : string * value :=
  (fst entry, VStr (snd entry)).



(** * scripts/validate_history.py

    The script reads docs/history.md line by line.  The lines of the file,
    [str.strip], [str.lower] and [re.search] come from outside; [re.search]
    raises [re.error] on a pattern that is no regular expression, and the
    package name is put into the pattern as it is written. *)

(** [s.partition(' ')[2]]: what follows the first space, nothing without one. *)
Fixpoint after_first_space (s : string) : string :=
  match s with
  | EmptyString => EmptyString
  | String c t => if Ascii.eqb c " "%char then t else after_first_space t
  end.

(** [s.strip('*_')] *)
Definition is_emphasis (c : ascii) : bool :=
  Ascii.eqb c "*"%char || Ascii.eqb c "_"%char.

Fixpoint lstrip_emphasis (s : string) : string :=
  match s with
  | String c t => if is_emphasis c then lstrip_emphasis t else s
  | EmptyString => EmptyString
  end.

Fixpoint rstrip_emphasis (s : string) : string :=
  match s with
  | EmptyString => EmptyString
  | String c t =>
      match rstrip_emphasis t with
      | EmptyString => if is_emphasis c then EmptyString else String c EmptyString
      | r => String c r
      end
  end.

Definition strip_emphasis (s : string) : string :=
  lstrip_emphasis (rstrip_emphasis s).

(** [HEADER_PATTERN.format(package=package)] *)
Definition header_pattern (package : string) : string :=
  ("^\[([a-z0-9.]+)\]\(https://github\.com/ofek/hatch/releases/tag/("
   ++ package ++ "-v\1)\)"
   ++ " - [0-9]{4}-[0-9]{2}-[0-9]{2} ### \{: #\2 \}$")%string.

(** What [main] ends with: a normal return, [sys.exit(1)] after printing
    the header, or the [re.error] that [re.search] raised on the pattern in
    force, which nothing catches. *)
Inductive verdict : Type :=
| Valid
| InvalidHeader (header : string)
| PatternError (current_pattern : string).

Section ValidateHistory.
Variable str_strip : string -> string.
Variable str_lower : string -> string.

(** [re.search(pattern, string)] as a truth value; [None] when it raises. *)
Variable re_search : string -> string -> option bool.

(** The pattern in force after a line. *)
Definition next_pattern (current_pattern : string) (raw_line : string) : string :=
  let line := str_strip raw_line in
  if line =? EmptyString then current_pattern
  else if prefix "## " line then
    header_pattern (str_lower (strip_emphasis (after_first_space line)))
  else current_pattern.

(** How the script ends at a line, [Valid] when the loop goes on. *)
Definition line_verdict (current_pattern : string) (raw_line : string)
    : verdict :=
  let line := str_strip raw_line in
  if line =? EmptyString then Valid
  else if prefix "## " line then Valid
  else if prefix "### " line then
    let header := after_first_space line in
    if strip_emphasis header =? "Unreleased" then Valid
    else match re_search current_pattern header with
         | None => PatternError current_pattern
         | Some found => if negb found then InvalidHeader header else Valid
         end
  else Valid.

(** The pattern in force after a run of lines. *)
Definition pattern_after (file_lines : list string) (current_pattern : string)
    : string :=
  fold_left next_pattern file_lines current_pattern.

(** The loop [for line in f] of [main]. *)
Fixpoint check_lines (file_lines : list string) (current_pattern : string)
    : verdict :=
  match file_lines with
  | [] => Valid
  | raw_line :: rest =>
      let line := str_strip raw_line in
      if line =? EmptyString then check_lines rest current_pattern
      else if prefix "## " line then
        let package := strip_emphasis (after_first_space line) in
        check_lines rest (header_pattern (str_lower package))
      else if prefix "### " line then
        let header := after_first_space line in
        if strip_emphasis header =? "Unreleased" then
          check_lines rest current_pattern
        else match re_search current_pattern header with
             | None => PatternError current_pattern
             | Some found =>
                 if negb found then InvalidHeader header
                 else check_lines rest current_pattern
             end
      else check_lines rest current_pattern
  end.

Definition main (file_lines : list string) : verdict :=
  check_lines file_lines EmptyString.
End ValidateHistory.

(** ** Example projects *)

(** The machine of the examples: no environment switch, no ignore file. *)
Definition ex_world : World := posix_world [] None.

(** A builder with two versions, one of them the default. *)
Definition ex_builder : Builder :=
  mkBuilder ["standard"] ["standard"; "editable"] ["requests"].

(** A project that ships a generated file from an excluded directory. *)
Definition ex_artifacts : BuilderConfig :=
  mkBuilderConfig ex_builder "/proj" "wheel"
    [("include", VList [VStr "*.py"; VStr "*.txt"; VStr "!keep.txt"]);
     ("exclude", VList [VStr "secret"]);
     ("artifacts", VList [VStr "secret/gen.py"])]
    [("only-packages", VBool false)].

(** A hook that contributes a generated file and a forced inclusion. *)
Definition ex_build_data : BuildData :=
  mkBuildData (Some ["build/gen.bin"]) (Some [("extra.txt", "pkg/extra.txt")]).

(** Hooks declared at both levels, one of them switched on from the environment. *)
Definition ex_hook_world : World :=
  posix_world [("HATCH_BUILD_HOOK_ENABLE_CUSTOM", "1")] None.

Definition ex_target_hooks : list (string * dict) :=
  [("custom", [("enable-by-default", VBool false)]); ("vcs", [])].

Definition ex_global_hooks : list (string * dict) :=
  [("vcs", [("version-file", VStr "v.py")]);
   ("cython", [("enable-by-default", VBool false)]);
   ("mypyc", [("dependencies", VList [VStr "mypy"])])].

Definition ex_hooks : BuilderConfig :=
  mkBuilderConfig ex_builder "/proj" "wheel"
    [("hooks", VDict (map table ex_global_hooks))]
    [("hooks", VDict (map table ex_target_hooks))].

(** A target asking for versions its builder does not know. *)
Definition ex_versions : BuilderConfig :=
  mkBuilderConfig ex_builder "/proj" "wheel" []
    [("versions", VList [VStr "zeta"; VStr "standard"; VStr "alpha"; VStr "zeta"])].

(** Pattern lists with one bad entry each. *)
Definition ex_bad_patterns : BuilderConfig :=
  mkBuilderConfig ex_builder "/proj" "wheel"
    [("exclude", VList [VStr EmptyString]); ("artifacts", VStr "*.so")]
    [("include", VList [VStr "src"; VInt 5; VStr EmptyString])].

(** A global table that sets what the target's table leaves out. *)
Definition ex_layers : BuilderConfig :=
  mkBuilderConfig ex_builder "/proj" "wheel"
    [("versions", VList [VStr "editable"]);
     ("dependencies", VList [VStr "b"]);
     ("reproducible", VBool false)]
    [("dependencies", VList [VStr "a"]);
     ("ignore-vcs", VBool true)].

(** A package renamed by an explicit source next to a package without one. *)
Definition ex_sources : BuilderConfig :=
  mkBuilderConfig ex_builder "/proj" "wheel"
    [("sources", VDict [("src/pkg", VStr "renamed")]);
     ("packages", VList [VStr "src/pkg"; VStr "lib/other"])]
    [].

(** The explicit replacement of a directory is lost to the package in it. *)
Definition ex_overwritten : BuilderConfig :=
  mkBuilderConfig ex_builder "/proj" "wheel"
    [("sources", VDict [("src", VStr "lib")]);
     ("packages", VList [VStr "src/pkg"])]
    [].

(** A package inside another package. *)
Definition ex_nested_packages : BuilderConfig :=
  mkBuilderConfig ex_builder "/proj" "wheel"
    [("packages", VList [VStr "a/b/c"; VStr "a/b"])] [].


(** A project that declares a package and no include pattern. *)
Definition ex_packages : BuilderConfig :=
  mkBuilderConfig ex_builder "/proj" "wheel"
    [("packages", VList [VStr "src/pkg"])] [].

(** A hook whose [dependencies] option is not a list. *)
Definition ex_bad_hook : BuilderConfig :=
  mkBuilderConfig ex_builder "/proj" "wheel"
    [("hooks", VDict [("custom", VDict [("dependencies", VInt 5)])])] [].

(** A project that configures nothing about file selection, with an ignore file. *)
Definition ex_ignoring_world : World := posix_world [] (Some ["build"; "*.log"]).

Definition ex_plain : BuilderConfig :=
  mkBuilderConfig ex_builder "/proj" "wheel" [("directory", VStr "out")] [].

(** Dependencies declared at both levels and by a hook that also asks for
    the runtime dependencies of the project. *)
Definition ex_dependencies : BuilderConfig :=
  mkBuilderConfig ex_builder "/proj" "wheel"
    [("dependencies", VList [VStr "b"; VStr "a"]);
     ("hooks",
      VDict [("mypyc",
              VDict [("dependencies", VList [VStr "mypy"; VStr "a"]);
                     ("require-runtime-dependencies", VBool true)])])]
    [("dependencies", VList [VStr "a"])].

(** A target that names its versions, one of them twice. *)
Definition ex_known_versions : BuilderConfig :=
  mkBuilderConfig ex_builder "/proj" "wheel" []
    [("versions", VList [VStr "editable"; VStr "standard"; VStr "editable"])].

(** Files shipped from outside the tree. *)
Definition ex_force_include : BuilderConfig :=
  mkBuilderConfig ex_builder "/proj" "wheel"
    [("force-include",
      VDict [("../shared/data.json", VStr "pkg/data.json");
             ("extra", VStr "pkg//extra/")])]
    [].

(** Hooks switched off from the environment, and hooks that are not tables. *)
Definition ex_no_hooks_world : World :=
  posix_world [("HATCH_BUILD_NO_HOOKS", "true")] None.

Definition ex_bad_table : BuilderConfig :=
  mkBuilderConfig ex_builder "/proj" "wheel"
    [("hooks", VDict [("vcs", VInt 1)])]
    [("hooks", VDict [("custom", VDict [("enable-by-default", VBool false)]);
                      ("cython", VStr "yes")])].

Definition ex_bad_global_table : BuilderConfig :=
  mkBuilderConfig ex_builder "/proj" "wheel"
    [("hooks", VDict [("vcs", VInt 1)])]
    [("hooks", VDict [("vcs", VDict [])])].

(** The history checker with a matcher that knows the empty pattern and
    literal patterns only, and refuses the pattern of the package
    [hatch (beta], whose parenthesis is never closed; a file with no package
    line. *)
Definition ex_search (current_pattern header : string) : option bool :=
  if current_pattern =? header_pattern "hatch (beta" then None
  else Some ((current_pattern =? EmptyString) || (current_pattern =? header)).

Definition ex_history : list string :=
  ["# History"; EmptyString; "### Notes"; "### **Unreleased**"; "text"].

(** Sources given as an array, next to a package in another directory. *)
Definition ex_array_sources : BuilderConfig :=
  mkBuilderConfig ex_builder "/proj" "wheel"
    [("sources", VList [VStr "src"; VStr "vendor/py"]);
     ("packages", VList [VStr "lib/other"])]
    [].

(** An include pattern that the pattern factory refuses, next to a package. *)
Definition ex_refused_pattern : BuilderConfig :=
  mkBuilderConfig ex_builder "/proj" "wheel"
    [("include", VList [VStr "!"]); ("packages", VList [VStr "src/pkg"])] [].

(** * Properties *)

(** ** Running memoized properties on coherent attributes *)

Section Runs.
Variable W : World.
Variable self : BuilderConfig.

Local Notation "'runs'" := (runs W self).

Lemma runs_lift {A} (r : result A) : runs (lift r) r.
Proof. intros s Hs; cbn; auto. Qed.

Lemma runs_ret {A} (a : A) : runs (ret a) (inr a).
Proof. intros s Hs; cbn; auto. Qed.

Lemma runs_bind {A B} (m : M A) (f : A -> M B) v g :
  runs m v ->
  (forall a, v = inr a -> runs (f a) (g a)) ->
  runs (bind m f) (rbind v g).
Proof.
  intros Hm Hf s Hs. unfold bind.
  destruct (Hm s Hs) as (Hv & Hc & Ho).
  destruct (m s) as [[e | a] s1]; cbn in *; subst v; cbn.
  - auto.
  - destruct (Hf a eq_refl s1 Hc) as (Hv' & Hc' & Ho').
    rewrite Ho'. auto.
Qed.

Lemma runs_memoized {A} (get : state -> option A) put (compute : M A) v :
  (forall s, coherent W self s -> cached_ok (get s) v) ->
  (forall s a, coherent W self s -> v = inr a ->
     coherent W self (put (Some a) s) /\ overlay (put (Some a) s) = overlay s) ->
  runs compute v ->
  runs (memoized get put compute) v.
Proof.
  intros Hget Hput Hc s Hs. unfold memoized.
  destruct (get s) as [a |] eqn:Eg.
  - cbn. rewrite (Hget s Hs a Eg). auto.
  - destruct (Hc s Hs) as (Hv & Hc1 & Ho).
    destruct (compute s) as [[e | a] s1] eqn:Ec; cbn in *.
    + auto.
    + split; [assumption |].
      destruct (Hput s1 a Hc1 (eq_sym Hv)) as (Hc2 & Ho2).
      rewrite Ho2. auto.
Qed.

Lemma runs_memoized_spec get_patterns put_patterns get_spec put_spec compute v :
  (forall s, coherent W self s -> spec_ok W (get_patterns s) (get_spec s) v) ->
  (forall s, get_patterns (snd (compute s)) = get_patterns s) ->
  (forall s all_patterns spec, coherent W self s -> get_patterns s = None ->
     v = inr all_patterns ->
     compile_spec W all_patterns = inr spec ->
     let s1 := match spec with
               | Some compiled => put_spec (Some compiled) s
               | None => s
               end in
     let s2 := put_patterns (Some all_patterns) s1 in
     get_spec s2 = spec /\ coherent W self s2 /\ overlay s2 = overlay s) ->
  runs compute v ->
  runs (memoized_spec (PathSpec_from_lines W)
          get_patterns put_patterns get_spec put_spec compute)
       (rbind v (compile_spec W)).
Proof.
  intros Hget Hpres Hput Hc s Hs. unfold memoized_spec.
  pose proof (Hget s Hs) as Hok. unfold spec_ok in Hok.
  destruct (get_patterns s) as [cached |] eqn:Eg.
  - destruct Hok as (-> & Hcs). cbn. rewrite Hcs. auto.
  - destruct (Hc s Hs) as (Hv & Hc1 & Ho).
    pose proof (Hpres s) as Hp.
    destruct (compute s) as [[e | all_patterns] s1] eqn:Ec; cbn in *.
    + subst v. cbn. auto.
    + subst v. cbn.
      pose proof (fun spec => Hput s1 all_patterns spec Hc1 (eq_trans Hp Eg) eq_refl)
        as Hput'.
      unfold compile_spec in *.
      destruct (nonempty all_patterns).
      * destruct (PathSpec_from_lines W all_patterns) as [e | compiled]; cbn in *.
        -- auto.
        -- destruct (Hput' (Some compiled) eq_refl) as (Hspec & Hc2 & Ho2).
           rewrite Hspec, Ho2. auto.
      * destruct (Hput' None eq_refl) as (Hspec & Hc2 & Ho2).
        cbn in *. rewrite Hspec, Ho2. auto.
Qed.

(** Case analysis on what an innermost [match] of the goal inspects. *)
Ltac case_match :=
  match goal with
  | |- context [match ?x with _ => _ end] =>
      lazymatch x with
      | context [match _ with _ => _ end] => fail
      | _ => destruct x eqn:?
      end
  end.

(** Storing a computed value keeps the attributes coherent. *)
Ltac coherent_after_set Hs Hv :=
  split; [| reflexivity];
  destruct Hs; constructor; cbn; try assumption;
  intros ? [= <-]; exact Hv.

Ltac runs_leaf proj :=
  apply runs_memoized;
  [ intros s Hs; exact (proj _ _ _ Hs)
  | intros s a Hs Hv; coherent_after_set Hs Hv
  | apply runs_lift ].

Lemma runs_packages : runs (packages W self) (packages_value W self).
Proof. runs_leaf coh_packages. Qed.

Lemma runs_ignore_vcs : runs (ignore_vcs self) (bool_option self "ignore-vcs" false).
Proof. runs_leaf coh_ignore_vcs. Qed.

Lemma runs_only_packages :
  runs (only_packages self) (bool_option self "only-packages" false).
Proof. runs_leaf coh_only_packages. Qed.

Lemma runs_reproducible :
  runs (reproducible self) (bool_option self "reproducible" true).
Proof. runs_leaf coh_reproducible. Qed.

Lemma runs_dev_mode_exact :
  runs (dev_mode_exact self) (bool_option self "dev-mode-exact" false).
Proof. runs_leaf coh_dev_mode_exact. Qed.

Lemma runs_require_runtime_dependencies :
  runs (require_runtime_dependencies self)
       (bool_option self "require-runtime-dependencies" false).
Proof. runs_leaf coh_require_runtime_dependencies. Qed.

Lemma runs_directory : runs (directory W self) (directory_value W self).
Proof. runs_leaf coh_directory. Qed.

Lemma runs_dev_mode_dirs : runs (dev_mode_dirs self) (dev_mode_dirs_value self).
Proof. runs_leaf coh_dev_mode_dirs. Qed.

Lemma runs_hook_config : runs (hook_config W self) (hook_config_value W self).
Proof. runs_leaf coh_hook_config. Qed.

Lemma runs_versions : runs (versions self) (versions_value self).
Proof. runs_leaf coh_versions. Qed.

Lemma runs_force_include : runs (force_include W self) (force_include_value W self).
Proof. runs_leaf coh_force_include. Qed.

Lemma runs_dependencies : runs (dependencies W self) (dependencies_value W self).
Proof.
  apply runs_memoized.
  - intros s Hs; exact (coh_dependencies Hs).
  - intros s a Hs Hv; coherent_after_set Hs Hv.
  - unfold dependencies_value.
    apply runs_bind; [apply runs_lift | intros declared _].
    apply runs_bind; [apply runs_require_runtime_dependencies | intros flag _].
    apply runs_bind; [apply runs_hook_config | intros hooks _].
    apply runs_bind; [apply runs_lift | intros fd _].
    apply runs_ret.
Qed.

Lemma runs_sources : runs (sources W self) (sources_value W self).
Proof.
  apply runs_memoized.
  - intros s Hs; exact (coh_sources Hs).
  - intros s a Hs Hv; coherent_after_set Hs Hv.
  - unfold sources_value.
    apply runs_bind; [apply runs_lift | intros explicit _].
    apply runs_bind; [apply runs_packages | intros pkgs _].
    apply runs_ret.
Qed.

(** Storing a computed pattern list and its spec keeps the attributes coherent. *)
Ltac coherent_after_spec Hs Eg Hv Hcs proj :=
  let Hok := fresh "Hok" in
  pose proof (proj _ _ _ Hs) as Hok; rewrite Eg in Hok; cbn in Hok;
  match type of Hcs with
  | _ = inr ?spec => destruct spec
  end;
  cbv zeta;
  (split; [cbn; try assumption; reflexivity |]);
  (split; [| reflexivity]);
  destruct Hs; constructor; cbn; try assumption;
  (split; [exact Hv | try rewrite Hok; exact Hcs]).

Lemma runs_include_spec : runs (include_spec W self) (include_spec_value W self).
Proof.
  apply runs_memoized_spec.
  - intros s Hs; exact (coh_include Hs).
  - intros s. destruct (select_config self "include") as [cfg loc].
    unfold bind, lift. destruct (string_array _ _ _) as [e | pats]; [reflexivity |].
    unfold packages, memoized, lift.
    repeat case_match; reflexivity.
  - intros s all_patterns spec Hs Eg Hv Hcs.
    coherent_after_spec Hs Eg Hv Hcs coh_include.
  - unfold include_patterns_value.
    destruct (select_config self "include") as [cfg loc].
    apply runs_bind; [apply runs_lift | intros pats _].
    apply runs_bind; [apply runs_packages | intros pkgs _].
    apply runs_ret.
Qed.

Lemma runs_exclude_spec : runs (exclude_spec W self) (exclude_spec_value W self).
Proof.
  apply runs_memoized_spec.
  - intros s Hs; exact (coh_exclude Hs).
  - intros s. destruct (select_config self "exclude") as [cfg loc].
    unfold bind, lift. destruct (string_array _ _ _) as [e | pats]; [reflexivity |].
    unfold ignore_vcs, memoized, lift.
    repeat case_match; reflexivity.
  - intros s all_patterns spec Hs Eg Hv Hcs.
    coherent_after_spec Hs Eg Hv Hcs coh_exclude.
  - unfold exclude_patterns_value.
    destruct (select_config self "exclude") as [cfg loc].
    apply runs_bind; [apply runs_lift | intros pats _].
    apply runs_bind; [apply runs_ignore_vcs | intros no_vcs _].
    apply runs_bind; [apply runs_lift | intros vcs_patterns _].
    apply runs_ret.
Qed.

Lemma runs_artifact_spec : runs (artifact_spec W self) (artifact_spec_value W self).
Proof.
  apply runs_memoized_spec.
  - intros s Hs; exact (coh_artifact Hs).
  - intros s. destruct (select_config self "artifacts") as [cfg loc]. reflexivity.
  - intros s all_patterns spec Hs Eg Hv Hcs.
    coherent_after_spec Hs Eg Hv Hcs coh_artifact.
  - unfold artifact_patterns_value.
    destruct (select_config self "artifacts") as [cfg loc].
    apply runs_lift.
Qed.

Lemma runs_eq {A} (m : M A) v v' : runs m v -> v = v' -> runs m v'.
Proof. intros H <-; exact H. Qed.

Lemma runs_path_is_artifact p :
  runs (path_is_artifact W self p)
       (rbind (artifact_spec_value W self) (fun spec => inr (matches W false spec p))).
Proof.
  apply runs_bind; [apply runs_artifact_spec | intros; apply runs_ret].
Qed.

Lemma runs_path_is_included p :
  runs (path_is_included W self p)
       (rbind (include_spec_value W self) (fun spec => inr (matches W true spec p))).
Proof.
  apply runs_bind; [apply runs_include_spec | intros; apply runs_ret].
Qed.

Lemma runs_path_is_excluded p :
  runs (path_is_excluded W self p)
       (rbind (exclude_spec_value W self) (fun spec => inr (matches W false spec p))).
Proof.
  apply runs_bind; [apply runs_exclude_spec | intros; apply runs_ret].
Qed.

Lemma runs_or_else a b va vb :
  runs a va -> runs b vb ->
  runs (or_else a b) (rbind va (fun x : bool => if x then inr true else vb)).
Proof.
  intros Ha Hb. apply runs_bind; [assumption |].
  intros [] _; [apply runs_ret | assumption].
Qed.

Lemma runs_and_then a b va vb :
  runs a va -> runs b vb ->
  runs (and_then a b) (rbind va (fun x : bool => if x then vb else inr false)).
Proof.
  intros Ha Hb. apply runs_bind; [assumption |].
  intros [] _; [assumption | apply runs_ret].
Qed.

Lemma runs_not a va :
  runs a va -> runs (not_ a) (rbind va (fun x => inr (negb x))).
Proof.
  intros Ha. apply runs_bind; [assumption | intros; apply runs_ret].
Qed.

(** What [include_path] does once the overlay spec has not matched. *)
Lemma runs_static_decision p is_package :
  runs (or_else (path_is_artifact W self p)
          (and_then
             (not_ (and_then (only_packages self) (ret (negb is_package))))
             (and_then (path_is_included W self p)
                       (not_ (path_is_excluded W self p)))))
       (include_decision W self None p is_package).
Proof.
  eapply runs_eq.
  - apply runs_or_else; [apply runs_path_is_artifact |].
    apply runs_and_then.
    + apply runs_not, runs_and_then; [apply runs_only_packages | apply runs_ret].
    + apply runs_and_then; [apply runs_path_is_included |].
      apply runs_not, runs_path_is_excluded.
  - unfold include_decision. cbn.
    destruct (artifact_spec_value W self) as [e | a]; cbn; [reflexivity |].
    destruct (matches W false a p); [reflexivity |].
    destruct (bool_option self "only-packages" false) as [e | only]; cbn;
      [reflexivity |].
    destruct only, is_package; cbn; try reflexivity;
      destruct (include_spec_value W self) as [e | i]; cbn; try reflexivity;
      destruct (matches W true i p); try reflexivity;
      destruct (exclude_spec_value W self) as [e | x]; reflexivity.
Qed.

(** The overlay spec is asked first, and nothing else when it matches. *)
Lemma include_path_overlay_first p is_package s :
  include_path W self p is_package s
  = if matches W false (build_artifact_spec s) p then (inr true, s)
    else or_else (path_is_artifact W self p)
           (and_then
              (not_ (and_then (only_packages self) (ret (negb is_package))))
              (and_then (path_is_included W self p)
                        (not_ (path_is_excluded W self p)))) s.
Proof.
  unfold include_path. unfold or_else at 1.
  unfold path_is_build_artifact. unfold bind at 1 2. unfold gets, matches.
  cbn beta iota.
  destruct (build_artifact_spec s) as [sp |]; cbn; [| reflexivity].
  destruct (match_file W sp p); reflexivity.
Qed.

Lemma include_path_runs p is_package s :
  coherent W self s ->
  fst (include_path W self p is_package s)
    = include_decision W self (build_artifact_spec s) p is_package
  /\ coherent W self (snd (include_path W self p is_package s))
  /\ overlay (snd (include_path W self p is_package s)) = overlay s.
Proof.
  intros Hs.
  pose proof (@runs_static_decision p is_package s Hs) as Hstatic.
  rewrite include_path_overlay_first.
  unfold include_decision in *.
  destruct (matches W false (build_artifact_spec s) p).
  - cbn. auto.
  - exact Hstatic.
Qed.

Lemma get_force_include_runs s :
  coherent W self s ->
  fst (get_force_include W self s)
    = rbind (force_include_value W self)
            (fun static => inr (dict_update static (build_force_include s)))
  /\ coherent W self (snd (get_force_include W self s))
  /\ overlay (snd (get_force_include W self s)) = overlay s.
Proof.
  intros Hs. unfold get_force_include, bind, gets, ret.
  destruct (@runs_force_include s Hs) as (Hv & Hc & Ho).
  destruct (force_include W self s) as [[e | static] s1]; cbn in *;
    rewrite <- Hv; cbn.
  - auto.
  - unfold overlay in *. injection Ho as Ha Hf. rewrite Hf, Ha. auto.
Qed.

Lemma get_distribution_path_runs p :
  runs (get_distribution_path W self p)
       (rbind (sources_value W self)
              (fun srcs => inr (first_source_match srcs p))).
Proof.
  apply runs_bind; [apply runs_sources | intros; apply runs_ret].
Qed.

Lemma init_coherent : coherent W self init_state.
Proof. constructor; cbn; try reflexivity; intros ? [=]. Qed.
End Runs.

(** ** The inclusion decision *)

(** C1. For every path and every [is_package], on coherent attributes
    [include_path] asks the overlay (build-time) artifact spec first, then the
    static artifact spec, then [only_packages], then the include spec and last
    the exclude spec, and stops at the first that decides:
    - a match of the overlay spec gives [True] and nothing else is evaluated
      (the attributes are untouched);
    - otherwise an exception of [artifact_spec] is the exception of the call,
      and a match of the static artifact spec gives [True] whatever the other
      options hold;
    - otherwise [only_packages] with [is_package] false gives [False]
      whatever the include and exclude options hold;
    - otherwise a path the include spec does not match gives [False] whatever
      the exclude option holds;
    - when the four properties all return, the answer is
      [overlay or artifact or (not (only_packages and not is_package) and
      included and not excluded)], where an absent include spec matches every
      path and an absent exclude or artifact spec matches none; so a path
      matched by the exclude spec and by either artifact spec is included. *)
Theorem include_path_precedence :
  forall (W : World) (self : BuilderConfig) (s : state)
         (p : string) (is_package : bool),
    coherent W self s ->
    let by_overlay := matches W false (build_artifact_spec s) p in
    (by_overlay = true -> include_path W self p is_package s = (inr true, s))
    /\ (forall e, by_overlay = false -> fst (artifact_spec W self s) = inl e ->
          fst (include_path W self p is_package s) = inl e)
    /\ (forall a, by_overlay = false -> fst (artifact_spec W self s) = inr a ->
          matches W false a p = true ->
          fst (include_path W self p is_package s) = inr true)
    /\ (forall a, by_overlay = false -> fst (artifact_spec W self s) = inr a ->
          matches W false a p = false ->
          fst (only_packages self s) = inr true -> is_package = false ->
          fst (include_path W self p is_package s) = inr false)
    /\ (forall a only i, by_overlay = false ->
          fst (artifact_spec W self s) = inr a -> matches W false a p = false ->
          fst (only_packages self s) = inr only ->
          only && negb is_package = false ->
          fst (include_spec W self s) = inr i -> matches W true i p = false ->
          fst (include_path W self p is_package s) = inr false)
    /\ (forall a only i x,
          fst (artifact_spec W self s) = inr a ->
          fst (only_packages self s) = inr only ->
          fst (include_spec W self s) = inr i ->
          fst (exclude_spec W self s) = inr x ->
          fst (include_path W self p is_package s)
          = inr (by_overlay || matches W false a p
                 || (negb (only && negb is_package)
                     && (matches W true i p && negb (matches W false x p))))
          /\ ((by_overlay = true \/ matches W false a p = true) ->
              matches W false x p = true ->
              fst (include_path W self p is_package s) = inr true))
    /\ (matches W true None p = true /\ matches W false None p = false).
Proof.
  intros W self s p is_package Hs by_overlay.
  destruct (include_path_runs p is_package Hs) as (Hrun & _ & _).
  destruct (@runs_artifact_spec W self s Hs) as (Ha & _ & _).
  destruct (@runs_only_packages W self s Hs) as (Ho & _ & _).
  destruct (@runs_include_spec W self s Hs) as (Hi & _ & _).
  destruct (@runs_exclude_spec W self s Hs) as (Hx & _ & _).
  rewrite Hrun, Ha, Ho, Hi, Hx. clear Hrun Ha Ho Hi Hx.
  unfold include_decision. fold by_overlay.
  split; [| split; [| split; [| split; [| split; [| split]]]]].
  - intros Hov. rewrite include_path_overlay_first. fold by_overlay.
    rewrite Hov. reflexivity.
  - intros e -> ->. reflexivity.
  - intros a -> -> Hm. cbn. rewrite Hm. reflexivity.
  - intros a -> -> Hm -> ->. cbn. rewrite Hm. reflexivity.
  - intros a only i -> -> Hm -> Hon -> Hi. cbn. rewrite Hm, Hon. cbn.
    rewrite Hi. reflexivity.
  - intros a only i x Ha Ho Hi Hx. rewrite Ha, Ho, Hi, Hx. cbn. split.
    + destruct by_overlay, (matches W false a p), only, is_package,
        (matches W true i p), (matches W false x p); reflexivity.
    + intros Hart Hex.
      destruct Hart as [-> | ->]; [reflexivity |].
      destruct by_overlay; reflexivity.
  - split; reflexivity.
Qed.

Lemma include_path_precedence_witness :
  coherent ex_world ex_artifacts init_state
  /\ fst (include_path ex_world ex_artifacts "secret/gen.py" true init_state) = inr true
  /\ fst (include_path ex_world ex_artifacts "secret/key.py" true init_state) = inr false
  /\ fst (include_path ex_world ex_artifacts "notes.txt" true init_state) = inr true
  /\ fst (include_path ex_world ex_artifacts "keep.txt" true init_state) = inr false.
Proof.
  split; [apply init_coherent |].
  split; [| split; [| split]].
  - destruct (include_path_precedence "secret/gen.py" true
                (init_coherent ex_world ex_artifacts))
      as (_ & _ & H & _).
    eapply H; vm_compute; reflexivity.
  - destruct (include_path_precedence "secret/key.py" true
                (init_coherent ex_world ex_artifacts))
      as (_ & _ & _ & _ & _ & H & _).
    edestruct H as (E & _);
      [vm_compute; reflexivity | vm_compute; reflexivity
      | vm_compute; reflexivity | vm_compute; reflexivity |].
    rewrite E. vm_compute. reflexivity.
  - destruct (include_path_precedence "notes.txt" true
                (init_coherent ex_world ex_artifacts))
      as (_ & _ & _ & _ & _ & H & _).
    edestruct H as (E & _);
      [vm_compute; reflexivity | vm_compute; reflexivity
      | vm_compute; reflexivity | vm_compute; reflexivity |].
    rewrite E. vm_compute. reflexivity.
  - destruct (include_path_precedence "keep.txt" true
                (init_coherent ex_world ex_artifacts))
      as (_ & _ & _ & _ & H & _).
    eapply H; vm_compute; reflexivity.
Defined.

(** ** Dictionaries *)

Section DictFacts.
Variable V : Type.
Implicit Types (d other : list (string * V)) (k : string) (v : V).

Lemma dict_get_set_eq k v d : dict_get k (dict_set k v d) = Some v.
Proof.
  induction d as [| [k' v'] d IH]; cbn.
  - now rewrite String.eqb_refl.
  - destruct (k' =? k) eqn:E; cbn; rewrite E; [reflexivity | exact IH].
Qed.

Lemma dict_get_set_neq k k' v d :
  k <> k' -> dict_get k (dict_set k' v d) = dict_get k d.
Proof.
  intros Hne. induction d as [| [k0 v0] d IH]; cbn.
  - destruct (k' =? k) eqn:E; [| reflexivity].
    apply String.eqb_eq in E. congruence.
  - destruct (k0 =? k') eqn:E; cbn.
    + apply String.eqb_eq in E. subst k0.
      destruct (k' =? k) eqn:E'; [| reflexivity].
      apply String.eqb_eq in E'. congruence.
    + destruct (k0 =? k); [reflexivity | exact IH].
Qed.

Lemma dict_get_None_iff k d : dict_get k d = None <-> ~ In k (keys d).
Proof.
  induction d as [| [k' v'] d IH]; cbn.
  - tauto.
  - destruct (k' =? k) eqn:E.
    + apply String.eqb_eq in E. split; [discriminate | intros H; exfalso; auto].
    + apply String.eqb_neq in E. rewrite IH. tauto.
Qed.

Lemma dict_contains_mem k d : dict_contains k d = mem k (keys d).
Proof.
  unfold dict_contains, mem.
  induction d as [| [k' v'] d IH]; cbn; [reflexivity |].
  rewrite (String.eqb_sym k k').
  destruct (k' =? k); [reflexivity | exact IH].
Qed.

Lemma mem_In x l : mem x l = true <-> In x l.
Proof.
  unfold mem. rewrite existsb_exists. split.
  - intros (y & Hy & E). apply String.eqb_eq in E. now subst.
  - intros H. exists x. split; [exact H | apply String.eqb_refl].
Qed.

Lemma mem_false x l : mem x l = false <-> ~ In x l.
Proof.
  rewrite <- mem_In. destruct (mem x l); split; congruence.
Qed.

Lemma keys_dict_set_in k v d :
  In k (keys d) -> keys (dict_set k v d) = keys d.
Proof.
  unfold keys. induction d as [| [k' v'] d IH]; cbn; [tauto |].
  intros [-> | H].
  - now rewrite String.eqb_refl.
  - destruct (k' =? k) eqn:E; cbn; [reflexivity | now rewrite IH].
Qed.

Lemma dict_set_notin k v d :
  ~ In k (keys d) -> dict_set k v d = d ++ [(k, v)].
Proof.
  unfold keys. induction d as [| [k' v'] d IH]; cbn; [reflexivity |].
  intros H. destruct (k' =? k) eqn:E.
  - apply String.eqb_eq in E. tauto.
  - rewrite IH; tauto.
Qed.

Lemma keys_dict_set k v d :
  keys (dict_set k v d) = if mem k (keys d) then keys d else keys d ++ [k].
Proof.
  destruct (mem k (keys d)) eqn:E.
  - apply keys_dict_set_in, mem_In, E.
  - apply mem_false in E. rewrite dict_set_notin by exact E.
    unfold keys. now rewrite map_app.
Qed.

Lemma NoDup_snoc (x : string) l : NoDup l -> ~ In x l -> NoDup (l ++ [x]).
Proof.
  intros Hl Hx. apply NoDup_app; [exact Hl | repeat constructor; cbn; tauto |].
  intros y Hy [<- | []]. tauto.
Qed.

Lemma NoDup_keys_dict_set k v d : NoDup (keys d) -> NoDup (keys (dict_set k v d)).
Proof.
  intros H. rewrite keys_dict_set.
  destruct (mem k (keys d)) eqn:E; [exact H |].
  apply NoDup_snoc; [exact H | now apply mem_false].
Qed.

Lemma dict_get_update_notin k d other :
  ~ In k (keys other) -> dict_get k (dict_update d other) = dict_get k d.
Proof.
  unfold dict_update. revert d.
  induction other as [| [k' v'] other IH]; intros d Hk; cbn in *.
  - reflexivity.
  - rewrite IH by tauto. apply dict_get_set_neq. intros ->. tauto.
Qed.

Lemma dict_get_update_in k v d other :
  NoDup (keys other) -> dict_get k other = Some v ->
  dict_get k (dict_update d other) = Some v.
Proof.
  unfold dict_update. revert d.
  induction other as [| [k' v'] other IH]; intros d Hnd Hk; cbn in *.
  - discriminate.
  - inversion Hnd as [| ? ? Hnotin Hnd']; subst.
    destruct (k' =? k) eqn:E.
    + apply String.eqb_eq in E. subst k'. injection Hk as ->.
      change (dict_get k (dict_update (dict_set k v d) other) = Some v).
      rewrite dict_get_update_notin by exact Hnotin.
      apply dict_get_set_eq.
    + apply IH; assumption.
Qed.

Lemma dict_update_nil d : dict_update d [] = d.
Proof. reflexivity. Qed.

Lemma NoDup_keys_dict_update d other :
  NoDup (keys d) -> NoDup (keys (dict_update d other)).
Proof.
  unfold dict_update. revert d.
  induction other as [| [k v] other IH]; intros d Hd; cbn; [exact Hd |].
  apply IH, NoDup_keys_dict_set, Hd.
Qed.
End DictFacts.

(** ** The build-time overlay *)

Lemma coherent_set_build_artifact_spec W self v s :
  coherent W self s -> coherent W self (set_build_artifact_spec v s).
Proof. intros []; constructor; assumption. Qed.

Lemma coherent_set_build_force_include W self v s :
  coherent W self s -> coherent W self (set_build_force_include v s).
Proof. intros []; constructor; assumption. Qed.

Lemma coherent_clear_build_data W self s :
  coherent W self s -> coherent W self (clear_build_data s).
Proof.
  intros H. unfold clear_build_data.
  now apply coherent_set_build_force_include, coherent_set_build_artifact_spec.
Qed.

(** Entering the scope with both keys present and patterns that compile. *)
Lemma enter_build_data_ok W self artifacts contributed s :
  first_pattern_error W artifacts = None ->
  enter_build_data W self (mkBuildData (Some artifacts) (Some contributed)) s
  = (inr tt,
     set_build_force_include
       (dict_update (build_force_include s)
          (normalize_inclusion_map W contributed (root self)))
       (if nonempty artifacts
        then set_build_artifact_spec (Some (from_lines artifacts)) s
        else s)).
Proof.
  intros Hok. unfold enter_build_data, bind, lift, modify, ret; cbn.
  unfold PathSpec_from_lines. rewrite Hok.
  destruct (nonempty artifacts); reflexivity.
Qed.

(** Entering the scope with a pattern that the factory refuses. *)
Lemma enter_build_data_refused W self artifacts contributed msg s :
  artifacts <> [] ->
  first_pattern_error W artifacts = Some msg ->
  enter_build_data W self (mkBuildData (Some artifacts) contributed) s
  = (inl (ValueError msg), s).
Proof.
  intros Hne Hbad. unfold enter_build_data, bind, lift, modify, ret; cbn.
  unfold PathSpec_from_lines. rewrite Hbad.
  destruct artifacts; [congruence | reflexivity].
Qed.

(** Entering the scope, however it ends, keeps the attributes coherent. *)
Lemma enter_build_data_coherent W self build_data s :
  coherent W self s ->
  coherent W self (snd (enter_build_data W self build_data s)).
Proof.
  intros Hs. unfold enter_build_data, bind, lift, modify, ret.
  destruct (bd_artifacts build_data) as [arts |]; cbn; [| exact Hs].
  destruct (nonempty arts); cbn.
  - destruct (PathSpec_from_lines W arts) as [e | spec]; cbn; [exact Hs |].
    destruct (bd_force_include build_data) as [fi |]; cbn;
      repeat first [ apply coherent_set_build_force_include
                   | apply coherent_set_build_artifact_spec ]; exact Hs.
  - destruct (bd_force_include build_data) as [fi |]; cbn;
      repeat first [ apply coherent_set_build_force_include
                   | apply coherent_set_build_artifact_spec ]; exact Hs.
Qed.

(** C2. For every build-data record, every body and every attributes:
    - on every exit path of [with set_build_data(build_data): body] (the entry
      raised, the body raised, or the body returned) the overlay artifact spec
      is absent and the overlay force-include fragment is empty afterwards;
    - an exception of the entry or of the body is the exception of the block;
      so is the [ValueError] of the pattern factory when it refuses one of the
      contributed artifact patterns: the body is then not run;
    - within the scope, entered with artifact patterns that the factory
      accepts, a path matched by the contributed artifact patterns is
      included (nothing else is asked) and [get_force_include] returns the
      static map updated with the fragment, which holds every contributed
      entry;
    - after the scope, from coherent attributes and a body that keeps them
      coherent, [include_path] decides with no overlay spec: when no overlay
      was installed before the scope it returns, for every path, what it
      returned before the scope; and [get_force_include] returns the static
      map alone. *)
Theorem set_build_data_scoped :
  forall (W : World) (self : BuilderConfig) (A : Type)
         (build_data : BuildData) (body : M A) (s : state),
    let out := set_build_data W self build_data body s in
    (build_artifact_spec (snd out) = None /\ build_force_include (snd out) = [])
    /\ (forall e, fst (enter_build_data W self build_data s) = inl e ->
          fst out = inl e)
    /\ (forall s1, enter_build_data W self build_data s = (inr tt, s1) ->
          out = (fst (body s1), clear_build_data (snd (body s1))))
    /\ (forall artifacts msg,
          bd_artifacts build_data = Some artifacts -> artifacts <> [] ->
          first_pattern_error W artifacts = Some msg ->
          out = (inl (ValueError msg), clear_build_data s))
    /\ (forall artifacts contributed,
          build_data = mkBuildData (Some artifacts) (Some contributed) ->
          first_pattern_error W artifacts = None ->
          let fragment := normalize_inclusion_map W contributed (root self) in
          exists s1,
            enter_build_data W self build_data s = (inr tt, s1)
            /\ build_force_include s1
               = dict_update (build_force_include s) fragment
            /\ (forall p is_package,
                  artifacts <> [] ->
                  match_file W (from_lines artifacts) p = true ->
                  include_path W self p is_package s1 = (inr true, s1))
            /\ (coherent W self s ->
                fst (get_force_include W self s1)
                = rbind (force_include_value W self)
                    (fun static =>
                       inr (dict_update static
                              (dict_update (build_force_include s) fragment))))
            /\ (forall static k v,
                  NoDup (keys (build_force_include s)) ->
                  NoDup (keys fragment) -> dict_get k fragment = Some v ->
                  dict_get k (dict_update static
                                (dict_update (build_force_include s) fragment))
                  = Some v))
    /\ (coherent W self s ->
        (forall s0, coherent W self s0 -> coherent W self (snd (body s0))) ->
        coherent W self (snd out)
        /\ (forall p is_package,
              fst (include_path W self p is_package (snd out))
              = include_decision W self None p is_package)
        /\ (build_artifact_spec s = None ->
            forall p is_package,
              fst (include_path W self p is_package (snd out))
              = fst (include_path W self p is_package s))
        /\ fst (get_force_include W self (snd out)) = force_include_value W self).
Proof.
  intros W self A build_data body s out.
  assert (Hout : out = match enter_build_data W self build_data s with
                       | (inr _, s1) => (fst (body s1), clear_build_data (snd (body s1)))
                       | (inl e, s1) => (inl e, clear_build_data s1)
                       end).
  { unfold out, set_build_data, try_finally, bind.
    destruct (enter_build_data W self build_data s) as [[e | []] s1]; cbn.
    - reflexivity.
    - destruct (body s1); reflexivity. }
  assert (Hclear : build_artifact_spec (snd out) = None
                   /\ build_force_include (snd out) = []).
  { rewrite Hout.
    destruct (enter_build_data W self build_data s) as [[e | u] s1]; cbn; auto. }
  assert (Hentry : forall s1 u, coherent W self s ->
            enter_build_data W self build_data s = (u, s1) -> coherent W self s1).
  { intros s1 u Hs He.
    pose proof (enter_build_data_coherent build_data Hs) as Hc.
    now rewrite He in Hc. }
  split; [exact Hclear |].
  split; [| split; [| split; [| split; [| ]]]].
  - intros e He. rewrite Hout.
    destruct (enter_build_data W self build_data s) as [[e' | u] s1]; cbn in *;
      congruence.
  - intros s1 He. rewrite Hout, He. reflexivity.
  - intros artifacts msg Ha Hne Hbad. rewrite Hout.
    destruct build_data as [arts fi]. cbn in Ha. subst arts.
    rewrite (@enter_build_data_refused W self artifacts fi msg s Hne Hbad).
    reflexivity.
  - intros artifacts contributed -> Hok fragment.
    eexists. split; [apply enter_build_data_ok, Hok |].
    split; [reflexivity |].
    split; [| split].
    + intros p is_package Hne Hm.
      rewrite include_path_overlay_first.
      destruct artifacts as [| a l]; [congruence |].
      match goal with
      | |- context [build_artifact_spec ?s1] =>
          change (build_artifact_spec s1) with (Some (from_lines (a :: l)))
      end.
      unfold matches. rewrite Hm. reflexivity.
    + intros Hs.
      match goal with
      | |- fst (get_force_include W self ?s1) = _ =>
          assert (Hs1 : coherent W self s1)
      end.
      { apply coherent_set_build_force_include.
        destruct (nonempty artifacts);
          [apply coherent_set_build_artifact_spec |]; exact Hs. }
      destruct (get_force_include_runs Hs1) as (Hv & _ & _).
      rewrite Hv. reflexivity.
    + intros static k v Hold Hnd Hk.
      apply dict_get_update_in.
      * apply NoDup_keys_dict_update, Hold.
      * apply dict_get_update_in; assumption.
  - intros Hs Hbody.
    assert (Hc : coherent W self (snd out)).
    { rewrite Hout.
      destruct (enter_build_data W self build_data s) as [[e | u] s1] eqn:He;
        cbn; apply coherent_clear_build_data.
      - exact (Hentry _ _ Hs eq_refl).
      - apply Hbody. exact (Hentry _ _ Hs eq_refl). }
    destruct Hclear as (Hspec & Hfrag).
    split; [exact Hc |].
    split; [| split].
    + intros p is_package.
      destruct (include_path_runs p is_package Hc) as (Hv & _ & _).
      rewrite Hv, Hspec. reflexivity.
    + intros Hpre p is_package.
      destruct (include_path_runs p is_package Hc) as (Hv & _ & _).
      destruct (include_path_runs p is_package Hs) as (Hv' & _ & _).
      rewrite Hv, Hv', Hspec, Hpre. reflexivity.
    + destruct (get_force_include_runs Hc) as (Hv & _ & _).
      rewrite Hv, Hfrag.
      destruct (force_include_value W self); reflexivity.
Qed.

Lemma set_build_data_scoped_witness :
  let query := include_path ex_world ex_artifacts "build/gen.bin" true in
  let out := set_build_data ex_world ex_artifacts ex_build_data query init_state in
  coherent ex_world ex_artifacts init_state
  /\ (forall s0, coherent ex_world ex_artifacts s0 ->
        coherent ex_world ex_artifacts (snd (query s0)))
  /\ fst out = inr true
  /\ fst (query (snd out)) = fst (query init_state)
  /\ fst (query init_state) = inr false
  /\ fst (get_force_include ex_world ex_artifacts (snd out)) = inr []
  /\ (exists s1,
        enter_build_data ex_world ex_artifacts ex_build_data init_state
        = (inr tt, s1)
        /\ include_path ex_world ex_artifacts "build/gen.bin" false s1
           = (inr true, s1)).
Proof.
  intros query out.
  assert (Hbody : forall s0, coherent ex_world ex_artifacts s0 ->
                    coherent ex_world ex_artifacts (snd (query s0))).
  { intros s0 Hs0. exact (proj1 (proj2 (include_path_runs "build/gen.bin" true Hs0))). }
  destruct (set_build_data_scoped ex_world ex_artifacts ex_build_data query init_state)
    as (_ & _ & _ & _ & Hwithin & Hafter).
  destruct (Hafter (init_coherent _ _) Hbody) as (_ & _ & Hpre & Hforce).
  split; [apply init_coherent |].
  split; [exact Hbody |].
  split; [vm_compute; reflexivity |].
  split; [exact (Hpre eq_refl "build/gen.bin" true) |].
  split; [vm_compute; reflexivity |].
  split; [exact Hforce |].
  destruct (Hwithin ["build/gen.bin"] [("extra.txt", "pkg/extra.txt")]
              eq_refl eq_refl)
    as (s1 & Henter & _ & Hinc & _).
  exists s1. split; [exact Henter |].
  apply Hinc; [discriminate | reflexivity].
Defined.

(** ** Build hooks *)

Lemma merge_target_hooks_tables self hooks acc :
  NoDup (keys hooks) ->
  (forall k, In k (keys hooks) -> ~ In k (keys acc)) ->
  merge_target_hooks self (map table hooks) acc = inr (acc ++ hooks).
Proof.
  revert acc. induction hooks as [| [name config] hooks IH]; intros acc Hnd Hfresh.
  - cbn. now rewrite app_nil_r.
  - cbn in *. inversion Hnd as [| ? ? Hnotin Hnd']; subst.
    rewrite dict_set_notin by (apply Hfresh; auto).
    rewrite IH; [now rewrite <- app_assoc | exact Hnd' |].
    intros k Hk. unfold keys. rewrite map_app, in_app_iff. cbn.
    intros [Hacc | [<- | []]]; [| exact (Hnotin Hk)].
    exact (Hfresh k (or_intror Hk) Hacc).
Qed.

Lemma merge_global_hooks_tables hooks acc :
  NoDup (keys hooks) ->
  merge_global_hooks (map table hooks) acc
  = inr (acc ++ filter (fun h => negb (mem (fst h) (keys acc))) hooks).
Proof.
  revert acc. induction hooks as [| [name config] hooks IH]; intros acc Hnd.
  - cbn. now rewrite app_nil_r.
  - cbn in *. inversion Hnd as [| ? ? Hnotin Hnd']; subst.
    unfold dict_setdefault. rewrite dict_contains_mem.
    change (list (string * value)) with dict in *.
    destruct (mem name (keys acc)) eqn:Em; cbn.
    + apply IH, Hnd'.
    + apply mem_false in Em. rewrite dict_set_notin by exact Em.
      rewrite IH by exact Hnd'. rewrite <- app_assoc. cbn. do 3 f_equal.
      apply filter_ext_in. intros [k c] Hin. cbn. f_equal.
      unfold keys. rewrite map_app. cbn.
      unfold mem. rewrite existsb_app. cbn.
      destruct (k =? name) eqn:E; [| now rewrite !orb_false_r].
      apply String.eqb_eq in E. subst k. exfalso. apply Hnotin.
      change name with (fst (name, c)). now apply in_map.
Qed.

Lemma fold_dict_set_filter (V : Type) (f : string * V -> bool) l acc :
  NoDup (keys l) ->
  (forall k, In k (keys l) -> ~ In k (keys acc)) ->
  fold_left (fun final h => if f h then dict_set (fst h) (snd h) final else final)
            l acc
  = acc ++ filter f l.
Proof.
  revert acc. induction l as [| [k v] l IH]; intros acc Hnd Hfresh.
  - cbn. now rewrite app_nil_r.
  - cbn in *. inversion Hnd as [| ? ? Hnotin Hnd']; subst.
    destruct (f (k, v)).
    + rewrite dict_set_notin by (apply Hfresh; auto).
      rewrite IH; [now rewrite <- app_assoc | exact Hnd' |].
      intros k' Hk'. unfold keys. rewrite map_app, in_app_iff. cbn.
      intros [Hacc | [<- | []]]; [| exact (Hnotin Hk')].
      exact (Hfresh k' (or_intror Hk') Hacc).
    + apply IH; [exact Hnd' | auto].
Qed.

Lemma NoDup_keys_filter (V : Type) (f : string * V -> bool) l :
  NoDup (keys l) -> NoDup (keys (filter f l)).
Proof.
  induction l as [| [k v] l IH]; cbn; intros Hnd; [constructor |].
  inversion Hnd as [| ? ? Hnotin Hnd']; subst.
  destruct (f (k, v)); cbn; [| auto].
  constructor; [| auto].
  intros Hin. apply Hnotin. unfold keys in *.
  apply in_map_iff in Hin as ([k' v'] & <- & Hf).
  apply filter_In in Hf as (Hf & _). now apply (in_map fst) in Hf.
Qed.

Lemma NoDup_keys_merged (V : Type) (th gh : list (string * V)) :
  NoDup (keys th) -> NoDup (keys gh) ->
  NoDup (keys (th ++ filter (fun h => negb (mem (fst h) (keys th))) gh)).
Proof.
  intros Ht Hg. unfold keys. rewrite map_app.
  apply NoDup_app; [exact Ht | now apply NoDup_keys_filter |].
  intros k Hk Hin.
  apply in_map_iff in Hin as ([k' v'] & <- & Hf).
  apply filter_In in Hf as (_ & Hf). cbn in *.
  apply negb_true_iff, mem_false in Hf. auto.
Qed.

(** C5. When the [hooks] tables of the target and of the global
    configuration hold tables only (an absent key counts as an empty table),
    the first access of [hook_config] returns, and stores, the following
    mapping: the target's hooks in their order, then the global hooks whose
    names the target does not use, in their order; nothing at all when the
    disable-all switch is on; otherwise exactly those hooks for which the
    enable-all switch is on, or the hook's own switch (prefix and upper-cased
    name) is on, or its [enable-by-default] option, true when absent, has a
    true value.  The other hooks are not in the mapping. *)
Theorem hook_config_merge_and_enable :
  forall (W : World) (self : BuilderConfig)
         (target_hooks global_hooks : list (string * dict)) (s : state),
    dict_get_default "hooks" (VDict []) (target_config self)
      = VDict (map table target_hooks) ->
    dict_get_default "hooks" (VDict []) (build_config self)
      = VDict (map table global_hooks) ->
    NoDup (keys target_hooks) -> NoDup (keys global_hooks) ->
    __hook_config s = None ->
    let merged :=
      target_hooks
      ++ filter (fun h => negb (mem (fst h) (keys target_hooks))) global_hooks in
    let disable_all := env_var_enabled (os_environ W) (NO_HOOKS W) false in
    let enable_all := env_var_enabled (os_environ W) (HOOKS_ENABLE W) false in
    let enabled (h : string * dict) :=
      enable_all
      || env_var_enabled (os_environ W) (HOOK_ENABLE_PREFIX W ++ upper W (fst h)) false
      || truthy (dict_get_default "enable-by-default" (VBool true) (snd h)) in
    let final := if disable_all then [] else filter enabled merged in
    hook_config W self s = (inr final, set_hook_config (Some final) s)
    /\ (disable_all = true -> final = [])
    /\ (disable_all = false ->
        forall name config,
          In (name, config) final
          <-> In (name, config) merged /\ enabled (name, config) = true).
Proof.
  intros W self th gh s Ht Hg Hndt Hndg Hnone merged disable_all enable_all
         enabled final.
  assert (Hval : hook_config_value W self = inr final).
  { unfold hook_config_value, merged_hooks. rewrite Ht, Hg. cbn.
    rewrite merge_target_hooks_tables by (cbn; auto). cbn.
    rewrite merge_global_hooks_tables by exact Hndg. cbn.
    fold merged. unfold enabled_hooks. fold disable_all enable_all.
    unfold final. destruct disable_all; cbn; [reflexivity |].
    rewrite fold_dict_set_filter;
      [| now apply NoDup_keys_merged | cbn; auto].
    cbn. f_equal. apply filter_ext. intros [name config].
    unfold hook_enabled, enabled. cbn.
    destruct enable_all; cbn; [reflexivity | apply orb_comm]. }
  split; [| split].
  - unfold hook_config, memoized, lift. rewrite Hnone, Hval. reflexivity.
  - unfold final. intros ->. reflexivity.
  - unfold final. intros -> name config. apply filter_In.
Qed.

Ltac nodup_strings :=
  repeat constructor; cbn; intuition discriminate.

Lemma hook_config_merge_and_enable_witness :
  NoDup (keys ex_target_hooks) /\ NoDup (keys ex_global_hooks)
  /\ fst (hook_config ex_hook_world ex_hooks init_state)
     = inr [("custom", [("enable-by-default", VBool false)]);
            ("vcs", []);
            ("mypyc", [("dependencies", VList [VStr "mypy"])])].
Proof.
  assert (Ht : NoDup (keys ex_target_hooks)) by nodup_strings.
  assert (Hg : NoDup (keys ex_global_hooks)) by nodup_strings.
  split; [exact Ht |]. split; [exact Hg |].
  destruct (@hook_config_merge_and_enable ex_hook_world ex_hooks
              ex_target_hooks ex_global_hooks init_state
              eq_refl eq_refl Ht Hg eq_refl) as (H & _).
  rewrite H. reflexivity.
Defined.

(** ** Sorting *)

Section SortFacts.
Variable A : Type.
Variable leb : A -> A -> bool.
Hypothesis leb_total : forall a b, leb a b = true \/ leb b a = true.

Lemma insert_sorted_perm x l : Permutation (insert_sorted leb x l) (x :: l).
Proof.
  induction l as [| y l IH]; cbn; [reflexivity |].
  destruct (leb x y); [reflexivity |].
  rewrite IH. apply perm_swap.
Qed.

Lemma sorted_perm l : Permutation (sorted leb l) l.
Proof.
  induction l as [| x l IH]; cbn; [reflexivity |].
  rewrite insert_sorted_perm. now constructor.
Qed.

Lemma In_sorted x l : In x (sorted leb l) <-> In x l.
Proof.
  split; apply Permutation_in; [| symmetry]; apply sorted_perm.
Qed.

Lemma insert_sorted_Sorted x l :
  Sorted (fun a b => leb a b = true) l ->
  Sorted (fun a b => leb a b = true) (insert_sorted leb x l).
Proof.
  induction l as [| y l IH]; cbn; intros Hs.
  - repeat constructor.
  - destruct (leb x y) eqn:E.
    + constructor; [exact Hs | constructor; exact E].
    + inversion Hs as [| ? ? Hs' Hhd]; subst.
      constructor; [exact (IH Hs') |].
      assert (Hyx : leb y x = true) by (destruct (leb_total x y); congruence).
      destruct l as [| z l]; cbn; [constructor; exact Hyx |].
      destruct (leb x z); constructor; [exact Hyx |].
      now inversion Hhd.
Qed.

Lemma sorted_Sorted l : Sorted (fun a b => leb a b = true) (sorted leb l).
Proof.
  induction l as [| x l IH]; cbn; [constructor |].
  now apply insert_sorted_Sorted.
Qed.
End SortFacts.

Lemma leb_lt_or_eq a b : String.leb a b = true <-> str_lt a b \/ a = b.
Proof.
  unfold String.leb, str_lt. split.
  - destruct (String.compare a b) eqn:E; try discriminate; intros _.
    + right. now apply String.compare_eq_iff.
    + now left.
  - intros [-> | ->]; [reflexivity |].
    pose proof (proj2 (String_as_OT.cmp_eq b b) eq_refl) as E.
    unfold String_as_OT.cmp in E. now rewrite E.
Qed.

Lemma str_lt_trans a b c : str_lt a b -> str_lt b c -> str_lt a c.
Proof.
  unfold str_lt. intros H1 H2.
  apply String_as_OT.cmp_lt in H1, H2. apply String_as_OT.cmp_lt.
  exact (String_as_OT.lt_trans a b c H1 H2).
Qed.

Lemma str_leb_trans a b c :
  String.leb a b = true -> String.leb b c = true -> String.leb a c = true.
Proof.
  rewrite !leb_lt_or_eq. intros [H1 | ->] [H2 | ->]; auto.
  left. exact (str_lt_trans H1 H2).
Qed.

(** Sorted by a key without repetition is strictly ascending by that key. *)
Lemma sorted_by_key_strict (A : Type) (key : A -> string) (l : list A) :
  Sorted (fun a b => String.leb (key a) (key b) = true) l ->
  NoDup (map key l) ->
  StronglySorted (fun a b => str_lt (key a) (key b)) l.
Proof.
  intros Hs Hnd.
  apply Sorted_StronglySorted in Hs;
    [| intros a b c; apply str_leb_trans].
  induction Hs as [| a l Hs IH Hall]; [constructor |].
  cbn in Hnd. inversion Hnd as [| ? ? Hnotin Hnd']; subst.
  constructor; [exact (IH Hnd') |].
  rewrite Forall_forall in *. intros b Hb.
  destruct (proj1 (leb_lt_or_eq _ _) (Hall b Hb)) as [Hlt | Heq]; [exact Hlt |].
  exfalso. apply Hnotin. rewrite Heq. now apply in_map.
Qed.

(** ** Lists of strings and ordered sets *)

Lemma str_app_assoc (a b c : string) : ((a ++ b) ++ c = a ++ (b ++ c))%string.
Proof. induction a as [| x a IH]; cbn; [reflexivity | now rewrite IH]. Qed.

(** Two spellings of one message. *)
Ltac same_message :=
  unfold target_location, global_location;
  repeat rewrite str_app_assoc; reflexivity.

Lemma check_strings_nonempty type_error empty_error i (l : list string) :
  Forall (fun x => x <> EmptyString) l ->
  check_strings type_error (Some empty_error) i (map VStr l) = inr l.
Proof.
  revert i. induction l as [| x l IH]; intros i Hl; cbn; [reflexivity |].
  inversion Hl as [| ? ? Hx Hl']; subst.
  destruct (x =? EmptyString) eqn:E.
  - apply String.eqb_eq in E. contradiction.
  - now rewrite IH.
Qed.

Lemma check_strings_any type_error i (l : list string) :
  check_strings type_error None i (map VStr l) = inr l.
Proof.
  revert i. induction l as [| x l IH]; intros i; cbn; [reflexivity |].
  now rewrite IH.
Qed.

Lemma In_oset_add x y l : In x (oset_add y l) <-> In x l \/ x = y.
Proof.
  unfold oset_add. destruct (mem y l) eqn:E.
  - apply mem_In in E. split; [auto | intros [H | ->]; assumption].
  - rewrite in_app_iff. cbn. intuition.
Qed.

Lemma In_oset_extend x l xs : In x (oset_extend l xs) <-> In x l \/ In x xs.
Proof.
  unfold oset_extend. revert l.
  induction xs as [| y xs IH]; intros l; cbn; [tauto |].
  rewrite IH, In_oset_add. intuition.
Qed.

Lemma NoDup_oset_add y l : NoDup l -> NoDup (oset_add y l).
Proof.
  intros H. unfold oset_add. destruct (mem y l) eqn:E; [exact H |].
  apply NoDup_snoc; [exact H | now apply mem_false].
Qed.

Lemma NoDup_oset_extend l xs : NoDup l -> NoDup (oset_extend l xs).
Proof.
  unfold oset_extend. revert l.
  induction xs as [| y xs IH]; intros l H; cbn; [exact H |].
  apply IH, NoDup_oset_add, H.
Qed.

Lemma oset_extend_fresh l xs : NoDup (l ++ xs) -> oset_extend l xs = l ++ xs.
Proof.
  unfold oset_extend. revert l.
  induction xs as [| y xs IH]; intros l H; cbn; [now rewrite app_nil_r |].
  assert (Hy : ~ In y l).
  { apply NoDup_remove_2 in H. rewrite in_app_iff in H. tauto. }
  unfold oset_add at 2. rewrite (proj2 (mem_false y l) Hy).
  rewrite IH; rewrite <- app_assoc; [reflexivity | exact H].
Qed.

Lemma nonempty_oset_extend xs : nonempty (oset_extend [] xs) = nonempty xs.
Proof.
  destruct xs as [| x xs]; [reflexivity |].
  assert (H : In x (oset_extend [] (x :: xs))) by (apply In_oset_extend; cbn; auto).
  destruct (oset_extend [] (x :: xs)); [destruct H | reflexivity].
Qed.

Lemma nonempty_false (A : Type) (l : list A) : nonempty l = false <-> l = [].
Proof. destruct l; cbn; split; congruence. Qed.

(** ** Versions *)

(** C8. When the target's [versions] is a list of non-empty strings
    (an absent key counts as the empty list):
    - a non-empty list with an identifier the builder does not know makes the
      first access raise [ValueError]; its message is the fixed text naming
      the field followed by the unknown identifiers, each once, in strictly
      ascending order, separated by a comma and a space, and nothing is
      stored;
    - the empty list makes the access return, and store, the builder's
      default versions (each once, in their order) without raising. *)
Theorem versions_unknown_or_default :
  forall (self : BuilderConfig) (configured : list string) (s : state),
    dict_get_default "versions" (VList []) (target_config self)
      = VList (map VStr configured) ->
    Forall (fun v => v <> EmptyString) configured ->
    __versions s = None ->
    let known := get_version_api (builder self) in
    let defaults := get_default_versions (builder self) in
    (configured <> [] -> (exists v, In v configured /\ ~ In v known) ->
       let unknown := unknown_versions self (oset_extend [] configured) in
       versions self s
       = (inl (ValueError ("Unknown versions in field `tool.hatch.build.targets."
                           ++ plugin_name self ++ ".versions`: "
                           ++ String.concat ", " unknown)), s)
       /\ unknown <> []
       /\ StronglySorted str_lt unknown
       /\ (forall v, In v unknown <-> In v configured /\ ~ In v known))
    /\ (configured = [] ->
        versions self s
        = (inr (oset_extend [] defaults),
           set_versions (Some (oset_extend [] defaults)) s)
        /\ NoDup (oset_extend [] defaults)
        /\ (forall v, In v (oset_extend [] defaults) <-> In v defaults)
        /\ (NoDup defaults -> oset_extend [] defaults = defaults)).
Proof.
  intros self configured s Hcfg Hne Hnone known defaults.
  assert (Hval : versions_value self =
    let all_versions := oset_extend [] configured in
    if negb (nonempty all_versions) then inr (oset_extend all_versions defaults)
    else let unknown := unknown_versions self all_versions in
         if nonempty unknown
         then inl (ValueError ("Unknown versions in field `"
                               ++ target_location self "versions"
                               ++ "`: " ++ join ", " unknown))
         else inr all_versions).
  { unfold versions_value. rewrite Hcfg. cbn [expect_list rbind].
    rewrite check_strings_nonempty by exact Hne. reflexivity. }
  cbn zeta in Hval.
  split.
  - intros Hnonempty (v & Hv & Hunknown) unknown.
    assert (Hin : forall x, In x unknown <-> In x configured /\ ~ In x known).
    { intros x. unfold unknown, unknown_versions.
      rewrite (In_sorted String.leb).
      rewrite filter_In, In_oset_extend, negb_true_iff, mem_false. cbn. tauto. }
    assert (Hsome : unknown <> []).
    { intros Hnil. assert (Hx : In v unknown) by (apply Hin; auto).
      rewrite Hnil in Hx. destruct Hx. }
    split; [| split; [exact Hsome | split; [| exact Hin]]].
    + rewrite nonempty_oset_extend in Hval.
      destruct configured as [| c cs]; [congruence |]. cbn [nonempty negb] in Hval.
      fold unknown in Hval.
      destruct unknown as [| u us] eqn:Eu; [congruence |].
      cbn [nonempty] in Hval.
      unfold versions, memoized, lift. rewrite Hnone, Hval.
      do 3 f_equal. unfold join. same_message.
    + apply (sorted_by_key_strict (fun x => x)).
      * apply sorted_Sorted, String.leb_total.
      * rewrite map_id. unfold unknown_versions.
        eapply Permutation_NoDup; [symmetry; apply sorted_perm |].
        apply NoDup_filter, NoDup_oset_extend. constructor.
  - intros ->. split; [| split; [| split]].
    + cbn in Hval. unfold versions, memoized, lift. rewrite Hnone, Hval.
      reflexivity.
    + apply NoDup_oset_extend. constructor.
    + intros v. rewrite In_oset_extend. cbn. tauto.
    + intros Hnd. now apply (oset_extend_fresh []).
Qed.

Lemma versions_unknown_or_default_witness :
  versions ex_versions init_state
  = (inl (ValueError
            "Unknown versions in field `tool.hatch.build.targets.wheel.versions`: alpha, zeta"),
     init_state)
  /\ StronglySorted str_lt ["alpha"; "zeta"]
  /\ (forall v, In v ["alpha"; "zeta"]
                <-> In v ["zeta"; "standard"; "alpha"; "zeta"]
                    /\ ~ In v ["standard"; "editable"]).
Proof.
  assert (Hne : Forall (fun v => v <> EmptyString)
                  ["zeta"; "standard"; "alpha"; "zeta"])
    by (repeat constructor; discriminate).
  destruct (@versions_unknown_or_default ex_versions
              ["zeta"; "standard"; "alpha"; "zeta"] init_state
              eq_refl Hne eq_refl) as (H & _).
  destruct H as (Hraised & _ & Hsorted & Hin).
  - discriminate.
  - exists "zeta". split; [cbn; auto | cbn; intuition discriminate].
  - split; [exact Hraised |]. split; [exact Hsorted | exact Hin].
Defined.

Example versions_unknown_message :
  fst (versions ex_versions init_state)
  = inl (ValueError
           "Unknown versions in field `tool.hatch.build.targets.wheel.versions`: alpha, zeta").
Proof. reflexivity. Qed.

(** ** Pattern lists *)

Lemma select_config_layered self key :
  select_config self key
  = (if dict_contains key (target_config self)
     then target_config self else build_config self,
     layered_location self key).
Proof.
  unfold select_config, layered_location.
  destruct (dict_contains key (target_config self)); reflexivity.
Qed.

Lemma layered_value_select self key default :
  dict_get_default key default (fst (select_config self key))
  = layered_value self key default.
Proof.
  unfold select_config, layered_value.
  destruct (dict_contains key (target_config self)); reflexivity.
Qed.

Lemma check_strings_first_invalid type_error empty_error i before x after :
  Forall (fun p => p <> EmptyString) before ->
  check_strings type_error (Some empty_error) i (map VStr before ++ x :: after)
  = match x with
    | VStr p =>
        if p =? EmptyString then inl (empty_error (i + List.length before))
        else rbind (check_strings type_error (Some empty_error)
                      (S (i + List.length before)) after)
                   (fun l => inr (before ++ p :: l))
    | _ => inl (type_error (i + List.length before))
    end.
Proof.
  revert i. induction before as [| b before IH]; intros i Hb; cbn.
  - rewrite Nat.add_0_r. destruct x; try reflexivity.
  - inversion Hb as [| ? ? Hne Hb']; subst.
    destruct (b =? EmptyString) eqn:E.
    + apply String.eqb_eq in E. contradiction.
    + rewrite IH by exact Hb'. rewrite Nat.add_succ_r. cbn.
      destruct x; try reflexivity.
      destruct (s =? EmptyString); [reflexivity |].
      destruct (check_strings _ _ _ after); reflexivity.
Qed.

(** An invalid pattern list: the exception is raised with the attributes as
    they were. *)
Lemma pattern_spec_invalid W self o s e :
  cached_patterns o s = None ->
  string_array "Pattern" (layered_location self (option_key o))
    (layered_value self (option_key o) (VList [])) = inl e ->
  pattern_spec W self o s = (inl e, s).
Proof.
  intros Hnone Herr.
  rewrite <- layered_value_select in Herr.
  destruct o; cbn in *;
    unfold include_spec, exclude_spec, artifact_spec, memoized_spec;
    rewrite Hnone;
    rewrite select_config_layered in *; cbn [fst] in Herr;
    unfold bind, lift, default_include, default_exclude;
    rewrite Herr; reflexivity.
Qed.

(** C7. For each of [include], [exclude] and [artifacts], at the first
    access (nothing cached for the option yet), with the option read from the
    target's table when the key is there and from the global table otherwise:
    - a value that is not a list raises [TypeError] naming the fully-qualified
      key;
    - in a list, when the elements before some position are non-empty strings,
      an element there that is not a string raises [TypeError] and an empty
      string raises [ValueError], each naming the 1-based position and the key;
    and in each case the attributes are left exactly as they were: no spec is
    built and no pattern list is stored. *)
Theorem pattern_list_errors :
  forall (W : World) (self : BuilderConfig) (o : pattern_option) (s : state),
    cached_patterns o s = None ->
    let location := layered_location self (option_key o) in
    let configured := layered_value self (option_key o) (VList []) in
    ((forall l, configured <> VList l) ->
       pattern_spec W self o s
       = (inl (TypeError ("Field `" ++ location ++ "` must be an array of strings")),
          s))
    /\ (forall before x after,
          configured = VList (map VStr before ++ x :: after) ->
          Forall (fun p => p <> EmptyString) before ->
          let position := str_of_nat (S (List.length before)) in
          ((forall p, x <> VStr p) ->
             pattern_spec W self o s
             = (inl (TypeError ("Pattern #" ++ position ++ " in field `" ++ location
                                ++ "` must be a string")), s))
          /\ (x = VStr EmptyString ->
                pattern_spec W self o s
                = (inl (ValueError ("Pattern #" ++ position ++ " in field `" ++ location
                                    ++ "` cannot be an empty string")), s))).
Proof.
  intros W self o s Hnone location configured.
  split.
  - intros Hnot. apply pattern_spec_invalid; [exact Hnone |].
    fold location configured. unfold string_array.
    destruct configured; try reflexivity. now destruct (Hnot l).
  - intros before x after Hcfg Hbefore position.
    assert (Hcheck :
      string_array "Pattern" location configured
      = match x with
        | VStr p =>
            if p =? EmptyString
            then inl (cannot_be_empty "Pattern" location (S (List.length before)))
            else rbind (check_strings (must_be_string "Pattern" location)
                          (Some (cannot_be_empty "Pattern" location))
                          (S (S (List.length before))) after)
                       (fun l => inr (before ++ p :: l))
        | _ => inl (must_be_string "Pattern" location (S (List.length before)))
        end).
    { unfold string_array. rewrite Hcfg. cbn [expect_list rbind].
      now rewrite check_strings_first_invalid. }
    split.
    + intros Hnot. apply pattern_spec_invalid; [exact Hnone |].
      fold location configured. rewrite Hcheck.
      destruct x; try reflexivity. now destruct (Hnot s0).
    + intros ->. apply pattern_spec_invalid; [exact Hnone |].
      fold location configured. rewrite Hcheck. reflexivity.
Qed.

Lemma pattern_list_errors_witness :
  include_spec ex_world ex_bad_patterns init_state
  = (inl (TypeError
            "Pattern #2 in field `tool.hatch.build.targets.wheel.include` must be a string"),
     init_state)
  /\ exclude_spec ex_world ex_bad_patterns init_state
     = (inl (ValueError
               "Pattern #1 in field `tool.hatch.build.exclude` cannot be an empty string"),
        init_state)
  /\ artifact_spec ex_world ex_bad_patterns init_state
     = (inl (TypeError "Field `tool.hatch.build.artifacts` must be an array of strings"),
        init_state).
Proof.
  split; [| split].
  - destruct (@pattern_list_errors ex_world ex_bad_patterns OInclude init_state eq_refl)
      as (_ & H).
    destruct (H ["src"] (VInt 5) [VStr EmptyString] eq_refl) as (Htype & _).
    + repeat constructor; discriminate.
    + apply Htype. discriminate.
  - destruct (@pattern_list_errors ex_world ex_bad_patterns OExclude init_state eq_refl)
      as (_ & H).
    destruct (H [] (VStr EmptyString) [] eq_refl) as (_ & Hempty).
    + constructor.
    + apply Hempty. reflexivity.
  - destruct (@pattern_list_errors ex_world ex_bad_patterns OArtifacts init_state eq_refl)
      as (Hlist & _).
    apply Hlist. discriminate.
Defined.

(** ** Option resolution *)

Lemma bool_option_layered self key default :
  bool_option self key default
  = match layered_value self key (VBool default) with
    | VBool b => inr b
    | _ => inl (TypeError ("Field `" ++ layered_location self key
                           ++ "` must be a boolean"))
    end.
Proof.
  unfold bool_option, layered_value, layered_location, dict_getitem,
    dict_contains, dict_get_default, target_location, global_location.
  destruct (dict_get key (target_config self)) as [v |]; reflexivity.
Qed.

Lemma directory_value_layered W self :
  directory_value W self
  = match layered_value self "directory" (VStr (DEFAULT_BUILD_DIRECTORY W)) with
    | VStr d => inr (normalize_build_directory W self d)
    | _ => inl (TypeError ("Field `" ++ layered_location self "directory"
                           ++ "` must be a string"))
    end.
Proof.
  unfold directory_value, layered_value, layered_location, dict_getitem,
    dict_contains, dict_get_default, target_location.
  destruct (dict_get "directory" (target_config self)) as [v |]; reflexivity.
Qed.

Lemma dev_mode_dirs_value_layered self :
  dev_mode_dirs_value self
  = string_array "Directory" (layered_location self "dev-mode-dirs")
      (layered_value self "dev-mode-dirs" (VList [])).
Proof.
  unfold dev_mode_dirs_value. rewrite <- layered_value_select.
  rewrite select_config_layered. reflexivity.
Qed.

Lemma hook_dependencies_keeps hooks flag deps flag' deps' :
  hook_dependencies hooks flag deps = inr (flag', deps') ->
  forall d, In d deps -> In d deps'.
Proof.
  revert flag deps. induction hooks as [| [name config] hooks IH];
    intros flag deps H d Hd; cbn in H.
  - now injection H as _ <-.
  - destruct (dict_get_default "require-runtime-dependencies" _ config);
      try discriminate.
    destruct (expect_list _ _) as [e | l]; cbn in H; [discriminate |].
    destruct (check_strings _ _ _ l) as [e | checked]; cbn in H; [discriminate |].
    eapply IH; [exact H |]. apply In_oset_extend. auto.
Qed.

Lemma In_dependencies W self deps d :
  dependencies_value W self = inr deps ->
  (exists declared, declared_dependencies self = inr declared /\ In d declared) ->
  In d deps.
Proof.
  unfold dependencies_value. intros H (declared & Hdecl & Hd).
  rewrite Hdecl in H. cbn in H.
  destruct (bool_option self "require-runtime-dependencies" false) as [e | flag];
    cbn in H; [discriminate |].
  destruct (hook_config_value W self) as [e | hooks]; cbn in H; [discriminate |].
  destruct (hook_dependencies hooks flag declared) as [e | [flag' deps']] eqn:Eh;
    cbn in H; [discriminate |].
  pose proof (hook_dependencies_keeps _ _ _ Eh d Hd) as Hin.
  injection H as <-.
  destruct flag'; [apply In_oset_extend; auto | exact Hin].
Qed.

Lemma check_strings_inv type_error empty_error i l checked :
  check_strings type_error empty_error i l = inr checked -> l = map VStr checked.
Proof.
  revert i checked. induction l as [| x l IH]; intros i checked H; cbn in H.
  - now injection H as <-.
  - destruct x; try discriminate.
    destruct empty_error as [err |].
    + destruct (s =? EmptyString); [discriminate |].
      destruct (check_strings _ _ _ l) as [e | rest] eqn:E; cbn in H;
        [discriminate |].
      injection H as <-. cbn. f_equal. eapply IH, E.
    + destruct (check_strings _ _ _ l) as [e | rest] eqn:E; cbn in H;
        [discriminate |].
      injection H as <-. cbn. f_equal. eapply IH, E.
Qed.

Lemma In_map_VStr d l : In (VStr d) (map VStr l) <-> In d l.
Proof.
  rewrite in_map_iff. split.
  - intros (x & [= ->] & H). exact H.
  - intros H. exists d. auto.
Qed.

(** Extending an ordered set keeps what it held, in place, and puts new
    elements of the extension behind. *)
Lemma oset_extend_grows l xs :
  exists rest, oset_extend l xs = l ++ rest /\ (forall x, In x rest -> In x xs).
Proof.
  unfold oset_extend. revert l.
  induction xs as [| x xs IH]; intros l; cbn [fold_left].
  - exists []. split; [now rewrite app_nil_r | intros x []].
  - destruct (IH (oset_add x l)) as (rest & -> & Hrest).
    unfold oset_add. destruct (mem x l).
    + exists rest. split; [reflexivity |]. intros y Hy. right. auto.
    + exists (x :: rest). split; [now rewrite <- app_assoc |].
      intros y [<- | Hy]; [now left | right; auto].
Qed.

Lemma hook_lists_cons name config hooks d :
  hook_lists ((name, config) :: hooks) d
  <-> (exists l, dict_get_default "dependencies" (VList []) config = VList l
                 /\ In (VStr d) l)
      \/ hook_lists hooks d.
Proof.
  unfold hook_lists. split.
  - intros (n & c & l & [[= <- <-] | Hin] & Hl & Hd); [left | right]; eauto 6.
  - intros [(l & Hl & Hd) | (n & c & l & Hin & Hl & Hd)].
    + exists name, config, l. cbn. auto.
    + exists n, c, l. cbn. auto.
Qed.

Lemma hook_requires_runtime_cons name config hooks :
  hook_requires_runtime ((name, config) :: hooks)
  <-> dict_get_default "require-runtime-dependencies" (VBool false) config
      = VBool true
      \/ hook_requires_runtime hooks.
Proof.
  unfold hook_requires_runtime. split.
  - intros (n & c & [[= <- <-] | Hin] & Hreq); [left | right]; eauto.
  - intros [Hreq | (n & c & Hin & Hreq)].
    + exists name, config. cbn. auto.
    + exists n, c. cbn. auto.
Qed.

(** What the loop over the hooks adds to the flag and to the ordered set. *)
Lemma hook_dependencies_result hooks flag deps flag' deps' :
  hook_dependencies hooks flag deps = inr (flag', deps') ->
  (NoDup deps -> NoDup deps')
  /\ (exists rest, deps' = deps ++ rest
                   /\ forall d, In d rest -> hook_lists hooks d)
  /\ (forall d, In d deps' <-> In d deps \/ hook_lists hooks d)
  /\ (flag' = true <-> flag = true \/ hook_requires_runtime hooks).
Proof.
  revert flag deps. induction hooks as [| [name config] hooks IH];
    intros flag deps Hrun; cbn in Hrun.
  - injection Hrun as <- <-. split; [auto |].
    split; [exists []; split; [now rewrite app_nil_r | intros d []] |].
    split.
    + intros d. split; [auto |]. intros [Hd | (n & c & l & [] & _)]. exact Hd.
    + split; [auto |]. intros [Hf | (n & c & [] & _)]. exact Hf.
  - destruct (dict_get_default "require-runtime-dependencies" (VBool false) config)
      as [b | | | |] eqn:Er; try discriminate.
    destruct (expect_list _ (dict_get_default "dependencies" (VList []) config))
      as [e | l] eqn:El; cbn in Hrun; [discriminate |].
    destruct (check_strings _ _ _ l) as [e | checked] eqn:Ec; cbn in Hrun;
      [discriminate |].
    apply check_strings_inv in Ec. subst l.
    assert (Hl : dict_get_default "dependencies" (VList []) config
                 = VList (map VStr checked)).
    { unfold expect_list in El.
      destruct (dict_get_default "dependencies" (VList []) config);
        try discriminate.
      now injection El as ->. }
    assert (Hlisted : forall d, In d checked ->
                        hook_lists ((name, config) :: hooks) d).
    { intros d Hd. apply hook_lists_cons. left.
      exists (map VStr checked). split; [exact Hl | now apply In_map_VStr]. }
    destruct (IH _ _ Hrun) as (Hnd & (rest & Hrest & Hrest_in) & Hin & Hflag).
    split; [intros Hd; apply Hnd, NoDup_oset_extend, Hd |].
    split.
    { destruct (oset_extend_grows deps checked) as (r & Hr & Hr_in).
      exists (r ++ rest). split; [rewrite Hrest, Hr; now rewrite app_assoc |].
      intros d Hd. apply in_app_iff in Hd as [Hd | Hd]; [auto |].
      apply hook_lists_cons. right. auto. }
    split.
    + intros d. rewrite Hin, In_oset_extend, hook_lists_cons.
      split.
      * intros [[Hd | Hd] | Hd]; auto.
        right. left. exists (map VStr checked). split; [exact Hl |].
        now apply In_map_VStr.
      * intros [Hd | [(l & Hl' & Hd) | Hd]]; auto.
        rewrite Hl in Hl'. injection Hl' as <-.
        apply In_map_VStr in Hd. auto.
    + rewrite Hflag, hook_requires_runtime_cons, Er. split.
      * intros [Hb | Hh]; [| auto].
        apply orb_true_iff in Hb as [-> | ->]; auto.
      * intros [-> | [[= ->] | Hh]]; auto.
        left. apply orb_true_r.
Qed.

(** C3, amended. On coherent attributes:
    - each of [ignore-vcs], [require-runtime-dependencies], [only-packages],
      [reproducible] and [dev-mode-exact] is the boolean found in the
      target's table when the key is there, in the global table otherwise,
      and its default when the key is in neither; a value that is not a
      boolean raises [TypeError] naming the table it was read from;
    - [directory] and [dev-mode-dirs] are resolved the same way, with their
      own validation;
    - [versions] is read from the target's table only: the global table has
      no effect on it; without the key in the target's table, or with the
      empty list there, it is the builder's default versions; and a list of
      known versions there is the result, each version once;
    - [dependencies] is no fallback either: the target's list and the global
      list are both taken, and the result, which has no repetition, is made
      of the target's dependencies, then the global ones, then those of the
      enabled hooks, then, when the build or an enabled hook requires them,
      the runtime dependencies; it holds nothing else. *)
Theorem option_resolution :
  forall (W : World) (self : BuilderConfig) (s : state),
    coherent W self s ->
    (forall key default property,
       In (key, default, property) (boolean_options self) ->
       fst (property s)
       = match layered_value self key (VBool default) with
         | VBool b => inr b
         | _ => inl (TypeError ("Field `" ++ layered_location self key
                                ++ "` must be a boolean"))
         end)
    /\ fst (directory W self s)
       = match layered_value self "directory" (VStr (DEFAULT_BUILD_DIRECTORY W)) with
         | VStr d => inr (normalize_build_directory W self d)
         | _ => inl (TypeError ("Field `" ++ layered_location self "directory"
                                ++ "` must be a string"))
         end
    /\ fst (dev_mode_dirs self s)
       = string_array "Directory" (layered_location self "dev-mode-dirs")
           (layered_value self "dev-mode-dirs" (VList []))
    /\ ((forall global, versions_value (with_build_config self global)
                        = versions_value self)
        /\ (dict_contains "versions" (target_config self) = false ->
            fst (versions self s)
            = inr (oset_extend [] (get_default_versions (builder self))))
        /\ (dict_get_default "versions" (VList []) (target_config self) = VList [] ->
            fst (versions self s)
            = inr (oset_extend [] (get_default_versions (builder self))))
        /\ (forall configured,
              dict_get_default "versions" (VList []) (target_config self)
                = VList (map VStr configured) ->
              configured <> [] ->
              Forall (fun v => v <> EmptyString
                               /\ In v (get_version_api (builder self)))
                configured ->
              exists vs,
                fst (versions self s) = inr vs /\ NoDup vs
                /\ (forall v, In v vs <-> In v configured)))
    /\ (forall from_target from_global,
          dict_get_default "dependencies" (VList []) (target_config self)
            = VList (map VStr from_target) ->
          dict_get_default "dependencies" (VList []) (build_config self)
            = VList (map VStr from_global) ->
          declared_dependencies self
            = inr (oset_extend (oset_extend [] from_target) from_global)
          /\ forall deps, fst (dependencies W self s) = inr deps ->
               (forall d, In d from_target \/ In d from_global -> In d deps)
               /\ exists hooks flag target_part global_part hook_part runtime_part,
                    fst (hook_config W self s) = inr hooks
                    /\ fst (require_runtime_dependencies self s) = inr flag
                    /\ deps = target_part ++ global_part ++ hook_part
                              ++ runtime_part
                    /\ NoDup deps
                    /\ (forall d, In d target_part <-> In d from_target)
                    /\ (forall d, In d global_part -> In d from_global)
                    /\ (forall d, In d hook_part -> hook_lists hooks d)
                    /\ (forall d, In d runtime_part ->
                          (flag = true \/ hook_requires_runtime hooks)
                          /\ In d (metadata_core_dependencies (builder self)))
                    /\ (forall d,
                          In d deps
                          <-> In d from_target \/ In d from_global
                              \/ hook_lists hooks d
                              \/ ((flag = true \/ hook_requires_runtime hooks)
                                  /\ In d (metadata_core_dependencies
                                             (builder self))))).
Proof.
  intros W self s Hs.
  split; [| split; [| split; [| split]]].
  - intros key default property Hin. cbn in Hin.
    rewrite <- bool_option_layered.
    destruct Hin as [[= <- <- <-] | [[= <- <- <-] | [[= <- <- <-]
                   | [[= <- <- <-] | [[= <- <- <-] | []]]]]].
    + exact (proj1 (@runs_ignore_vcs W self s Hs)).
    + exact (proj1 (@runs_require_runtime_dependencies W self s Hs)).
    + exact (proj1 (@runs_only_packages W self s Hs)).
    + exact (proj1 (@runs_reproducible W self s Hs)).
    + exact (proj1 (@runs_dev_mode_exact W self s Hs)).
  - rewrite <- directory_value_layered.
    exact (proj1 (@runs_directory W self s Hs)).
  - rewrite <- dev_mode_dirs_value_layered.
    exact (proj1 (@runs_dev_mode_dirs W self s Hs)).
  - split; [intros global; reflexivity |].
    split; [| split].
    + intros Habsent.
      rewrite (proj1 (@runs_versions W self s Hs)).
      unfold versions_value, dict_get_default.
      unfold dict_contains in Habsent.
      destruct (dict_get "versions" (target_config self)); [discriminate |].
      reflexivity.
    + intros Hempty.
      rewrite (proj1 (@runs_versions W self s Hs)).
      unfold versions_value. rewrite Hempty. reflexivity.
    + intros configured Hcfg Hsome Hknown.
      exists (oset_extend [] configured).
      split; [| split; [apply NoDup_oset_extend; constructor |]].
      * rewrite (proj1 (@runs_versions W self s Hs)).
        unfold versions_value. rewrite Hcfg. cbn [expect_list rbind].
        rewrite check_strings_nonempty
          by (eapply Forall_impl; [| exact Hknown]; cbn; tauto).
        cbn [rbind]. cbv zeta. rewrite nonempty_oset_extend.
        destruct configured as [| c cs]; [congruence |]. cbn [nonempty negb].
        destruct (unknown_versions self (oset_extend [] (c :: cs)))
          as [| u us] eqn:Eu; [reflexivity |].
        exfalso.
        assert (Hu : In u (unknown_versions self (oset_extend [] (c :: cs))))
          by (rewrite Eu; now left).
        unfold unknown_versions in Hu.
        apply In_sorted, filter_In in Hu as (Hin & Hnot).
        apply In_oset_extend in Hin as [[] | Hin].
        rewrite Forall_forall in Hknown.
        destruct (Hknown u Hin) as (_ & Hk).
        apply negb_true_iff, mem_false in Hnot. contradiction.
      * intros v. rewrite In_oset_extend. cbn. tauto.
  - intros from_target from_global Ht Hg.
    assert (Hdecl : declared_dependencies self
                    = inr (oset_extend (oset_extend [] from_target) from_global)).
    { unfold declared_dependencies. rewrite Ht, Hg. cbn [expect_list rbind].
      rewrite !check_strings_any. reflexivity. }
    split; [exact Hdecl |].
    intros deps Hdeps.
    rewrite (proj1 (@runs_dependencies W self s Hs)) in Hdeps.
    split.
    { intros d Hd. apply (@In_dependencies W self deps d Hdeps).
      eexists. split; [exact Hdecl |].
      rewrite !In_oset_extend. cbn. tauto. }
    rewrite (proj1 (@runs_hook_config W self s Hs)).
    rewrite (proj1 (@runs_require_runtime_dependencies W self s Hs)).
    unfold dependencies_value in Hdeps. rewrite Hdecl in Hdeps.
    cbn [rbind] in Hdeps.
    destruct (bool_option self "require-runtime-dependencies" false)
      as [e | flag]; cbn [rbind] in Hdeps; [discriminate |].
    destruct (hook_config_value W self) as [e | hooks]; cbn [rbind] in Hdeps;
      [discriminate |].
    destruct (hook_dependencies hooks flag _) as [e | [flag' deps']] eqn:Eh;
      cbn [rbind fst snd] in Hdeps; [discriminate |].
    injection Hdeps as <-.
    destruct (hook_dependencies_result _ _ _ Eh)
      as (Hnd & (hook_part & Hrest & Hhook) & Hin & Hflag).
    destruct (oset_extend_grows (oset_extend [] from_target) from_global)
      as (global_part & Hglobal & Hglobal_in).
    assert (Hdeclared : forall d,
              In d (oset_extend (oset_extend [] from_target) from_global)
              <-> In d from_target \/ In d from_global).
    { intros d. rewrite !In_oset_extend. cbn. tauto. }
    assert (Hnd' : NoDup deps')
      by (apply Hnd, NoDup_oset_extend, NoDup_oset_extend; constructor).
    exists hooks, flag, (oset_extend [] from_target), global_part, hook_part.
    destruct flag' eqn:Ef.
    + destruct (oset_extend_grows deps'
                  (metadata_core_dependencies (builder self)))
        as (runtime_part & Hruntime & Hruntime_in).
      assert (Hyes : flag = true \/ hook_requires_runtime hooks)
        by (apply Hflag; reflexivity).
      exists runtime_part.
      split; [reflexivity |]. split; [reflexivity |].
      split; [rewrite Hruntime, Hrest, Hglobal, <- !app_assoc; reflexivity |].
      split; [apply NoDup_oset_extend, Hnd' |].
      split; [intros d; rewrite In_oset_extend; cbn; tauto |].
      split; [exact Hglobal_in |]. split; [exact Hhook |].
      split; [intros d Hd; split; [exact Hyes | auto] |].
      intros d. rewrite In_oset_extend, Hin, Hdeclared. tauto.
    + assert (Hno : ~ (flag = true \/ hook_requires_runtime hooks)).
      { intros Hreq. apply Hflag in Hreq. discriminate. }
      exists [].
      split; [reflexivity |]. split; [reflexivity |].
      split; [rewrite Hrest, Hglobal, app_nil_r, <- !app_assoc; reflexivity |].
      split; [exact Hnd' |].
      split; [intros d; rewrite In_oset_extend; cbn; tauto |].
      split; [exact Hglobal_in |]. split; [exact Hhook |].
      split; [intros d [] |].
      intros d. rewrite Hin, Hdeclared. tauto.
Qed.

Lemma option_resolution_witness :
  coherent ex_world ex_layers init_state
  /\ fst (ignore_vcs ex_layers init_state) = inr true
  /\ fst (reproducible ex_layers init_state) = inr false
  /\ fst (only_packages ex_layers init_state) = inr false
  /\ fst (versions ex_layers init_state) = inr ["standard"]
  /\ fst (dependencies ex_world ex_layers init_state) = inr ["a"; "b"]
  /\ (forall deps,
        fst (dependencies ex_world ex_layers init_state) = inr deps ->
        In "a" deps /\ In "b" deps /\ NoDup deps).
Proof.
  destruct (@option_resolution ex_world ex_layers init_state
              (init_coherent ex_world ex_layers))
    as (H & _ & _ & (_ & Habsent & _) & Hdeps).
  split; [apply init_coherent |].
  split; [| split; [| split; [| split; [| split]]]].
  4: exact (Habsent eq_refl).
  4: reflexivity.
  4: { intros deps Hreturned.
       destruct (Hdeps ["a"] ["b"] eq_refl eq_refl) as (_ & Hparts).
       destruct (Hparts deps Hreturned)
         as (Hin & _ & _ & _ & _ & _ & _ & _ & _ & _ & Hnd & _).
       split; [apply Hin; cbn; auto |].
       split; [apply Hin; cbn; auto | exact Hnd]. }
  - rewrite (H "ignore-vcs" false (ignore_vcs ex_layers)) by (cbn; auto).
    reflexivity.
  - rewrite (H "reproducible" true (reproducible ex_layers)) by (cbn; auto 6).
    reflexivity.
  - rewrite (H "only-packages" false (only_packages ex_layers)) by (cbn; auto 6).
    reflexivity.
Defined.

(** C3 as stated fails for [versions] and [dependencies]: with no
    [versions] in the target's table the global list is not used, and with
    [dependencies] in the target's table the global list is used as well. *)
Lemma option_fallback_counterexample :
  (dict_contains "versions" (target_config ex_layers) = false
   /\ layered_value ex_layers "versions" (VList []) = VList [VStr "editable"]
   /\ fst (versions ex_layers init_state) = inr ["standard"]
   /\ fst (versions ex_layers init_state) <> inr ["editable"])
  /\ (dict_contains "dependencies" (target_config ex_layers) = true
      /\ layered_value ex_layers "dependencies" (VList []) = VList [VStr "a"]
      /\ fst (dependencies ex_world ex_layers init_state) = inr ["a"; "b"]
      /\ fst (dependencies ex_world ex_layers init_state) <> inr ["a"]).
Proof.
  split; (split; [reflexivity | split; [reflexivity | split; [reflexivity |]]]);
    discriminate.
Qed.

(** ** The source map *)

Lemma dict_get_In (V : Type) (k : string) (v : V) (d : list (string * V)) :
  NoDup (keys d) -> (dict_get k d = Some v <-> In (k, v) d).
Proof.
  induction d as [| [k' v'] d IH]; cbn; intros Hnd.
  - split; [discriminate | tauto].
  - inversion Hnd as [| ? ? Hnotin Hnd']; subst.
    destruct (k' =? k) eqn:E.
    + apply String.eqb_eq in E. subst k'. split.
      * intros [= ->]. auto.
      * intros [[= ->] | Hin]; [reflexivity |].
        exfalso. apply Hnotin. change k with (fst (k, v)). now apply in_map.
    + apply String.eqb_neq in E. rewrite (IH Hnd'). split; [auto |].
      intros [[= -> _] | Hin]; [congruence | exact Hin].
Qed.

Lemma dict_get_permutation (V : Type) (k : string) (d d' : list (string * V)) :
  NoDup (keys d) -> Permutation d d' -> dict_get k d = dict_get k d'.
Proof.
  intros Hnd Hp.
  assert (Hnd' : NoDup (keys d')).
  { eapply Permutation_NoDup; [apply Permutation_map, Hp | exact Hnd]. }
  destruct (dict_get k d) as [v |] eqn:E.
  - symmetry. apply (@dict_get_In V k v d' Hnd').
    eapply Permutation_in; [exact Hp |].
    now apply (@dict_get_In V k v d Hnd).
  - destruct (dict_get k d') as [v' |] eqn:E'; [| reflexivity].
    apply (@dict_get_In V k v' d' Hnd') in E'.
    apply (Permutation_in _ (Permutation_sym Hp)) in E'.
    apply (@dict_get_In V k v' d Hnd) in E'. congruence.
Qed.

Lemma NoDup_sources_from_list W location i raw acc explicit :
  sources_from_list W location i raw acc = inr explicit ->
  NoDup (keys acc) -> NoDup (keys explicit).
Proof.
  revert i acc. induction raw as [| x raw IH]; intros i acc H Hnd; cbn in H.
  - now injection H as <-.
  - destruct x; try discriminate.
    destruct (s =? EmptyString); [discriminate |].
    eapply IH; [exact H | apply NoDup_keys_dict_set, Hnd].
Qed.

Lemma NoDup_sources_from_dict W location i raw acc explicit :
  sources_from_dict W location i raw acc = inr explicit ->
  NoDup (keys acc) -> NoDup (keys explicit).
Proof.
  revert i acc. induction raw as [| [k x] raw IH]; intros i acc H Hnd; cbn in H.
  - now injection H as <-.
  - destruct (k =? EmptyString); [discriminate |].
    destruct x; try discriminate.
    eapply IH; [exact H | apply NoDup_keys_dict_set, Hnd].
Qed.

Lemma NoDup_explicit_sources W self explicit :
  explicit_sources W self = inr explicit -> NoDup (keys explicit).
Proof.
  unfold explicit_sources. destruct (select_config self "sources") as [cfg loc].
  destruct (dict_get_default "sources" (VList []) cfg); try discriminate; intros H.
  - eapply NoDup_sources_from_list; [exact H | constructor].
  - eapply NoDup_sources_from_dict; [exact H | constructor].
Qed.

Section PackageSources.
Variable W : World.

Lemma add_package_source_cases acc rp :
  add_package_source W acc rp
  = if str_nonempty (package_directory W rp)
       && negb (mem (normalize_relative_directory W rp) (keys acc))
    then dict_set (normalize_relative_directory W (package_directory W rp))
                  EmptyString acc
    else acc.
Proof.
  unfold add_package_source, package_directory.
  destruct (os_path_split W rp) as [d base]. cbn.
  now rewrite dict_contains_mem.
Qed.

Lemma keys_add_package_source k acc rp :
  In k (keys acc) -> In k (keys (add_package_source W acc rp)).
Proof.
  intros H. rewrite add_package_source_cases.
  destruct (_ && _); [| exact H].
  rewrite keys_dict_set. destruct (mem _ _); [exact H |].
  apply in_or_app. auto.
Qed.

Lemma keys_with_package_sources k pkgs acc :
  In k (keys acc) -> In k (keys (with_package_sources W pkgs acc)).
Proof.
  unfold with_package_sources. revert acc.
  induction pkgs as [| rp pkgs IH]; intros acc H; cbn; [exact H |].
  apply IH, keys_add_package_source, H.
Qed.

Lemma NoDup_with_package_sources pkgs acc :
  NoDup (keys acc) -> NoDup (keys (with_package_sources W pkgs acc)).
Proof.
  unfold with_package_sources. revert acc.
  induction pkgs as [| rp pkgs IH]; intros acc H; cbn; [exact H |].
  apply IH. rewrite add_package_source_cases.
  destruct (_ && _); [apply NoDup_keys_dict_set |]; exact H.
Qed.

(** A key the packages' directories do not name keeps its entry. *)
Lemma with_package_sources_untouched k pkgs acc :
  (forall rp, In rp pkgs ->
     normalize_relative_directory W (package_directory W rp) <> k) ->
  dict_get k (with_package_sources W pkgs acc) = dict_get k acc.
Proof.
  unfold with_package_sources. revert acc.
  induction pkgs as [| rp pkgs IH]; intros acc H; cbn; [reflexivity |].
  rewrite IH by (intros; apply H; cbn; auto).
  rewrite add_package_source_cases.
  destruct (_ && _); [| reflexivity].
  apply dict_get_set_neq. intros ->. exact (H rp (or_introl eq_refl) eq_refl).
Qed.

(** An empty replacement stays. *)
Lemma with_package_sources_empty_stays k pkgs acc :
  dict_get k acc = Some EmptyString ->
  dict_get k (with_package_sources W pkgs acc) = Some EmptyString.
Proof.
  unfold with_package_sources. revert acc.
  induction pkgs as [| rp pkgs IH]; intros acc H; cbn; [exact H |].
  apply IH. rewrite add_package_source_cases.
  destruct (_ && _); [| exact H].
  destruct (string_dec k (normalize_relative_directory W (package_directory W rp)))
    as [-> | Hne].
  - apply dict_get_set_eq.
  - rewrite dict_get_set_neq by exact Hne. exact H.
Qed.

Lemma with_package_sources_app before after acc :
  with_package_sources W (before ++ after) acc
  = with_package_sources W after (with_package_sources W before acc).
Proof. unfold with_package_sources. apply fold_left_app. Qed.

(** The directory of a package whose own path is no key when its turn comes
    is registered, and stays. *)
Lemma with_package_sources_turn before rp after acc :
  package_directory W rp <> EmptyString ->
  ~ In (normalize_relative_directory W rp)
       (keys (with_package_sources W before acc)) ->
  dict_get (normalize_relative_directory W (package_directory W rp))
           (with_package_sources W (before ++ rp :: after) acc)
  = Some EmptyString.
Proof.
  intros Hdir Hkey. rewrite with_package_sources_app.
  change (with_package_sources W (rp :: after) ?a)
    with (with_package_sources W after (add_package_source W a rp)).
  apply with_package_sources_empty_stays.
  rewrite add_package_source_cases.
  assert (Hd : str_nonempty (package_directory W rp) = true).
  { unfold str_nonempty. apply negb_true_iff, String.eqb_neq, Hdir. }
  rewrite Hd, (proj2 (mem_false _ _) Hkey). cbn. apply dict_get_set_eq.
Qed.

(** A package without a directory part, or whose own path is a key when its
    turn comes, registers nothing. *)
Lemma with_package_sources_skipped before rp acc :
  package_directory W rp = EmptyString
  \/ In (normalize_relative_directory W rp)
        (keys (with_package_sources W before acc)) ->
  with_package_sources W (before ++ [rp]) acc
  = with_package_sources W before acc.
Proof.
  intros H. rewrite with_package_sources_app.
  change (with_package_sources W [rp] ?a) with (add_package_source W a rp).
  rewrite add_package_source_cases.
  destruct H as [-> | H]; [reflexivity |].
  rewrite (proj2 (mem_In _ _) H), andb_false_r. reflexivity.
Qed.

(** A package whose own path is a key leaves its directory's entry alone. *)
Lemma with_package_sources_guarded rp pkgs acc :
  In (normalize_relative_directory W rp) (keys acc) ->
  (forall rp', In rp' pkgs -> rp' <> rp ->
     normalize_relative_directory W (package_directory W rp')
     <> normalize_relative_directory W (package_directory W rp)) ->
  dict_get (normalize_relative_directory W (package_directory W rp))
           (with_package_sources W pkgs acc)
  = dict_get (normalize_relative_directory W (package_directory W rp)) acc.
Proof.
  unfold with_package_sources. revert acc.
  induction pkgs as [| rp0 pkgs IH]; intros acc Hkey Hother; cbn; [reflexivity |].
  rewrite IH;
    [| apply keys_add_package_source, Hkey | intros; apply Hother; cbn; auto].
  rewrite add_package_source_cases.
  destruct (string_dec rp0 rp) as [-> | Hne].
  - rewrite (proj2 (mem_In _ _) Hkey), andb_false_r. reflexivity.
  - destruct (_ && _); [| reflexivity].
    apply dict_get_set_neq. intros E. symmetry in E. revert E.
    apply Hother; cbn; auto.
Qed.

(** Every entry is an explicit one or the empty replacement of a package's
    directory. *)
Lemma with_package_sources_origin k v pkgs acc :
  dict_get k (with_package_sources W pkgs acc) = Some v ->
  dict_get k acc = Some v
  \/ (v = EmptyString
      /\ exists rp, In rp pkgs /\ package_directory W rp <> EmptyString
                    /\ k = normalize_relative_directory W (package_directory W rp)).
Proof.
  unfold with_package_sources. revert acc.
  induction pkgs as [| rp pkgs IH]; intros acc H; cbn in *; [auto |].
  destruct (IH _ H) as [Hacc | (-> & rp' & Hin & Hdir & ->)].
  - rewrite add_package_source_cases in Hacc.
    destruct (str_nonempty (package_directory W rp)) eqn:Ed; cbn in Hacc; [| auto].
    destruct (negb _); cbn in Hacc; [| auto].
    destruct (string_dec k (normalize_relative_directory W (package_directory W rp)))
      as [-> | Hne].
    + rewrite dict_get_set_eq in Hacc. injection Hacc as <-.
      right. split; [reflexivity |]. exists rp. split; [auto |]. split; [| reflexivity].
      unfold str_nonempty in Ed. now apply negb_true_iff, String.eqb_neq in Ed.
    + rewrite dict_get_set_neq in Hacc by exact Hne. auto.
  - right. split; [reflexivity |]. exists rp'. auto.
Qed.
End PackageSources.

Lemma sources_first_access W self s explicit pkgs :
  __sources s = None ->
  explicit_sources W self = inr explicit ->
  fst (packages W self s) = inr pkgs ->
  fst (sources W self s)
  = inr (sorted item_leb (with_package_sources W pkgs explicit)).
Proof.
  intros Hnone Hexp Hpk. unfold sources, memoized. rewrite Hnone.
  unfold bind, lift. rewrite Hexp.
  destruct (packages W self s) as [[e | pk] s1]; cbn in *; [discriminate |].
  injection Hpk as ->. reflexivity.
Qed.

Lemma keys_sorted_iff (k : string) (l : list (string * string)) :
  In k (keys (sorted item_leb l)) <-> In k (keys l).
Proof.
  split; apply Permutation_in, Permutation_map;
    [| symmetry]; apply sorted_perm.
Qed.

(** C4, amended. At the first access of [sources], once the explicit
    entries are registered, the packages are taken in order, and for a
    package whose path has a directory part the guard looks for the package's
    own path (as a normalized directory) among the keys the map has when the
    package's turn comes, not for the directory:
    - when the package's own path is no key of the map at its turn (the
      explicit entries and those of the packages before it), its directory
      is registered with the empty replacement, also over an explicit entry
      of that directory, and the result has it so;
    - a package without a directory part, or whose own path is a key of the
      map at its turn, changes nothing at its turn;
    - when the package's own path is a key of the explicit map and no other
      package lies in a directory of the same name, the entry of the
      directory, explicit or absent, is left as it is;
    - an entry whose key is the directory of no package is left as it is;
    - every entry of the result is an explicit one or the empty replacement
      of a package's directory. *)
Theorem implicit_package_sources :
  forall (W : World) (self : BuilderConfig) (s : state)
         (explicit : list (string * string)) (pkgs : list string),
    __sources s = None ->
    explicit_sources W self = inr explicit ->
    fst (packages W self s) = inr pkgs ->
    let directory_of rp := normalize_relative_directory W (package_directory W rp) in
    exists final,
      fst (sources W self s) = inr final
      /\ (forall before rp after,
            pkgs = before ++ rp :: after ->
            package_directory W rp <> EmptyString ->
            ~ In (normalize_relative_directory W rp)
                 (keys (with_package_sources W before explicit)) ->
            dict_get (directory_of rp) final = Some EmptyString)
      /\ (forall before rp after,
            pkgs = before ++ rp :: after ->
            package_directory W rp = EmptyString
            \/ In (normalize_relative_directory W rp)
                  (keys (with_package_sources W before explicit)) ->
            with_package_sources W (before ++ [rp]) explicit
            = with_package_sources W before explicit)
      /\ (forall rp,
            In rp pkgs ->
            In (normalize_relative_directory W rp) (keys explicit) ->
            (forall rp', In rp' pkgs -> rp' <> rp ->
               directory_of rp' <> directory_of rp) ->
            dict_get (directory_of rp) final = dict_get (directory_of rp) explicit)
      /\ (forall k,
            (forall rp, In rp pkgs -> directory_of rp <> k) ->
            dict_get k final = dict_get k explicit)
      /\ (forall k v,
            dict_get k final = Some v ->
            dict_get k explicit = Some v
            \/ (v = EmptyString
                /\ exists rp, In rp pkgs /\ package_directory W rp <> EmptyString
                              /\ k = directory_of rp)).
Proof.
  intros W self s explicit pkgs Hnone Hexp Hpk directory_of.
  exists (sorted item_leb (with_package_sources W pkgs explicit)).
  split; [now apply sources_first_access |].
  assert (Hnd : NoDup (keys (with_package_sources W pkgs explicit))).
  { apply NoDup_with_package_sources. eapply NoDup_explicit_sources, Hexp. }
  assert (Hget : forall k,
            dict_get k (sorted item_leb (with_package_sources W pkgs explicit))
            = dict_get k (with_package_sources W pkgs explicit)).
  { intros k. symmetry. apply dict_get_permutation; [exact Hnd |].
    symmetry. apply sorted_perm. }
  split; [| split; [| split; [| split]]].
  - intros before rp after -> Hdir Hkey. rewrite Hget.
    now apply with_package_sources_turn.
  - intros before rp after _ Hskip.
    now apply with_package_sources_skipped.
  - intros rp Hin Hkey Hother. rewrite Hget.
    now apply with_package_sources_guarded.
  - intros k Hk. rewrite Hget. now apply with_package_sources_untouched.
  - intros k v Hk. rewrite Hget in Hk.
    now apply with_package_sources_origin.
Qed.

Lemma implicit_package_sources_witness :
  (exists final,
     fst (sources ex_world ex_sources init_state) = inr final
     /\ dict_get "lib/" final = Some EmptyString
     /\ dict_get "src/" final = None)
  /\ (exists final,
        fst (sources ex_world ex_nested_packages init_state) = inr final
        /\ final = [("a/", EmptyString); ("a/b/", EmptyString)]
        /\ dict_get "a/" final = Some EmptyString
        /\ dict_get "a/b/" final = Some EmptyString).
Proof.
  split.
  - destruct (@implicit_package_sources ex_world ex_sources init_state
                [("src/pkg/", "renamed/")] ["lib/other"; "src/pkg"]
                eq_refl eq_refl eq_refl)
      as (final & Hfinal & Hreg & _ & Hguard & _).
    exists final. split; [exact Hfinal |]. split.
    + apply (Hreg [] "lib/other" ["src/pkg"]);
        [reflexivity | discriminate |].
      cbn. intuition discriminate.
    + apply (Hguard "src/pkg"); [cbn; auto | cbn; auto |].
      intros rp' [<- | [<- | []]] Hne; [discriminate | congruence].
  - destruct (@implicit_package_sources ex_world ex_nested_packages init_state
                [] ["a/b"; "a/b/c"] eq_refl eq_refl eq_refl)
      as (final & Hfinal & Hreg & _).
    exists final. split; [exact Hfinal |].
    split; [vm_compute in Hfinal; now injection Hfinal as <- |].
    split.
    + apply (Hreg [] "a/b" ["a/b/c"]); [reflexivity | discriminate |].
      cbn. tauto.
    + apply (Hreg ["a/b"] "a/b/c" []); [reflexivity | discriminate |].
      vm_compute. intuition discriminate.
Defined.

(** C4 as stated fails: the directory [src/] is already present, with the
    explicit replacement [lib/], and the implicit registration overwrites it. *)
Lemma implicit_source_counterexample :
  explicit_sources ex_world ex_overwritten = inr [("src/", "lib/")]
  /\ fst (packages ex_world ex_overwritten init_state) = inr ["src/pkg"]
  /\ os_path_split ex_world "src/pkg" = ("src", "pkg")
  /\ fst (sources ex_world ex_overwritten init_state) = inr [("src/", EmptyString)]
  /\ fst (get_distribution_path ex_world ex_overwritten "src/pkg/mod.py" init_state)
     = inr "pkg/mod.py".
Proof. repeat split. Qed.

(** ** Distribution paths *)

Lemma prefix_app (a rest : string) : prefix a (a ++ rest) = true.
Proof.
  induction a as [| c a IH]; cbn; [now destruct rest |].
  destruct (ascii_dec c c); [exact IH | congruence].
Qed.

Lemma drop_app (a rest : string) : drop (String.length a) (a ++ rest) = rest.
Proof. induction a as [| c a IH]; cbn; [reflexivity | exact IH]. Qed.

Lemma prefix_split (a s : string) :
  prefix a s = true -> s = (a ++ drop (String.length a) s)%string.
Proof.
  revert s. induction a as [| c a IH]; intros s H; cbn; [reflexivity |].
  destruct s as [| c' s]; cbn in H; [discriminate |].
  destruct (ascii_dec c c') as [<- |]; [| discriminate].
  cbn. f_equal. now apply IH.
Qed.

Lemma replace_first_prefix (old new s : string) :
  prefix old s = true ->
  replace_first old new s = (new ++ drop (String.length old) s)%string.
Proof. intros H. destruct s; cbn [replace_first]; now rewrite H. Qed.

Lemma first_source_match_find (srcs : list (string * string)) (p : string) :
  first_source_match srcs p
  = match find (fun entry => prefix (fst entry) p) srcs with
    | Some (source, replacement) =>
        (replacement ++ drop (String.length source) p)%string
    | None => p
    end.
Proof.
  induction srcs as [| [source replacement] srcs IH]; cbn; [reflexivity |].
  unfold startswith. destruct (prefix source p) eqn:E; [| exact IH].
  now apply replace_first_prefix.
Qed.

Lemma find_first (A : Type) (f : A -> bool) before x after :
  Forall (fun a => f a = false) before -> f x = true ->
  find f (before ++ x :: after) = Some x.
Proof.
  induction before as [| b before IH]; cbn; intros Hb Hx.
  - now rewrite Hx.
  - inversion Hb as [| ? ? Hfb Hb']; subst. rewrite Hfb. now apply IH.
Qed.

Lemma find_none (A : Type) (f : A -> bool) l :
  Forall (fun a => f a = false) l -> find f l = None.
Proof.
  induction l as [| b l IH]; cbn; intros Hb; [reflexivity |].
  inversion Hb as [| ? ? Hfb Hb']; subst. rewrite Hfb. now apply IH.
Qed.

Lemma item_leb_total a b : item_leb a b = true \/ item_leb b a = true.
Proof.
  unfold item_leb. rewrite (String.compare_antisym (fst b) (fst a)).
  destruct (String.compare (fst a) (fst b)); cbn; auto.
  apply String.leb_total.
Qed.

Lemma item_leb_key a b :
  item_leb a b = true -> String.leb (fst a) (fst b) = true.
Proof.
  unfold item_leb, String.leb.
  destruct (String.compare (fst a) (fst b)); auto.
Qed.

Lemma Sorted_weaken (A : Type) (R R' : A -> A -> Prop) l :
  (forall a b, R a b -> R' a b) -> Sorted R l -> Sorted R' l.
Proof.
  intros HR. induction 1 as [| a l Hs IH Hhd]; constructor; [exact IH |].
  destruct Hhd; constructor; auto.
Qed.

(** The computed source map is strictly ascending by key. *)
Lemma sources_value_sorted W self srcs :
  sources_value W self = inr srcs ->
  StronglySorted (fun a b => str_lt (fst a) (fst b)) srcs.
Proof.
  unfold sources_value. intros H.
  destruct (explicit_sources W self) as [e | explicit] eqn:Ee; cbn in H;
    [discriminate |].
  destruct (packages_value W self) as [e | pkgs]; cbn in H; [discriminate |].
  injection H as <-.
  apply sorted_by_key_strict.
  - eapply Sorted_weaken; [| apply sorted_Sorted, item_leb_total].
    intros a b. apply item_leb_key.
  - eapply Permutation_NoDup.
    + apply Permutation_map. symmetry. apply sorted_perm.
    + apply (NoDup_with_package_sources W pkgs).
      eapply NoDup_explicit_sources, Ee.
Qed.

(** C6. On coherent attributes, when [sources] returns the map [srcs]:
    [srcs] is strictly ascending by key, and for every path
    [get_distribution_path] returns the path with the first key of [srcs],
    in that order, that is a prefix of it replaced, at the front and once, by
    that key's replacement; a path no key is a prefix of is returned
    unchanged.  An exception of [sources] is the exception of the call. *)
Theorem get_distribution_path_first_match :
  forall (W : World) (self : BuilderConfig) (s : state) (p : string),
    coherent W self s ->
    (forall e, fst (sources W self s) = inl e ->
       fst (get_distribution_path W self p s) = inl e)
    /\ (forall srcs,
          fst (sources W self s) = inr srcs ->
          StronglySorted (fun a b => str_lt (fst a) (fst b)) srcs
          /\ (forall before source replacement after rest,
                srcs = before ++ (source, replacement) :: after ->
                Forall (fun entry => prefix (fst entry) p = false) before ->
                p = (source ++ rest)%string ->
                fst (get_distribution_path W self p s)
                = inr (replacement ++ rest)%string)
          /\ (Forall (fun entry => prefix (fst entry) p = false) srcs ->
              fst (get_distribution_path W self p s) = inr p)).
Proof.
  intros W self s p Hs.
  destruct (@runs_sources W self s Hs) as (Hsrc & _ & _).
  destruct (@get_distribution_path_runs W self p s Hs) as (Hrun & _ & _).
  rewrite Hrun, Hsrc. clear Hrun Hsrc.
  split.
  - intros e ->. reflexivity.
  - intros srcs Hv. rewrite Hv. cbn. rewrite first_source_match_find.
    split; [now apply (sources_value_sorted W self) |]. split.
    + intros before source replacement after rest -> Hbefore ->.
      rewrite (@find_first _ (fun entry => prefix (fst entry) (source ++ rest))
                 before (source, replacement) after Hbefore (prefix_app _ _)).
      now rewrite drop_app.
    + intros Hnone. now rewrite find_none.
Qed.

Lemma get_distribution_path_first_match_witness :
  fst (get_distribution_path ex_world ex_sources "src/pkg/mod.py" init_state)
    = inr "renamed/mod.py"
  /\ fst (get_distribution_path ex_world ex_sources "lib/other/a.py" init_state)
     = inr "other/a.py"
  /\ fst (get_distribution_path ex_world ex_sources "docs/index.md" init_state)
     = inr "docs/index.md".
Proof.
  split; [| split].
  - destruct (@get_distribution_path_first_match ex_world ex_sources init_state
                "src/pkg/mod.py" (init_coherent _ _)) as (_ & H).
    destruct (H [("lib/", EmptyString); ("src/pkg/", "renamed/")] eq_refl)
      as (_ & Hfirst & _).
    apply (Hfirst [("lib/", EmptyString)] "src/pkg/" "renamed/" [] "mod.py");
      [reflexivity | repeat constructor | reflexivity].
  - destruct (@get_distribution_path_first_match ex_world ex_sources init_state
                "lib/other/a.py" (init_coherent _ _)) as (_ & H).
    destruct (H [("lib/", EmptyString); ("src/pkg/", "renamed/")] eq_refl)
      as (_ & Hfirst & _).
    apply (Hfirst [] "lib/" EmptyString [("src/pkg/", "renamed/")] "other/a.py");
      [reflexivity | constructor | reflexivity].
  - destruct (@get_distribution_path_first_match ex_world ex_sources init_state
                "docs/index.md" (init_coherent _ _)) as (_ & H).
    destruct (H [("lib/", EmptyString); ("src/pkg/", "renamed/")] eq_refl)
      as (_ & _ & Hnone).
    apply Hnone. repeat constructor.
Defined.

(** ** Package roots in the include spec *)




(** What a list compiles to, when it compiles, and when it does. *)
Lemma compile_spec_returns W all_patterns spec :
  compile_spec W all_patterns = inr spec -> spec = spec_of all_patterns.
Proof.
  unfold compile_spec, spec_of, PathSpec_from_lines.
  destruct (nonempty all_patterns); [| now intros [= <-]].
  destruct (first_pattern_error W all_patterns); [discriminate |].
  now intros [= <-].
Qed.

Lemma compile_spec_accepted W all_patterns :
  first_pattern_error W all_patterns = None ->
  compile_spec W all_patterns = inr (spec_of all_patterns).
Proof.
  intros Hok. unfold compile_spec, spec_of, PathSpec_from_lines. rewrite Hok.
  destruct (nonempty all_patterns); reflexivity.
Qed.

Lemma include_patterns_value_layered W self :
  include_patterns_value W self
  = rbind (string_array "Pattern" (layered_location self "include")
             (layered_value self "include" (VList [])))
          (fun configured =>
             rbind (packages_value W self)
                   (fun pkgs => inr (configured ++ map (package_pattern W) pkgs))).
Proof.
  unfold include_patterns_value, layered_value, layered_location, select_config,
    target_location, global_location, default_include.
  destruct (dict_contains "include" (target_config self)); reflexivity.
Qed.

(** *** Plain directory patterns in the gitignore fragment *)
















Example path_outside_package_not_included :
  fst (path_is_included ex_world ex_packages "README.md" init_state) = inr false.
Proof. reflexivity. Qed.

(** ** Exceptions and the cache *)

Lemma fails_clean_lift A (r : result A) : fails_clean (lift r).
Proof. intros s e s' [= _ <-]. reflexivity. Qed.

Lemma fails_clean_lift_bind A B (r : result A) (f : A -> M B) :
  (forall a, fails_clean (f a)) -> fails_clean (bind (lift r) f).
Proof.
  intros Hf s e s'. unfold bind, lift. destruct r as [e' | a].
  - intros [= _ <-]. reflexivity.
  - apply Hf.
Qed.

Lemma fails_clean_bind_ret A B (m : M A) (g : A -> B) :
  fails_clean m -> fails_clean (bind m (fun a => ret (g a))).
Proof.
  intros Hm s e s'. unfold bind, ret.
  destruct (m s) as [[e' | a] s1] eqn:E; [| discriminate].
  intros [= <- <-]. exact (Hm _ _ _ E).
Qed.

Lemma memoized_raises A get put (compute : M A) s e s' :
  memoized get put compute s = (inl e, s') ->
  get s = None /\ compute s = (inl e, s').
Proof.
  unfold memoized. destruct (get s); [discriminate |].
  destruct (compute s) as [[e' | a] s1]; [| discriminate].
  intros [= <- <-]. auto.
Qed.

Lemma memoized_spec_raises from_lines gp pp gs ps compute s e s' :
  memoized_spec from_lines gp pp gs ps compute s = (inl e, s') ->
  gp s = None
  /\ (compute s = (inl e, s')
      \/ exists all_patterns,
           compute s = (inr all_patterns, s')
           /\ all_patterns <> [] /\ from_lines all_patterns = inl e).
Proof.
  unfold memoized_spec. destruct (gp s); [discriminate |].
  destruct (compute s) as [[e' | all_patterns] s1].
  - intros [= <- <-]. auto.
  - destruct all_patterns as [| line rest]; [discriminate |]. cbn [nonempty].
    destruct (from_lines (line :: rest)) as [e' | spec] eqn:Ef; [| discriminate].
    intros [= <- <-]. split; [reflexivity |]. right.
    exists (line :: rest). split; [reflexivity |]. split; [discriminate | exact Ef].
Qed.

Lemma fails_clean_memoized A get put (compute : M A) :
  fails_clean compute -> fails_clean (memoized get put compute).
Proof.
  intros Hc s e s' H. apply memoized_raises in H as (_ & H). exact (Hc _ _ _ H).
Qed.

Lemma outcome_raises A (m : M A) s e s' :
  outcome m s = (Some e, s') <-> m s = (inl e, s').
Proof.
  unfold outcome. destruct (m s) as [[e' | a] s1]; split;
    intros [= ]; subst; reflexivity.
Qed.

Ltac clean_leaf := apply fails_clean_memoized, fails_clean_lift.

Lemma fails_clean_packages W self : fails_clean (packages W self).
Proof. clean_leaf. Qed.

(** [artifact_spec] computes its list from the tables alone: when the list
    or its compilation raises, nothing was cached. *)
Lemma fails_clean_artifact_spec W self : fails_clean (artifact_spec W self).
Proof.
  intros s e s' H. unfold artifact_spec in H.
  apply memoized_spec_raises in H as (_ & H).
  destruct (select_config self "artifacts") as [cfg loc].
  unfold lift in H.
  destruct H as [H | (all_patterns & H & _)]; now injection H.
Qed.

Lemma fails_clean_sources W self : fails_clean (sources W self).
Proof.
  apply fails_clean_memoized, fails_clean_lift_bind. intros explicit.
  apply fails_clean_bind_ret, fails_clean_packages.
Qed.

(** Every property but [dependencies], [include_spec] and [exclude_spec]
    raises with the attributes untouched. *)
Lemma access_fails_clean W self p s e s' :
  p <> PDependencies -> p <> PIncludeSpec -> p <> PExcludeSpec ->
  access W self p s = (Some e, s') -> s' = s.
Proof.
  intros Hd Hi Hx H. destruct p; cbn in H; apply outcome_raises in H;
    try congruence; revert H.
  - apply fails_clean_artifact_spec.
  - clean_leaf.
  - clean_leaf.
  - apply fails_clean_sources.
  - clean_leaf.
  - clean_leaf.
  - clean_leaf.
  - clean_leaf.
  - clean_leaf.
  - clean_leaf.
  - clean_leaf.
  - clean_leaf.
  - clean_leaf.
Qed.

Lemma access_raises_unset W self p s e s' :
  access W self p s = (Some e, s') -> unset p s.
Proof.
  intros H. destruct p; cbn in *; apply outcome_raises in H;
    first [ apply memoized_raises in H as (H & _)
          | apply memoized_spec_raises in H as (H & _) ];
    exact H.
Qed.

Ltac case_hyp H :=
  match type of H with
  | context [match ?x with _ => _ end] =>
      lazymatch x with
      | context [match _ with _ => _ end] => fail
      | _ => destruct x eqn:?
      end
  end.

Ltac rewrite_known :=
  repeat match goal with
         | E : ?x = _ |- context [?x] => rewrite E
         end.

(** [dependencies] reads [require_runtime_dependencies] and [hook_config]
    before it checks the hooks' options: an exception raised after that
    leaves those two cached, and nothing else changed. *)
Lemma dependencies_raises W self s e s' :
  dependencies W self s = (inl e, s') ->
  (exists hooks flag,
     s' = set_hook_config hooks (set_require_runtime_dependencies flag s))
  /\ dependencies W self s' = (inl e, s').
Proof.
  intros H. apply memoized_raises in H as (Hnone & H).
  unfold bind, lift, ret, require_runtime_dependencies, hook_config, memoized in H.
  repeat (case_hyp H; cbn in H; try discriminate);
    injection H as <- <-;
    (split;
     [ match goal with
       | |- exists hooks flag, ?sx = _ =>
           exists (__hook_config sx), (__require_runtime_dependencies sx)
       end;
       destruct s; reflexivity
     | unfold dependencies, require_runtime_dependencies, hook_config;
       unfold memoized, bind, lift, ret;
       cbn; rewrite_known; cbn; rewrite_known; reflexivity ]).
Qed.

(** [include_spec] reads [packages] before it compiles the patterns: when
    the pattern factory refuses one, [packages] stays cached, and nothing
    else changed. *)
Lemma include_spec_raises W self s e s' :
  include_spec W self s = (inl e, s') ->
  (exists pkgs, s' = set_packages pkgs s)
  /\ include_spec W self s' = (inl e, s').
Proof.
  intros H. unfold include_spec, memoized_spec in H.
  destruct (select_config self "include") as [cfg loc] eqn:Esel.
  unfold bind, lift, ret, packages, memoized in H.
  repeat (case_hyp H; cbn in H; try discriminate);
    injection H as <- <-;
    (split;
     [ match goal with
       | |- exists pkgs, ?sx = _ => exists (__packages sx)
       end;
       destruct s; reflexivity
     | unfold include_spec, memoized_spec, packages, memoized, bind, lift, ret;
       rewrite Esel; cbn; rewrite_known; cbn; rewrite_known; reflexivity ]).
Qed.

(** [exclude_spec] reads [ignore_vcs] before it reads the ignore file and
    compiles the patterns: when one of these raises, [ignore_vcs] stays
    cached, and nothing else changed. *)
Lemma exclude_spec_raises W self s e s' :
  exclude_spec W self s = (inl e, s') ->
  (exists no_vcs, s' = set_ignore_vcs no_vcs s)
  /\ exclude_spec W self s' = (inl e, s').
Proof.
  intros H. unfold exclude_spec, memoized_spec in H.
  destruct (select_config self "exclude") as [cfg loc] eqn:Esel.
  unfold bind, lift, ret, ignore_vcs, memoized in H.
  repeat (case_hyp H; cbn in H; try discriminate);
    injection H as <- <-;
    (split;
     [ match goal with
       | |- exists no_vcs, ?sx = _ => exists (__ignore_vcs sx)
       end;
       destruct s; reflexivity
     | unfold exclude_spec, memoized_spec, ignore_vcs, memoized, bind, lift, ret;
       rewrite Esel; cbn; rewrite_known; cbn; rewrite_known; reflexivity ]).
Qed.

(** C10, amended. When an access of a memoized property raises:
    - the attribute that guards the property is still unset, and the same
      access repeated on the attributes left behind raises the same exception
      and leaves them as they are;
    - for every property but [dependencies], [include_spec] and
      [exclude_spec] the attributes are exactly those before the access;
    - for [dependencies] the attributes differ from those before the access
      at most in the cached [require_runtime_dependencies] and [hook_config],
      which the property reads, and caches, before it checks the hooks'
      options;
    - for [include_spec] they differ at most in the cached [packages], read
      before the patterns are compiled, and for [exclude_spec] at most in the
      cached [ignore_vcs], read before the ignore file is read and the
      patterns are compiled. *)
Theorem failed_access_repeats :
  forall (W : World) (self : BuilderConfig) (p : property)
         (s s' : state) (e : exn),
    access W self p s = (Some e, s') ->
    unset p s'
    /\ access W self p s' = (Some e, s')
    /\ (p <> PDependencies -> p <> PIncludeSpec -> p <> PExcludeSpec -> s' = s)
    /\ (p = PDependencies ->
        exists hooks flag,
          s' = set_hook_config hooks (set_require_runtime_dependencies flag s))
    /\ (p = PIncludeSpec -> exists pkgs, s' = set_packages pkgs s)
    /\ (p = PExcludeSpec -> exists no_vcs, s' = set_ignore_vcs no_vcs s).
Proof.
  intros W self p s s' e H.
  assert (Hcases : p = PDependencies \/ p = PIncludeSpec \/ p = PExcludeSpec
                   \/ (p <> PDependencies /\ p <> PIncludeSpec
                       /\ p <> PExcludeSpec))
    by (destruct p; auto; right; right; right; repeat split; discriminate).
  destruct Hcases as [-> | [-> | [-> | (Hd & Hi & Hx)]]].
  - cbn in H. apply outcome_raises in H.
    destruct (@dependencies_raises W self s e s' H) as (Hchanged & Hagain).
    assert (Hacc : access W self PDependencies s' = (Some e, s'))
      by (cbn; apply outcome_raises, Hagain).
    split; [exact (@access_raises_unset W self PDependencies s' e s' Hacc) |].
    split; [exact Hacc |].
    split; [congruence |]. split; [auto |]. split; discriminate.
  - cbn in H. apply outcome_raises in H.
    destruct (@include_spec_raises W self s e s' H) as (Hchanged & Hagain).
    assert (Hacc : access W self PIncludeSpec s' = (Some e, s'))
      by (cbn; apply outcome_raises, Hagain).
    split; [exact (@access_raises_unset W self PIncludeSpec s' e s' Hacc) |].
    split; [exact Hacc |].
    split; [congruence |]. split; [discriminate |]. split; [auto | discriminate].
  - cbn in H. apply outcome_raises in H.
    destruct (@exclude_spec_raises W self s e s' H) as (Hchanged & Hagain).
    assert (Hacc : access W self PExcludeSpec s' = (Some e, s'))
      by (cbn; apply outcome_raises, Hagain).
    split; [exact (@access_raises_unset W self PExcludeSpec s' e s' Hacc) |].
    split; [exact Hacc |].
    split; [congruence |]. split; [discriminate |]. split; [discriminate | auto].
  - pose proof (@access_fails_clean W self p s e s' Hd Hi Hx H) as ->.
    split; [exact (@access_raises_unset W self p s e s H) |].
    split; [exact H |]. split; [reflexivity |].
    split; [| split]; intros; congruence.
Qed.

Lemma failed_access_repeats_witness :
  (access ex_world ex_bad_patterns PIncludeSpec init_state
     = (Some (TypeError
                "Pattern #2 in field `tool.hatch.build.targets.wheel.include` must be a string"),
        init_state)
   /\ unset PIncludeSpec init_state)
  /\ (exists s',
        access ex_world ex_refused_pattern PIncludeSpec init_state
        = (Some (ValueError "Invalid git pattern: '!'"), s')
        /\ access ex_world ex_refused_pattern PIncludeSpec s'
           = (Some (ValueError "Invalid git pattern: '!'"), s')
        /\ __include_patterns s' = None
        /\ exists pkgs, s' = set_packages pkgs init_state).
Proof.
  split.
  - assert (H : access ex_world ex_bad_patterns PIncludeSpec init_state
                = (Some (TypeError
                     "Pattern #2 in field `tool.hatch.build.targets.wheel.include` must be a string"),
                   init_state)) by reflexivity.
    destruct (@failed_access_repeats _ _ _ _ _ _ H) as (Hunset & Hagain & _).
    split; [exact Hagain | exact Hunset].
  - eexists.
    assert (H : access ex_world ex_refused_pattern PIncludeSpec init_state
                = (Some (ValueError "Invalid git pattern: '!'"),
                   set_packages (Some ["src/pkg"]) init_state)) by reflexivity.
    destruct (@failed_access_repeats _ _ _ _ _ _ H)
      as (Hunset & Hagain & _ & _ & Hpk & _).
    split; [exact H |]. split; [exact Hagain |]. split; [exact Hunset |].
    exact (Hpk eq_refl).
Defined.

(** C10 as stated fails for [dependencies]: the access raises a
    [TypeError], and two cached attributes that were unset before it are set
    after it.  It fails for [include_spec] as well: the pattern factory
    refuses the line [!] after [packages] was read, and cached. *)
Lemma cache_unchanged_counterexample :
  (exists s',
     access ex_world ex_bad_hook PDependencies init_state
     = (Some (TypeError "Option `dependencies` of build hook `custom` must be an array"),
        s')
     /\ __hook_config init_state = None
     /\ __hook_config s' = Some [("custom", [("dependencies", VInt 5)])]
     /\ __require_runtime_dependencies init_state = None
     /\ __require_runtime_dependencies s' = Some false
     /\ s' <> init_state)
  /\ (exists s',
        access ex_world ex_refused_pattern PIncludeSpec init_state
        = (Some (ValueError "Invalid git pattern: '!'"), s')
        /\ __packages init_state = None
        /\ __packages s' = Some ["src/pkg"]
        /\ s' <> init_state).
Proof.
  split.
  - eexists. split; [reflexivity |].
    repeat (split; [reflexivity |]). discriminate.
  - eexists. split; [reflexivity |].
    repeat (split; [reflexivity |]). discriminate.
Qed.

(** ** The worked examples of the specification *)

Example negation_round_trip :
  match_file ex_world (from_lines ["*.txt"; "!keep.txt"]) "notes.txt" = true
  /\ match_file ex_world (from_lines ["*.txt"; "!keep.txt"]) "keep.txt" = false.
Proof. split; reflexivity. Qed.

Example only_packages_excludes_other_files :
  let project :=
    mkBuilderConfig ex_builder "/proj" "wheel"
      [("only-packages", VBool true); ("include", VList [VStr "*.py"])] [] in
  fst (include_path ex_world project "tool.py" false init_state) = inr false
  /\ fst (include_path ex_world project "tool.py" true init_state) = inr true.
Proof. split; reflexivity. Qed.

Example source_map_strips_src :
  let project :=
    mkBuilderConfig ex_builder "/proj" "wheel"
      [("sources", VDict [("src/", VStr EmptyString)]);
       ("packages", VList [VStr "src/pkg"])] [] in
  fst (get_distribution_path ex_world project "src/pkg/mod.py" init_state)
    = inr "pkg/mod.py"
  /\ fst (get_distribution_path ex_world project "docs/index.md" init_state)
     = inr "docs/index.md".
Proof. split; reflexivity. Qed.

Example disable_all_hooks :
  let world := posix_world [("HATCH_BUILD_NO_HOOKS", "true");
                            ("HATCH_BUILD_HOOKS_ENABLE", "1")] None in
  fst (hook_config world ex_hooks init_state) = inr [].
Proof. reflexivity. Qed.

Example overlay_is_isolated :
  let inside := get_force_include ex_world ex_artifacts in
  fst (set_build_data ex_world ex_artifacts ex_build_data inside init_state)
    = inr [("/proj/extra.txt", "pkg/extra.txt")]
  /\ fst (inside (snd (set_build_data ex_world ex_artifacts ex_build_data inside
                         init_state))) = inr [].
Proof. split; reflexivity. Qed.

Example second_access_returns_the_cache :
  let first := packages ex_world ex_sources init_state in
  packages ex_world ex_sources (snd first) = (fst first, snd first)
  /\ fst first = inr ["lib/other"; "src/pkg"].
Proof. split; reflexivity. Qed.

(** * Further properties of the code *)

(** ** Memoization *)

Lemma memoized_again A (get : state -> option A) put (compute : M A) s v s1 :
  (forall a s0, get (put (Some a) s0) = Some a) ->
  memoized get put compute s = (inr v, s1) ->
  memoized get put compute s1 = (inr v, s1).
Proof.
  intros Hgp. unfold memoized.
  destruct (get s) as [a |] eqn:Eg.
  - intros [= <- <-]. now rewrite Eg.
  - destruct (compute s) as [[e | a] s'] eqn:Ec; [discriminate |].
    intros [= <- <-]. now rewrite Hgp.
Qed.

Lemma memoized_spec_again from_lines gp pp gs ps compute s v s1 :
  (forall l s0, gp (pp (Some l) s0) = Some l) ->
  memoized_spec from_lines gp pp gs ps compute s = (inr v, s1) ->
  memoized_spec from_lines gp pp gs ps compute s1 = (inr v, s1).
Proof.
  intros Hgp. unfold memoized_spec.
  destruct (gp s) as [l |] eqn:Eg.
  - intros [= <- <-]. now rewrite Eg.
  - destruct (compute s) as [[e | l] s'] eqn:Ec; [discriminate |].
    destruct (nonempty l).
    + destruct (from_lines l) as [e | spec]; [discriminate |].
      intros [= <- <-]. now rewrite Hgp.
    + intros [= <- <-]. now rewrite Hgp.
Qed.

(** X1. Whatever the attributes, when the access of a memoized property
    returns a value, the same access on the attributes it leaves returns the
    same value and leaves them as they are: the second access is served from
    the cache. *)
Theorem second_access_is_cached :
  forall (W : World) (self : BuilderConfig) (p : property)
         (s s1 : state) (v : property_type p),
    read W self p s = (inr v, s1) ->
    read W self p s1 = (inr v, s1).
Proof.
  intros W self p s s1 v.
  destruct p; cbn in *;
    first [ apply memoized_again | apply memoized_spec_again ];
    intros a s0; reflexivity.
Qed.

Lemma second_access_is_cached_witness :
  exists s1,
    read ex_world ex_sources PSources init_state
      = (inr [("lib/", EmptyString); ("src/pkg/", "renamed/")], s1)
    /\ read ex_world ex_sources PSources s1
       = (inr [("lib/", EmptyString); ("src/pkg/", "renamed/")], s1)
    /\ s1 <> init_state.
Proof.
  eexists. split; [reflexivity |]. split.
  - apply (@second_access_is_cached ex_world ex_sources PSources init_state).
    reflexivity.
  - discriminate.
Defined.

(** ** The exclude spec *)

Lemma exclude_patterns_value_layered W self :
  exclude_patterns_value W self
  = rbind (string_array "Pattern" (layered_location self "exclude")
             (layered_value self "exclude" (VList [])))
          (fun configured =>
             rbind (bool_option self "ignore-vcs" false)
                   (fun no_vcs =>
                      rbind (if no_vcs then inr []
                             else load_vcs_ignore_patterns W)
                            (fun vcs_patterns =>
                               inr (default_global_exclude ++ configured
                                    ++ vcs_patterns)))).
Proof.
  unfold exclude_patterns_value, layered_value, layered_location, select_config,
    target_location, global_location, default_exclude.
  destruct (dict_contains "exclude" (target_config self)); reflexivity.
Qed.

(** X2. On coherent attributes, when [exclude_spec] returns, the spec is
    never absent: its patterns are the three built-in ones, then the
    configured ones in order, then, unless [ignore-vcs] is true, the lines of
    the ignore file when there is one.  So [path_is_excluded] always asks the
    matcher, and a true [ignore-vcs] keeps the ignore file out. *)
Theorem exclude_spec_baseline :
  forall (W : World) (self : BuilderConfig) (s : state) (spec : option PathSpec),
    coherent W self s ->
    fst (exclude_spec W self s) = inr spec ->
    exists configured no_vcs,
      string_array "Pattern" (layered_location self "exclude")
        (layered_value self "exclude" (VList [])) = inr configured
      /\ fst (ignore_vcs self s) = inr no_vcs
      /\ let all_patterns :=
           [".git"; "__pycache__"; "*.py[cod]"] ++ configured
           ++ (if no_vcs then []
               else match gitignore_lines W with
                    | None => []
                    | Some file_lines => file_lines
                    end) in
         spec = Some (from_lines all_patterns)
         /\ forall p, fst (path_is_excluded W self p s)
                      = inr (match_file W (from_lines all_patterns) p).
Proof.
  intros W self s spec Hs Hspec.
  destruct (@runs_exclude_spec W self s Hs) as (Hx & _ & _).
  destruct (@runs_ignore_vcs W self s Hs) as (Hv & _ & _).
  rewrite Hx in Hspec. unfold exclude_spec_value in Hspec.
  rewrite exclude_patterns_value_layered in Hspec.
  destruct (string_array "Pattern" _ _) as [e | configured] eqn:Ec;
    cbn [rbind] in Hspec; [discriminate |].
  destruct (bool_option self "ignore-vcs" false) as [e | no_vcs] eqn:Eb;
    cbn [rbind] in Hspec; [discriminate |].
  destruct (if no_vcs return result (list string)
            then inr [] else load_vcs_ignore_patterns W)
    as [e | vcs_patterns] eqn:El; cbn [rbind] in Hspec; [discriminate |].
  assert (Hvcs : vcs_patterns
                 = if no_vcs then []
                   else match gitignore_lines W with
                        | None => []
                        | Some file_lines => file_lines
                        end).
  { destruct no_vcs; [now injection El as <- |].
    unfold load_vcs_ignore_patterns in El.
    destruct (gitignore_lines W); [| now injection El as <-].
    destruct (gitignore_error W); [discriminate | now injection El as <-]. }
  assert (Hof : spec = Some (from_lines ([".git"; "__pycache__"; "*.py[cod]"]
                                        ++ configured ++ vcs_patterns))).
  { apply compile_spec_returns in Hspec. exact Hspec. }
  exists configured, no_vcs.
  split; [reflexivity |]. split; [rewrite Hv; reflexivity |].
  cbv zeta. rewrite <- Hvcs.
  split; [exact Hof |].
  intros p. rewrite (proj1 (@runs_path_is_excluded W self p s Hs)).
  unfold exclude_spec_value. rewrite exclude_patterns_value_layered, Ec, Eb.
  cbn [rbind]. rewrite El. cbn [rbind]. rewrite Hspec. cbn [rbind].
  rewrite Hof. reflexivity.
Qed.

Lemma exclude_spec_baseline_witness :
  exists configured no_vcs,
    fst (ignore_vcs ex_artifacts init_state) = inr no_vcs
    /\ fst (exclude_spec ex_world ex_artifacts init_state)
       = inr (Some (from_lines ([".git"; "__pycache__"; "*.py[cod]"] ++ configured
                                ++ [])))
    /\ configured = ["secret"] /\ no_vcs = false.
Proof.
  destruct (@exclude_spec_baseline ex_world ex_artifacts init_state
              (Some (from_lines [".git"; "__pycache__"; "*.py[cod]"; "secret"]))
              (init_coherent _ _) eq_refl)
    as (configured & no_vcs & Hc & Hv & Hspec & _).
  exists configured, no_vcs.
  vm_compute in Hc. injection Hc as <-.
  vm_compute in Hv. injection Hv as <-.
  split; [reflexivity |]. split; [reflexivity |]. split; reflexivity.
Defined.

(** ** A project without file-selection options *)

Lemma unconfigured_layered_value self key default :
  unconfigured self key -> layered_value self key default = default.
Proof.
  intros (Ht & Hb). unfold layered_value. rewrite Ht.
  unfold dict_contains, dict_get_default in *.
  destruct (dict_get key (build_config self)); [discriminate | reflexivity].
Qed.

Lemma artifact_patterns_value_layered self :
  artifact_patterns_value self
  = string_array "Pattern" (layered_location self "artifacts")
      (layered_value self "artifacts" (VList [])).
Proof.
  unfold artifact_patterns_value, layered_value, layered_location, select_config,
    target_location, global_location.
  destruct (dict_contains "artifacts" (target_config self)); reflexivity.
Qed.

Lemma packages_value_layered W self :
  packages_value W self
  = rbind (string_array "Package" (layered_location self "packages")
             (layered_value self "packages" (VList [])))
          (fun pkgs => inr (sorted String.leb (map (normalize_relative_path W) pkgs))).
Proof.
  unfold packages_value, layered_value, layered_location, select_config,
    target_location, global_location, default_packages.
  destruct (dict_contains "packages" (target_config self)); reflexivity.
Qed.

(** X3. When neither table holds [include], [exclude], [artifacts],
    [packages], [only-packages] or [ignore-vcs], then on coherent attributes
    with no overlay spec installed [include_path] returns, for every path and
    either value of [is_package], the negation of the match of the path
    against the three built-in exclusions followed by the lines of the ignore
    file: everything is shipped but what those exclude.  When reading the
    ignore file raises, or the pattern factory refuses one of these lines,
    that exception is the exception of the call. *)
Theorem include_path_unconfigured :
  forall (W : World) (self : BuilderConfig) (s : state)
         (p : string) (is_package : bool),
    coherent W self s ->
    build_artifact_spec s = None ->
    Forall (unconfigured self)
      ["include"; "exclude"; "artifacts"; "packages"; "only-packages"; "ignore-vcs"] ->
    fst (include_path W self p is_package s)
    = match load_vcs_ignore_patterns W with
      | inl e => inl e
      | inr _ =>
          match first_pattern_error W (baseline_excludes W false) with
          | Some msg => inl (ValueError msg)
          | None =>
              inr (negb (match_file W (from_lines (baseline_excludes W false)) p))
          end
      end.
Proof.
  intros W self s p is_package Hs Hov Hun.
  repeat match goal with
         | H : Forall _ (_ :: _) |- _ =>
             let Hk := fresh "Hk" in
             apply Forall_cons_iff in H as (Hk & H)
         end.
  rename Hk into Hinc, Hk0 into Hexc, Hk1 into Hart, Hk2 into Hpk,
    Hk3 into Honly, Hk4 into Hvcs.
  destruct (include_path_runs p is_package Hs) as (Hrun & _ & _).
  rewrite Hrun, Hov. unfold include_decision. cbn [matches].
  assert (Ea : artifact_spec_value W self = inr None).
  { unfold artifact_spec_value.
    rewrite artifact_patterns_value_layered, unconfigured_layered_value
      by exact Hart.
    reflexivity. }
  assert (Eo : bool_option self "only-packages" false = inr false).
  { rewrite bool_option_layered, unconfigured_layered_value by exact Honly.
    reflexivity. }
  assert (Ev : bool_option self "ignore-vcs" false = inr false).
  { rewrite bool_option_layered, unconfigured_layered_value by exact Hvcs.
    reflexivity. }
  assert (Ep : packages_value W self = inr []).
  { rewrite packages_value_layered, unconfigured_layered_value by exact Hpk.
    reflexivity. }
  assert (Ei : include_spec_value W self = inr None).
  { unfold include_spec_value.
    rewrite include_patterns_value_layered, unconfigured_layered_value, Ep
      by exact Hinc.
    reflexivity. }
  assert (Ex : exclude_spec_value W self
               = match load_vcs_ignore_patterns W with
                 | inl e => inl e
                 | inr _ => compile_spec W (baseline_excludes W false)
                 end).
  { unfold exclude_spec_value.
    rewrite exclude_patterns_value_layered, unconfigured_layered_value, Ev
      by exact Hexc.
    unfold baseline_excludes, load_vcs_ignore_patterns.
    destruct (gitignore_lines W) as [file_lines |]; [| reflexivity].
    destruct (gitignore_error W); reflexivity. }
  transitivity (rbind (exclude_spec_value W self)
                  (fun excluded => inr (negb (matches W false excluded p)))).
  { rewrite Ea. cbn. rewrite Eo. cbn. rewrite Ei. reflexivity. }
  rewrite Ex.
  destruct (load_vcs_ignore_patterns W) as [e | file_lines]; [reflexivity |].
  unfold compile_spec, PathSpec_from_lines.
  replace (nonempty (baseline_excludes W false)) with true by reflexivity.
  destruct (first_pattern_error W (baseline_excludes W false)); reflexivity.
Qed.

Lemma include_path_unconfigured_witness :
  coherent ex_ignoring_world ex_plain init_state
  /\ Forall (unconfigured ex_plain)
       ["include"; "exclude"; "artifacts"; "packages"; "only-packages"; "ignore-vcs"]
  /\ fst (include_path ex_ignoring_world ex_plain "pkg/mod.py" false init_state)
     = inr true
  /\ fst (include_path ex_ignoring_world ex_plain "pkg/__pycache__/mod.pyc" true
            init_state) = inr false
  /\ fst (include_path ex_ignoring_world ex_plain "debug.log" true init_state)
     = inr false.
Proof.
  assert (Hun : Forall (unconfigured ex_plain)
                  ["include"; "exclude"; "artifacts"; "packages"; "only-packages";
                   "ignore-vcs"])
    by (repeat constructor).
  split; [apply init_coherent |]. split; [exact Hun |].
  split; [| split];
    rewrite (@include_path_unconfigured ex_ignoring_world ex_plain init_state _ _
               (init_coherent _ _) eq_refl Hun);
    reflexivity.
Defined.

(** ** Dependencies *)

(** X4. On coherent attributes, when [dependencies] returns a list:
    the list has no repetition; it starts with the declared dependencies (the
    target's, then the global ones not yet seen); and a dependency is in it
    exactly when it is declared, or listed by the [dependencies] option of a
    hook of [hook_config], or is a runtime dependency of the project while
    [require-runtime-dependencies] is true for the build or for one of those
    hooks. *)
Theorem dependencies_union :
  forall (W : World) (self : BuilderConfig) (s : state) (deps : list string),
    coherent W self s ->
    fst (dependencies W self s) = inr deps ->
    exists declared flag hooks,
      declared_dependencies self = inr declared
      /\ fst (require_runtime_dependencies self s) = inr flag
      /\ fst (hook_config W self s) = inr hooks
      /\ NoDup deps
      /\ (exists rest, deps = declared ++ rest)
      /\ (forall d,
            In d deps
            <-> In d declared
                \/ hook_lists hooks d
                \/ ((flag = true \/ hook_requires_runtime hooks)
                    /\ In d (metadata_core_dependencies (builder self)))).
Proof.
  intros W self s deps Hs Hdeps.
  destruct (@runs_dependencies W self s Hs) as (Hd & _ & _).
  destruct (@runs_require_runtime_dependencies W self s Hs) as (Hr & _ & _).
  destruct (@runs_hook_config W self s Hs) as (Hh & _ & _).
  rewrite Hd in Hdeps. rewrite Hr, Hh. clear Hd Hr Hh.
  unfold dependencies_value in Hdeps.
  destruct (declared_dependencies self) as [e | declared] eqn:Edecl; cbn in Hdeps;
    [discriminate |].
  destruct (bool_option self "require-runtime-dependencies" false)
    as [e | flag]; cbn in Hdeps; [discriminate |].
  destruct (hook_config_value W self) as [e | hooks]; cbn in Hdeps;
    [discriminate |].
  destruct (hook_dependencies hooks flag declared) as [e | [flag' deps']] eqn:Eh;
    cbn in Hdeps; [discriminate |].
  injection Hdeps as <-.
  destruct (@hook_dependencies_result hooks flag declared flag' deps' Eh)
    as (Hnd & (rest & Hrest & _) & Hin & Hflag).
  assert (Hdecl_nodup : NoDup declared).
  { unfold declared_dependencies in Edecl.
    destruct (expect_list _ _) as [e | l1]; cbn in Edecl; [discriminate |].
    destruct (check_strings _ _ _ l1) as [e | c1]; cbn in Edecl; [discriminate |].
    destruct (expect_list _ _) as [e | l2]; cbn in Edecl; [discriminate |].
    destruct (check_strings _ _ _ l2) as [e | c2]; cbn in Edecl; [discriminate |].
    injection Edecl as <-. apply NoDup_oset_extend, NoDup_oset_extend. constructor. }
  exists declared, flag, hooks.
  split; [reflexivity |]. split; [reflexivity |]. split; [reflexivity |].
  destruct flag' eqn:Ef.
  - split; [apply NoDup_oset_extend, Hnd, Hdecl_nodup |].
    split.
    { destruct (oset_extend_grows deps'
                  (metadata_core_dependencies (builder self))) as (r & Hr & _).
      exists (rest ++ r). rewrite Hr, Hrest. now rewrite app_assoc. }
    intros d. rewrite In_oset_extend, Hin.
    assert (Hyes : flag = true \/ hook_requires_runtime hooks)
      by (apply Hflag; reflexivity).
    tauto.
  - split; [apply Hnd, Hdecl_nodup |].
    split; [exists rest; exact Hrest |].
    intros d. rewrite Hin.
    assert (Hno : ~ (flag = true \/ hook_requires_runtime hooks)).
    { intros H. apply Hflag in H. discriminate. }
    tauto.
Qed.

Lemma dependencies_union_witness :
  coherent ex_world ex_dependencies init_state
  /\ fst (dependencies ex_world ex_dependencies init_state)
     = inr ["a"; "b"; "mypy"; "requests"]
  /\ exists declared flag hooks,
       declared_dependencies ex_dependencies = inr declared
       /\ fst (require_runtime_dependencies ex_dependencies init_state) = inr flag
       /\ fst (hook_config ex_world ex_dependencies init_state) = inr hooks
       /\ NoDup ["a"; "b"; "mypy"; "requests"]
       /\ (exists rest, ["a"; "b"; "mypy"; "requests"] = declared ++ rest)
       /\ (forall d,
             In d ["a"; "b"; "mypy"; "requests"]
             <-> In d declared
                 \/ hook_lists hooks d
                 \/ ((flag = true \/ hook_requires_runtime hooks)
                     /\ In d (metadata_core_dependencies (builder ex_dependencies)))).
Proof.
  split; [apply init_coherent |]. split; [reflexivity |].
  apply (@dependencies_union ex_world ex_dependencies init_state
           ["a"; "b"; "mypy"; "requests"] (init_coherent _ _) eq_refl).
Defined.

(** ** Packages *)

Lemma check_strings_nonempty_inv type_error empty_error i l checked :
  check_strings type_error (Some empty_error) i l = inr checked ->
  Forall (fun x => x <> EmptyString) checked.
Proof.
  revert i checked. induction l as [| x l IH]; intros i checked Hc; cbn in Hc.
  - injection Hc as <-. constructor.
  - destruct x; try discriminate.
    destruct (s =? EmptyString) eqn:E; [discriminate |].
    destruct (check_strings _ _ _ l) as [e | rest] eqn:Er; cbn in Hc;
      [discriminate |].
    injection Hc as <-. constructor; [now apply String.eqb_neq | eapply IH, Er].
Qed.

(** What [string_array] accepts is a list of non-empty strings, returned as
    it is. *)
Lemma string_array_inv kind location v l :
  string_array kind location v = inr l ->
  v = VList (map VStr l) /\ Forall (fun x => x <> EmptyString) l.
Proof.
  unfold string_array, expect_list. destruct v; cbn; try discriminate.
  intros Hc. split.
  - f_equal. eapply check_strings_inv, Hc.
  - eapply check_strings_nonempty_inv, Hc.
Qed.

(** X5. On coherent attributes, when [packages] returns a list: the
    [packages] option in force (the target's when it has the key, the global
    one otherwise, the empty list when neither has) is a list of non-empty
    strings, and the result holds the normalized form of each of them, as many
    times as it is listed, in ascending order. *)
Theorem packages_sorted_normalized :
  forall (W : World) (self : BuilderConfig) (s : state) (pkgs : list string),
    coherent W self s ->
    fst (packages W self s) = inr pkgs ->
    exists configured,
      layered_value self "packages" (VList []) = VList (map VStr configured)
      /\ Forall (fun p => p <> EmptyString) configured
      /\ Permutation (map (normalize_relative_path W) configured) pkgs
      /\ StronglySorted (fun a b => String.leb a b = true) pkgs.
Proof.
  intros W self s pkgs Hs Hp.
  destruct (@runs_packages W self s Hs) as (Hv & _ & _).
  rewrite Hv, packages_value_layered in Hp.
  destruct (string_array _ _ _) as [e | configured] eqn:Ea; cbn in Hp;
    [discriminate |].
  injection Hp as <-.
  apply string_array_inv in Ea as (Hl & Hne).
  exists configured. split; [exact Hl |]. split; [exact Hne |].
  split; [symmetry; apply sorted_perm |].
  apply Sorted_StronglySorted; [intros a b c; apply str_leb_trans |].
  apply sorted_Sorted, String.leb_total.
Qed.

Lemma packages_sorted_normalized_witness :
  fst (packages ex_world ex_sources init_state) = inr ["lib/other"; "src/pkg"]
  /\ exists configured,
       layered_value ex_sources "packages" (VList []) = VList (map VStr configured)
       /\ Forall (fun p => p <> EmptyString) configured
       /\ Permutation (map (normalize_relative_path ex_world) configured)
            ["lib/other"; "src/pkg"]
       /\ StronglySorted (fun a b => String.leb a b = true) ["lib/other"; "src/pkg"].
Proof.
  split; [reflexivity |].
  apply (@packages_sorted_normalized ex_world ex_sources init_state
           ["lib/other"; "src/pkg"] (init_coherent _ _) eq_refl).
Defined.

(** ** Accepted versions *)

(** X6. On coherent attributes, when [versions] returns a list: the target's
    [versions] option (the empty list when absent; the global table is not
    read) is a list of non-empty strings and the result has no repetition.
    When the option is empty the result holds exactly the builder's default
    versions; otherwise it holds exactly the configured versions, all of them
    known to the builder. *)
Theorem versions_accepted :
  forall (W : World) (self : BuilderConfig) (s : state) (vs : list string),
    coherent W self s ->
    fst (versions self s) = inr vs ->
    exists configured,
      dict_get_default "versions" (VList []) (target_config self)
        = VList (map VStr configured)
      /\ Forall (fun v => v <> EmptyString) configured
      /\ NoDup vs
      /\ (configured = [] ->
          forall v, In v vs <-> In v (get_default_versions (builder self)))
      /\ (configured <> [] ->
          (forall v, In v vs <-> In v configured)
          /\ Forall (fun v => In v (get_version_api (builder self))) vs).
Proof.
  intros W self s vs Hs Hv.
  destruct (@runs_versions W self s Hs) as (Hr & _ & _).
  rewrite Hr in Hv. unfold versions_value in Hv.
  destruct (expect_list _ _) as [e | l] eqn:El; cbn in Hv; [discriminate |].
  destruct (check_strings _ _ _ l) as [e | checked] eqn:Ec; cbn in Hv;
    [discriminate |].
  pose proof (check_strings_nonempty_inv _ _ _ _ Ec) as Hne.
  apply check_strings_inv in Ec. subst l.
  assert (Hcfg : dict_get_default "versions" (VList []) (target_config self)
                 = VList (map VStr checked)).
  { unfold expect_list in El.
    destruct (dict_get_default "versions" (VList []) (target_config self));
      try discriminate.
    now injection El as ->. }
  exists checked. split; [exact Hcfg |]. split; [exact Hne |].
  destruct (nonempty (oset_extend [] checked)) eqn:En; cbn in Hv.
  - destruct (nonempty (unknown_versions self (oset_extend [] checked))) eqn:Eu;
      [discriminate |].
    injection Hv as <-.
    split; [apply NoDup_oset_extend; constructor |].
    split; [intros ->; discriminate En |].
    intros _. split.
    + intros v. rewrite In_oset_extend. cbn. tauto.
    + apply nonempty_false in Eu. apply Forall_forall. intros v Hin.
      destruct (mem v (get_version_api (builder self))) eqn:Em;
        [now apply mem_In |].
      exfalso.
      assert (Hu : In v (unknown_versions self (oset_extend [] checked))).
      { unfold unknown_versions. apply In_sorted, filter_In.
        split; [exact Hin | now rewrite Em]. }
      rewrite Eu in Hu. destruct Hu.
  - injection Hv as <-. apply nonempty_false in En.
    assert (Hnil : checked = []).
    { destruct checked as [| x xs]; [reflexivity |]. exfalso.
      assert (Hx : In x (oset_extend [] (x :: xs)))
        by (apply In_oset_extend; cbn; auto).
      rewrite En in Hx. destruct Hx. }
    subst checked.
    split; [apply NoDup_oset_extend, NoDup_oset_extend; constructor |].
    split.
    + intros _ v. rewrite In_oset_extend. cbn. tauto.
    + intros Hno. congruence.
Qed.

Lemma versions_accepted_witness :
  fst (versions ex_known_versions init_state) = inr ["editable"; "standard"]
  /\ exists configured,
       dict_get_default "versions" (VList []) (target_config ex_known_versions)
         = VList (map VStr configured)
       /\ Forall (fun v => v <> EmptyString) configured
       /\ NoDup ["editable"; "standard"]
       /\ (configured = [] ->
           forall v, In v ["editable"; "standard"]
                     <-> In v (get_default_versions (builder ex_known_versions)))
       /\ (configured <> [] ->
           (forall v, In v ["editable"; "standard"] <-> In v configured)
           /\ Forall (fun v => In v (get_version_api (builder ex_known_versions)))
                ["editable"; "standard"]).
Proof.
  split; [reflexivity |].
  apply (@versions_accepted ex_world ex_known_versions init_state
           ["editable"; "standard"] (init_coherent _ _) eq_refl).
Defined.

(** ** Forced inclusion *)

Lemma check_force_include_inv location i raw entries :
  check_force_include location i raw = inr entries ->
  raw = map path_entry entries
  /\ Forall (fun entry => fst entry <> EmptyString /\ snd entry <> EmptyString)
       entries.
Proof.
  revert i entries. induction raw as [| [source v] raw IH];
    intros i entries Hc; cbn in Hc.
  - injection Hc as <-. split; [reflexivity | constructor].
  - destruct (source =? EmptyString) eqn:Es; [discriminate |].
    destruct v; try discriminate.
    destruct (s =? EmptyString) eqn:Ep; [discriminate |].
    destruct (check_force_include location (S i) raw) as [e | l] eqn:Er;
      cbn in Hc; [discriminate |].
    injection Hc as <-.
    destruct (IH _ _ Er) as (-> & Hall).
    split; [reflexivity |].
    constructor; [| exact Hall].
    cbn. split; now apply String.eqb_neq.
Qed.

Lemma check_force_include_ok location i entries :
  Forall (fun entry => fst entry <> EmptyString /\ snd entry <> EmptyString)
    entries ->
  check_force_include location i (map path_entry entries) = inr entries.
Proof.
  revert i. induction entries as [| [source p] entries IH]; intros i Hall;
    cbn; [reflexivity |].
  inversion Hall as [| ? ? (Hs & Hp) Hall']; subst. cbn in Hs, Hp.
  apply String.eqb_neq in Hs, Hp. rewrite Hs, Hp.
  now rewrite IH.
Qed.

Lemma force_include_value_layered W self :
  force_include_value W self
  = rbind (expect_table ("Field `" ++ layered_location self "force-include"
                         ++ "` must be a mapping")
             (layered_value self "force-include" (VDict [])))
          (fun raw =>
             rbind (check_force_include (layered_location self "force-include")
                      1 raw)
                   (fun entries =>
                      inr (normalize_inclusion_map W entries (root self)))).
Proof.
  unfold force_include_value. rewrite <- layered_value_select.
  rewrite select_config_layered. reflexivity.
Qed.

(** X7. On coherent attributes [force_include] returns a map exactly when
    the [force-include] option in force (the target's when it has the key, the
    global one otherwise, the empty mapping when neither has) is a mapping
    whose sources are all non-empty and whose paths are all non-empty strings;
    the map returned is then [normalize_inclusion_map] of these entries, in
    their order, and of the project root. *)
Theorem force_include_accepted :
  forall (W : World) (self : BuilderConfig) (s : state)
         (included : list (string * string)),
    coherent W self s ->
    (fst (force_include W self s) = inr included
     <-> exists entries,
           layered_value self "force-include" (VDict [])
             = VDict (map path_entry entries)
           /\ Forall (fun entry => fst entry <> EmptyString
                                   /\ snd entry <> EmptyString) entries
           /\ included = normalize_inclusion_map W entries (root self)).
Proof.
  intros W self s included Hs.
  destruct (@runs_force_include W self s Hs) as (Hv & _ & _).
  rewrite Hv, force_include_value_layered. clear Hv.
  split.
  - intros Hf.
    destruct (layered_value self "force-include" (VDict [])) as [| | | | raw];
      cbn in Hf; try discriminate.
    destruct (check_force_include _ 1 raw) as [e | entries] eqn:Ec; cbn in Hf;
      [discriminate |].
    injection Hf as <-.
    apply check_force_include_inv in Ec as (-> & Hall).
    exists entries. auto.
  - intros (entries & -> & Hall & ->). cbn.
    now rewrite check_force_include_ok.
Qed.

Lemma force_include_accepted_witness :
  fst (force_include ex_world ex_force_include init_state)
  = inr [("/shared/data.json", "pkg/data.json"); ("/proj/extra", "pkg/extra")].
Proof.
  apply (@force_include_accepted ex_world ex_force_include init_state _
           (init_coherent _ _)).
  exists [("../shared/data.json", "pkg/data.json"); ("extra", "pkg//extra/")].
  split; [reflexivity |]. split; [| reflexivity].
  repeat constructor; cbn; discriminate.
Defined.

Lemma keys_dict_update (V : Type) (k : string) (d other : list (string * V)) :
  In k (keys (dict_update d other)) <-> In k (keys d) \/ In k (keys other).
Proof.
  unfold dict_update. revert d.
  induction other as [| [k' v'] other IH]; intros d.
  - cbn. tauto.
  - cbn [fold_left fst snd]. rewrite IH, keys_dict_set.
    change (keys ((k', v') :: other)) with (k' :: keys other).
    destruct (mem k' (keys d)) eqn:E.
    + apply mem_In in E. cbn [In]. split; [tauto |].
      intros [Hd | [<- | Ho]]; auto.
    + rewrite in_app_iff. cbn [In]. tauto.
Qed.

(** X8. On coherent attributes, when [force_include] returns the static
    map, [get_force_include] returns a map whose keys are those of the static
    map and of the overlay fragment, in which a key of the fragment has the
    fragment's value and any other key the static one; the keys stay
    distinct. *)
Theorem get_force_include_overlay_wins :
  forall (W : World) (self : BuilderConfig) (s : state)
         (static : list (string * string)),
    coherent W self s ->
    fst (force_include W self s) = inr static ->
    NoDup (keys (build_force_include s)) ->
    exists merged,
      fst (get_force_include W self s) = inr merged
      /\ (forall k,
            dict_get k merged
            = match dict_get k (build_force_include s) with
              | Some v => Some v
              | None => dict_get k static
              end)
      /\ (forall k, In k (keys merged)
                    <-> In k (keys static) \/ In k (keys (build_force_include s)))
      /\ (NoDup (keys static) -> NoDup (keys merged)).
Proof.
  intros W self s static Hs Hst Hnd.
  destruct (@runs_force_include W self s Hs) as (Hv & _ & _).
  destruct (@get_force_include_runs W self s Hs) as (Hg & _ & _).
  rewrite Hv in Hst. rewrite Hg, Hst. cbn.
  eexists. split; [reflexivity |].
  split; [| split].
  - intros k. destruct (dict_get k (build_force_include s)) as [v |] eqn:Ek.
    + now apply dict_get_update_in.
    + apply dict_get_update_notin. now apply dict_get_None_iff.
  - intros k. apply keys_dict_update.
  - apply NoDup_keys_dict_update.
Qed.

Lemma get_force_include_overlay_wins_witness :
  exists merged,
    fst (get_force_include ex_world ex_force_include
           (set_build_force_include
              [("/proj/extra", "pkg/generated"); ("/tmp/gen.bin", "pkg/gen.bin")]
              init_state)) = inr merged
    /\ dict_get "/proj/extra" merged = Some "pkg/generated"
    /\ dict_get "/shared/data.json" merged = Some "pkg/data.json"
    /\ dict_get "/tmp/gen.bin" merged = Some "pkg/gen.bin".
Proof.
  destruct (@get_force_include_overlay_wins ex_world ex_force_include
              (set_build_force_include
                 [("/proj/extra", "pkg/generated"); ("/tmp/gen.bin", "pkg/gen.bin")]
                 init_state)
              [("/shared/data.json", "pkg/data.json"); ("/proj/extra", "pkg/extra")])
    as (merged & Hm & Hget & _).
  - apply coherent_set_build_force_include, init_coherent.
  - reflexivity.
  - cbn. repeat constructor; cbn; intuition discriminate.
  - exists merged. split; [exact Hm |].
    rewrite !Hget. repeat split.
Defined.

(** ** The order of the accesses *)

Lemma read_runs W self p : exists v, runs W self (read W self p) v.
Proof.
  destruct p; cbn; eexists;
    first [ apply runs_include_spec | apply runs_exclude_spec
          | apply runs_artifact_spec | apply runs_hook_config
          | apply runs_versions | apply runs_dependencies | apply runs_sources
          | apply runs_packages | apply runs_force_include
          | apply runs_directory | apply runs_ignore_vcs
          | apply runs_require_runtime_dependencies | apply runs_only_packages
          | apply runs_reproducible | apply runs_dev_mode_dirs
          | apply runs_dev_mode_exact ].
Qed.

Lemma after_reads_coherent W self ps s :
  coherent W self s ->
  coherent W self (after_reads W self ps s)
  /\ overlay (after_reads W self ps s) = overlay s.
Proof.
  unfold after_reads. revert s.
  induction ps as [| p ps IH]; intros s Hs; cbn [fold_left]; [auto |].
  destruct (read_runs W self p) as (v & Hv).
  destruct (Hv s Hs) as (_ & Hc & Ho).
  destruct (IH _ Hc) as (Hc' & Ho').
  split; [exact Hc' | congruence].
Qed.

(** X9. On coherent attributes, the outcome of the access of a property, its
    value or its exception, is the same after any sequence of accesses of
    properties, in any order and whether they returned or raised, as before
    them; and these accesses leave the overlay spec and the overlay
    force-include fragment as they were. *)
Theorem access_order_irrelevant :
  forall (W : World) (self : BuilderConfig) (ps : list property) (p : property)
         (s : state),
    coherent W self s ->
    fst (read W self p (after_reads W self ps s)) = fst (read W self p s)
    /\ build_artifact_spec (after_reads W self ps s) = build_artifact_spec s
    /\ build_force_include (after_reads W self ps s) = build_force_include s.
Proof.
  intros W self ps p s Hs.
  destruct (after_reads_coherent ps Hs) as (Hc & Ho).
  destruct (read_runs W self p) as (v & Hv).
  destruct (Hv s Hs) as (-> & _ & _).
  destruct (Hv _ Hc) as (-> & _ & _).
  unfold overlay in Ho. injection Ho as Ha Hf. auto.
Qed.

Lemma access_order_irrelevant_witness :
  fst (read ex_world ex_bad_hook PDependencies
         (after_reads ex_world ex_bad_hook
            [PSources; PDependencies; PHookConfig; PRequireRuntimeDependencies]
            init_state))
  = fst (read ex_world ex_bad_hook PDependencies init_state)
  /\ after_reads ex_world ex_bad_hook
       [PSources; PDependencies; PHookConfig; PRequireRuntimeDependencies]
       init_state <> init_state.
Proof.
  split.
  - apply (@access_order_irrelevant ex_world ex_bad_hook
             [PSources; PDependencies; PHookConfig; PRequireRuntimeDependencies]
             PDependencies init_state (init_coherent _ _)).
  - discriminate.
Defined.

(** ** Scopes within scopes *)

(** X10. Build-data scopes do not nest.  When a block
    [with set_build_data(inner): body] runs inside the block of
    [with set_build_data(outer): ...], then however the inner block ends, the
    overlay artifact spec is absent and the overlay force-include fragment is
    empty afterwards: what follows the inner block in the outer one runs
    without the contributions of [outer].  On coherent attributes, with a body
    that keeps them coherent, [include_path] then decides with no overlay spec
    and [get_force_include] returns the static map alone. *)
Theorem inner_scope_clears_outer :
  forall (W : World) (self : BuilderConfig) (A B : Type)
         (outer inner : BuildData) (body : M A) (rest : A -> M B)
         (s s1 s2 : state) (r : result A),
    enter_build_data W self outer s = (inr tt, s1) ->
    set_build_data W self inner body s1 = (r, s2) ->
    (build_artifact_spec s2 = None /\ build_force_include s2 = [])
    /\ (forall a, r = inr a ->
          set_build_data W self outer
            (x <- set_build_data W self inner body ;; rest x) s
          = (fst (rest a s2), clear_build_data (snd (rest a s2))))
    /\ (coherent W self s ->
        (forall s0, coherent W self s0 -> coherent W self (snd (body s0))) ->
        (forall p is_package,
           fst (include_path W self p is_package s2)
           = include_decision W self None p is_package)
        /\ fst (get_force_include W self s2) = force_include_value W self).
Proof.
  intros W self A B outer inner body rest s s1 s2 r Hout Hin.
  assert (Hs2 : exists s', s2 = clear_build_data s'
                           /\ (coherent W self s1 ->
                               (forall s0, coherent W self s0 ->
                                           coherent W self (snd (body s0))) ->
                               coherent W self s')).
  { unfold set_build_data, try_finally in Hin.
    destruct ((enter_build_data W self inner ;;; body) s1) as [r' s'] eqn:Eb.
    injection Hin as _ <-. exists s'. split; [reflexivity |].
    intros Hs1 Hbody. unfold bind in Eb.
    pose proof (enter_build_data_coherent inner Hs1) as Hentry.
    destruct (enter_build_data W self inner s1) as [[e | u] s0]; cbn in *.
    - injection Eb as _ <-. exact Hentry.
    - pose proof (Hbody s0 Hentry) as Hb. rewrite Eb in Hb. exact Hb. }
  destruct Hs2 as (s' & -> & Hcoh).
  split; [split; reflexivity |].
  split.
  - intros a ->.
    unfold set_build_data at 1. unfold try_finally.
    unfold bind at 1. rewrite Hout. unfold bind at 1. rewrite Hin.
    destruct (rest a (clear_build_data s')); reflexivity.
  - intros Hs Hbody.
    assert (Hs1 : coherent W self s1).
    { pose proof (enter_build_data_coherent outer Hs) as Hc1.
      now rewrite Hout in Hc1. }
    pose proof (coherent_clear_build_data (Hcoh Hs1 Hbody)) as Hc.
    split.
    + intros p is_package.
      destruct (include_path_runs p is_package Hc) as (Hrun & _ & _).
      exact Hrun.
    + destruct (@get_force_include_runs W self _ Hc) as (Hrun & _ & _).
      rewrite Hrun. cbn.
      destruct (force_include_value W self); reflexivity.
Qed.

Lemma inner_scope_clears_outer_witness :
  exists s1 s2,
    enter_build_data ex_world ex_artifacts ex_build_data init_state = (inr tt, s1)
    /\ set_build_data ex_world ex_artifacts (mkBuildData (Some []) (Some []))
         (ret tt) s1 = (inr tt, s2)
    /\ fst (include_path ex_world ex_artifacts "build/gen.bin" true s1) = inr true
    /\ fst (include_path ex_world ex_artifacts "build/gen.bin" true s2) = inr false
    /\ build_force_include s1 = [("/proj/extra.txt", "pkg/extra.txt")]
    /\ build_force_include s2 = [].
Proof.
  eexists. eexists.
  split; [reflexivity |]. split; [reflexivity |].
  split; [reflexivity |].
  destruct (@inner_scope_clears_outer ex_world ex_artifacts unit unit
              ex_build_data (mkBuildData (Some []) (Some [])) (ret tt)
              (fun _ => ret tt) init_state _ _ (inr tt) eq_refl eq_refl)
    as ((_ & Hf) & _ & Hafter).
  destruct (Hafter (init_coherent _ _) (fun s0 Hs0 => Hs0)) as (Hinc & _).
  split; [rewrite Hinc; reflexivity |].
  split; [reflexivity | exact Hf].
Defined.

(** ** The exceptions of the properties *)

Section Reports.
Variable W : World.
Variable self : BuilderConfig.




























End Reports.



(** ** Hooks that are not tables *)

Lemma merge_target_hooks_first_invalid self before name v after acc :
  (forall c, v <> VDict c) ->
  merge_target_hooks self (map table before ++ (name, v) :: after) acc
  = inl (TypeError ("Field `tool.hatch.build.targets." ++ plugin_name self
                    ++ ".hooks." ++ name ++ "` must be a table")).
Proof.
  intros Hv. revert acc. induction before as [| [n c] before IH]; intros acc; cbn.
  - destruct v; try reflexivity. exfalso. now apply (Hv d).
  - apply IH.
Qed.

Lemma merge_global_hooks_first_invalid before name v after acc :
  (forall c, v <> VDict c) ->
  merge_global_hooks (map table before ++ (name, v) :: after) acc
  = inl (TypeError ("Field `tool.hatch.build.hooks." ++ name
                    ++ "` must be a table")).
Proof.
  intros Hv. revert acc. induction before as [| [n c] before IH]; intros acc; cbn.
  - destruct v; try reflexivity. exfalso. now apply (Hv d).
  - apply IH.
Qed.

Lemma merge_target_hooks_returns self hooks acc :
  exists merged, merge_target_hooks self (map table hooks) acc = inr merged.
Proof.
  revert acc. induction hooks as [| [n c] hooks IH]; intros acc; cbn.
  - now exists acc.
  - apply IH.
Qed.

(** X12. The hook tables are checked before any switch of the environment
    is looked at.  At the first access of [hook_config], whatever the
    environment holds (the disable-all switch included) and whatever the
    hook's own options:
    - when the target's [hooks] table has an entry that is not a table, the
      access raises [TypeError] naming the first such entry, and stores
      nothing;
    - when the target's entries are all tables and the global [hooks] table
      has an entry that is not a table, the access raises [TypeError] naming
      the first such global entry, also when the target defines a hook of the
      same name, and stores nothing. *)
Theorem hook_tables_checked_first :
  forall (W : World) (self : BuilderConfig) (s : state)
         (before : list (string * dict)) (name : string) (v : value)
         (after : dict),
    __hook_config s = None ->
    (forall c, v <> VDict c) ->
    (dict_get_default "hooks" (VDict []) (target_config self)
       = VDict (map table before ++ (name, v) :: after) ->
     hook_config W self s
     = (inl (TypeError ("Field `tool.hatch.build.targets." ++ plugin_name self
                        ++ ".hooks." ++ name ++ "` must be a table")), s))
    /\ (forall target_hooks,
          dict_get_default "hooks" (VDict []) (target_config self)
            = VDict (map table target_hooks) ->
          dict_get_default "hooks" (VDict []) (build_config self)
            = VDict (map table before ++ (name, v) :: after) ->
          hook_config W self s
          = (inl (TypeError ("Field `tool.hatch.build.hooks." ++ name
                             ++ "` must be a table")), s)).
Proof.
  intros W self s before name v after Hnone Hv.
  unfold hook_config, memoized, lift. rewrite Hnone.
  unfold hook_config_value, merged_hooks.
  split.
  - intros ->. cbn [expect_table rbind].
    now rewrite merge_target_hooks_first_invalid.
  - intros target_hooks -> ->. cbn [expect_table rbind].
    destruct (merge_target_hooks_returns self target_hooks []) as (merged & ->).
    cbn [rbind]. now rewrite merge_global_hooks_first_invalid.
Qed.

Lemma hook_tables_checked_first_witness :
  hook_config ex_no_hooks_world ex_bad_table init_state
  = (inl (TypeError
            "Field `tool.hatch.build.targets.wheel.hooks.cython` must be a table"),
     init_state)
  /\ hook_config ex_no_hooks_world ex_bad_global_table init_state
     = (inl (TypeError "Field `tool.hatch.build.hooks.vcs` must be a table"),
        init_state).
Proof.
  split.
  - apply (@hook_tables_checked_first ex_no_hooks_world ex_bad_table init_state
             [("custom", [("enable-by-default", VBool false)])]
             "cython" (VStr "yes") [] eq_refl);
      [intros c; discriminate | reflexivity].
  - refine (proj2 (@hook_tables_checked_first ex_no_hooks_world
                     ex_bad_global_table init_state
                     [] "vcs" (VInt 1) [] eq_refl _) [("vcs", [])] eq_refl eq_refl).
    intros c; discriminate.
Defined.

(** ** Sources given as an array *)

Lemma Forall_dict_set (V : Type) (P : string * V -> Prop) k v d :
  P (k, v) -> (forall k' v', P (k', v') -> P (k', v)) ->
  Forall P d -> Forall P (dict_set k v d).
Proof.
  intros Hkv Hval. induction 1 as [| [k' v'] d Hx Hd IH]; cbn.
  - repeat constructor. exact Hkv.
  - destruct (k' =? k); constructor; eauto.
Qed.

Lemma empty_sources_from_list W location i raw acc srcs :
  sources_from_list W location i raw acc = inr srcs ->
  Forall (fun entry => snd entry = EmptyString) acc ->
  Forall (fun entry => snd entry = EmptyString) srcs.
Proof.
  revert i acc. induction raw as [| x raw IH]; intros i acc Hrun Hacc; cbn in Hrun.
  - now injection Hrun as <-.
  - destruct x; try discriminate.
    destruct (s =? EmptyString); [discriminate |].
    eapply IH; [exact Hrun |].
    apply Forall_dict_set; auto.
Qed.

Lemma empty_with_package_sources W pkgs acc :
  Forall (fun entry => snd entry = EmptyString) acc ->
  Forall (fun entry => snd entry = EmptyString) (with_package_sources W pkgs acc).
Proof.
  unfold with_package_sources. revert acc.
  induction pkgs as [| rp pkgs IH]; intros acc Hacc; cbn [fold_left];
    [exact Hacc |].
  apply IH. unfold add_package_source.
  destruct (os_path_split W rp) as [source package].
  destruct (str_nonempty source && _); [| exact Hacc].
  apply Forall_dict_set; auto.
Qed.

Lemma first_source_match_strips srcs p :
  Forall (fun entry => snd entry = EmptyString) srcs ->
  first_source_match srcs p = p
  \/ exists source,
       In source (keys srcs) /\ p = (source ++ first_source_match srcs p)%string.
Proof.
  induction 1 as [| [source replacement] srcs Hx Hall IH]; cbn; [auto |].
  cbn in Hx. subst replacement. unfold startswith.
  destruct (prefix source p) eqn:Ep.
  - right. exists source. split; [auto |].
    rewrite replace_first_prefix by exact Ep. cbn.
    now apply prefix_split.
  - destruct IH as [IH | (src & Hin & Heq)]; [auto |].
    right. exists src. auto.
Qed.

Lemma explicit_sources_layered W self :
  explicit_sources W self
  = match layered_value self "sources" (VList []) with
    | VList raw => sources_from_list W (layered_location self "sources") 1 raw []
    | VDict raw => sources_from_dict W (layered_location self "sources") 1 raw []
    | _ => inl (TypeError ("Field `" ++ layered_location self "sources"
                           ++ "` must be a mapping or array of strings"))
    end.
Proof.
  unfold explicit_sources, layered_value, layered_location, select_config,
    target_location, global_location.
  destruct (dict_contains "sources" (target_config self)); reflexivity.
Qed.

(** X16. On coherent attributes, when the [sources] option in force is an
    array (or is absent), every replacement of the source map is empty, so
    [get_distribution_path] can only strip: the path it returns is the path
    given, or the path given without one of the source directories at its
    front. *)
Theorem array_sources_only_strip :
  forall (W : World) (self : BuilderConfig) (s : state) (raw : list value)
         (p q : string),
    coherent W self s ->
    layered_value self "sources" (VList []) = VList raw ->
    fst (get_distribution_path W self p s) = inr q ->
    exists srcs,
      fst (sources W self s) = inr srcs
      /\ Forall (fun entry => snd entry = EmptyString) srcs
      /\ (q = p \/ exists source, In source (keys srcs) /\ p = (source ++ q)%string).
Proof.
  intros W self s raw p q Hs Hraw Hq.
  destruct (@runs_sources W self s Hs) as (Hsrc & _ & _).
  destruct (@get_distribution_path_runs W self p s Hs) as (Hrun & _ & _).
  rewrite Hrun in Hq. rewrite Hsrc. clear Hrun Hsrc.
  destruct (sources_value W self) as [e | srcs] eqn:Ev; cbn in Hq; [discriminate |].
  injection Hq as <-.
  exists srcs. split; [reflexivity |].
  assert (Hall : Forall (fun entry => snd entry = EmptyString) srcs).
  { unfold sources_value in Ev.
    destruct (explicit_sources W self) as [e | explicit] eqn:Ee; cbn in Ev;
      [discriminate |].
    destruct (packages_value W self) as [e | pkgs]; cbn in Ev; [discriminate |].
    injection Ev as <-.
    eapply Permutation_Forall; [symmetry; apply sorted_perm |].
    apply (empty_with_package_sources W pkgs).
    rewrite explicit_sources_layered, Hraw in Ee.
    eapply empty_sources_from_list; [exact Ee | constructor]. }
  split; [exact Hall |].
  destruct (first_source_match_strips p Hall) as [Hsame | (source & Hin & Heq)].
  - left. exact Hsame.
  - right. exists source. auto.
Qed.

Lemma array_sources_only_strip_witness :
  fst (get_distribution_path ex_world ex_array_sources "vendor/py/six.py" init_state)
  = inr "six.py"
  /\ exists srcs,
       fst (sources ex_world ex_array_sources init_state) = inr srcs
       /\ Forall (fun entry => snd entry = EmptyString) srcs
       /\ ("six.py" = "vendor/py/six.py"
           \/ exists source,
                In source (keys srcs)
                /\ "vendor/py/six.py" = (source ++ "six.py")%string).
Proof.
  split; [reflexivity |].
  apply (@array_sources_only_strip ex_world ex_array_sources init_state
           [VStr "src"; VStr "vendor/py"] "vendor/py/six.py" "six.py"
           (init_coherent _ _) eq_refl eq_refl).
Defined.

(** ** Replacements of the source map *)

Lemma replacement_sources_from_dict W location i raw acc srcs :
  let directory_or_empty (entry : string * string) :=
    snd entry = EmptyString
    \/ exists d, d <> EmptyString /\ snd entry = (d ++ os_path_sep W)%string in
  sources_from_dict W location i raw acc = inr srcs ->
  Forall directory_or_empty acc -> Forall directory_or_empty srcs.
Proof.
  intros P. revert i acc.
  induction raw as [| [source path] raw IH]; intros i acc Hrun Hacc; cbn in Hrun.
  - now injection Hrun as <-.
  - destruct (source =? EmptyString); [discriminate |].
    destruct path; try discriminate.
    eapply IH; [exact Hrun |].
    assert (Hnew : forall k,
              P (k, if str_nonempty (normalize_relative_path W s)
                    then (normalize_relative_path W s ++ os_path_sep W)%string
                    else normalize_relative_path W s)).
    { intros k. unfold P, str_nonempty. cbn.
      destruct (normalize_relative_path W s =? EmptyString) eqn:E; cbn.
      - left. now apply String.eqb_eq.
      - right. exists (normalize_relative_path W s).
        split; [now apply String.eqb_neq | reflexivity]. }
    apply Forall_dict_set; [apply Hnew | intros k' v' _; apply Hnew | exact Hacc].
Qed.

(** X17. On coherent attributes, when [sources] returns a map, every
    replacement in it is either empty or a non-empty normalized path followed
    by the path separator, whichever form the option has: a replacement can be
    put in front of the rest of a path as it is. *)
Theorem source_replacements_are_directories :
  forall (W : World) (self : BuilderConfig) (s : state)
         (srcs : list (string * string)),
    coherent W self s ->
    fst (sources W self s) = inr srcs ->
    Forall (fun entry =>
              snd entry = EmptyString
              \/ exists d, d <> EmptyString
                           /\ snd entry = (d ++ os_path_sep W)%string) srcs.
Proof.
  intros W self s srcs Hs Hsrc.
  destruct (@runs_sources W self s Hs) as (Hv & _ & _).
  rewrite Hv in Hsrc. unfold sources_value in Hsrc.
  destruct (explicit_sources W self) as [e | explicit] eqn:Ee; cbn in Hsrc;
    [discriminate |].
  destruct (packages_value W self) as [e | pkgs]; cbn in Hsrc; [discriminate |].
  injection Hsrc as <-.
  eapply Permutation_Forall; [symmetry; apply sorted_perm |].
  assert (Hweaken : forall l : list (string * string),
            Forall (fun entry => snd entry = EmptyString) l ->
            Forall (fun entry =>
                      snd entry = EmptyString
                      \/ exists d, d <> EmptyString
                                   /\ snd entry = (d ++ os_path_sep W)%string) l).
  { intros l. apply Forall_impl. auto. }
  assert (Hexplicit : Forall (fun entry =>
                                snd entry = EmptyString
                                \/ exists d, d <> EmptyString
                                             /\ snd entry = (d ++ os_path_sep W)%string)
                        explicit).
  { rewrite explicit_sources_layered in Ee.
    destruct (layered_value self "sources" (VList [])) as [| | | raw | raw];
      try discriminate.
    - apply Hweaken. eapply empty_sources_from_list; [exact Ee | constructor].
    - eapply replacement_sources_from_dict; [exact Ee | constructor]. }
  unfold with_package_sources. clear Ee. revert explicit Hexplicit.
  induction pkgs as [| rp pkgs IH]; intros acc Hacc; cbn [fold_left];
    [exact Hacc |].
  apply IH. unfold add_package_source.
  destruct (os_path_split W rp) as [source package].
  destruct (str_nonempty source && _); [| exact Hacc].
  apply Forall_dict_set; cbn; auto.
Qed.

Lemma source_replacements_are_directories_witness :
  fst (sources ex_world ex_sources init_state)
  = inr [("lib/", EmptyString); ("src/pkg/", "renamed/")]
  /\ Forall (fun entry =>
               snd entry = EmptyString
               \/ exists d, d <> EmptyString
                            /\ snd entry = (d ++ os_path_sep ex_world)%string)
        [("lib/", EmptyString); ("src/pkg/", "renamed/")].
Proof.
  split; [reflexivity |].
  apply (@source_replacements_are_directories ex_world ex_sources init_state
           [("lib/", EmptyString); ("src/pkg/", "renamed/")]
           (init_coherent _ _) eq_refl).
Defined.

(** * Properties of scripts/validate_history.py *)

(** One turn of the loop: the script ends at the line, or the loop goes on
    with the pattern the line leaves in force. *)
Lemma check_lines_cons strip lower search raw_line rest current_pattern :
  check_lines strip lower search (raw_line :: rest) current_pattern
  = match line_verdict strip search current_pattern raw_line with
    | Valid =>
        check_lines strip lower search rest
          (next_pattern strip lower current_pattern raw_line)
    | ended => ended
    end.
Proof.
  cbn [check_lines]. unfold line_verdict, next_pattern.
  destruct (strip raw_line =? EmptyString); [reflexivity |].
  destruct (prefix "## " (strip raw_line)); [reflexivity |].
  destruct (prefix "### " (strip raw_line)); [| reflexivity].
  destruct (strip_emphasis (after_first_space (strip raw_line)) =? "Unreleased");
    [reflexivity |].
  destruct (search current_pattern (after_first_space (strip raw_line)))
    as [[|] |]; reflexivity.
Qed.

(** X13. Checking a file made of two parts is checking the first part and,
    when no header of it is rejected and no pattern of it refused, checking
    the second part with the pattern that the last package line of the first
    part left in force; a header rejected in the first part, or a pattern
    refused there, is the verdict of the whole. *)
Theorem check_lines_app :
  forall (strip lower : string -> string)
         (search : string -> string -> option bool)
         (first_part second_part : list string) (current_pattern : string),
    check_lines strip lower search (first_part ++ second_part) current_pattern
    = match check_lines strip lower search first_part current_pattern with
      | Valid =>
          check_lines strip lower search second_part
            (pattern_after strip lower first_part current_pattern)
      | InvalidHeader header => InvalidHeader header
      | PatternError refused => PatternError refused
      end.
Proof.
  intros strip lower search first_part second_part.
  induction first_part as [| raw_line first_part IH]; intros current_pattern.
  - reflexivity.
  - rewrite <- app_comm_cons, !check_lines_cons.
    destruct (line_verdict strip search current_pattern raw_line);
      [apply IH | reflexivity | reflexivity].
Qed.

(** The script ends otherwise than by returning at the first line that ends
    it. *)
Lemma check_lines_ended_iff strip lower search file_lines current_pattern ended :
  ended <> Valid ->
  check_lines strip lower search file_lines current_pattern = ended
  <-> exists before raw_line after,
        file_lines = before ++ raw_line :: after
        /\ check_lines strip lower search before current_pattern = Valid
        /\ line_verdict strip search
             (pattern_after strip lower before current_pattern) raw_line
           = ended.
Proof.
  intros Hended. split.
  - revert current_pattern.
    induction file_lines as [| raw_line file_lines IH]; intros current_pattern;
      [cbn; congruence |].
    rewrite check_lines_cons.
    destruct (line_verdict strip search current_pattern raw_line) eqn:Er.
    + intros Hrest.
      destruct (IH _ Hrest) as (before & line & after & -> & Hvalid & Hrej).
      exists (raw_line :: before), line, after.
      split; [reflexivity |].
      split; [now rewrite check_lines_cons, Er | exact Hrej].
    + intros <-. exists [], raw_line, file_lines. auto.
    + intros <-. exists [], raw_line, file_lines. auto.
  - intros (before & raw_line & after & -> & Hvalid & Hrej).
    revert current_pattern Hvalid Hrej.
    induction before as [| b before IH]; intros current_pattern Hvalid Hrej.
    + cbn [app]. rewrite check_lines_cons. cbn in Hrej. rewrite Hrej.
      destruct ended; congruence.
    + rewrite <- app_comm_cons, check_lines_cons.
      rewrite check_lines_cons in Hvalid.
      destruct (line_verdict strip search current_pattern b);
        [| discriminate | discriminate].
      apply IH; assumption.
Qed.

Lemma prefix_of_both (a b s : string) :
  prefix a s = true -> prefix b s = true ->
  prefix a b = true \/ prefix b a = true.
Proof.
  revert b s. induction a as [| c a IH]; intros b s Ha Hb.
  - left. destruct b; reflexivity.
  - destruct b as [| d b]; [right; reflexivity |].
    destruct s as [| x s]; [discriminate Ha |].
    cbn in *.
    destruct (ascii_dec c x) as [-> |]; [| discriminate Ha].
    destruct (ascii_dec d x) as [-> |]; [| discriminate Hb].
    destruct (ascii_dec x x); [| congruence].
    eapply IH; eassumption.
Qed.

(** What a line ends the script with: only a header line that is not the
    unreleased one can, with the answer of [re.search] on it. *)
Lemma line_verdict_ended strip search current_pattern raw_line ended :
  ended <> Valid ->
  line_verdict strip search current_pattern raw_line = ended
  <-> prefix "### " (strip raw_line) = true
      /\ strip_emphasis (after_first_space (strip raw_line)) <> "Unreleased"
      /\ match search current_pattern (after_first_space (strip raw_line)) with
         | None => ended = PatternError current_pattern
         | Some found =>
             found = false
             /\ ended = InvalidHeader (after_first_space (strip raw_line))
         end.
Proof.
  intros Hended. unfold line_verdict.
  destruct (strip raw_line =? EmptyString) eqn:Ee.
  - apply String.eqb_eq in Ee. rewrite Ee. cbn.
    split; [congruence | intros (H & _); discriminate].
  - destruct (prefix "## " (strip raw_line)) eqn:Ep.
    + split; [congruence |]. intros (H3 & _). exfalso.
      destruct (prefix_of_both _ _ _ Ep H3) as [Hp | Hp];
        cbv in Hp; discriminate Hp.
    + destruct (prefix "### " (strip raw_line)) eqn:E3;
        [| split; [congruence | intros (H & _); discriminate]].
      destruct (strip_emphasis (after_first_space (strip raw_line))
                =? "Unreleased") eqn:Eu.
      * apply String.eqb_eq in Eu.
        split; [congruence | intros (_ & Hne & _); contradiction].
      * apply String.eqb_neq in Eu.
        destruct (search current_pattern (after_first_space (strip raw_line)))
          as [[|] |]; cbn.
        -- split; [congruence | intros (_ & _ & Hf & _); discriminate].
        -- split; [intros <-; auto | intros (_ & _ & _ & ->); reflexivity].
        -- split; [intros <-; auto | intros (_ & _ & ->); reflexivity].
Qed.

(** X14. [main] exits with an invalid header exactly when some line is
    rejected after lines that all let the loop go on, and the header printed
    is that of the first such line: a line is rejected when, stripped, it
    starts with [### ], what follows its first space is not [Unreleased]
    (emphasis apart), and [re.search] returns without finding in it the
    pattern built from the nearest package line above it, the empty pattern
    when there is none.  [main] ends with the [re.error] of a pattern exactly
    when, after lines that all let the loop go on, [re.search] raises on such
    a line with that pattern in force.  In every other case [main] returns. *)
Theorem main_reports_first_rejected :
  forall (strip lower : string -> string)
         (search : string -> string -> option bool)
         (file_lines : list string),
    (forall header,
       main strip lower search file_lines = InvalidHeader header
       <-> exists before raw_line after,
             file_lines = before ++ raw_line :: after
             /\ main strip lower search before = Valid
             /\ prefix "### " (strip raw_line) = true
             /\ header = after_first_space (strip raw_line)
             /\ strip_emphasis header <> "Unreleased"
             /\ search (pattern_after strip lower before EmptyString) header
                = Some false)
    /\ (forall refused,
          main strip lower search file_lines = PatternError refused
          <-> exists before raw_line after,
                file_lines = before ++ raw_line :: after
                /\ main strip lower search before = Valid
                /\ prefix "### " (strip raw_line) = true
                /\ strip_emphasis (after_first_space (strip raw_line))
                   <> "Unreleased"
                /\ refused = pattern_after strip lower before EmptyString
                /\ search refused (after_first_space (strip raw_line)) = None)
    /\ (main strip lower search file_lines = Valid
        <-> forall before raw_line after,
              file_lines = before ++ raw_line :: after ->
              prefix "### " (strip raw_line) = true ->
              strip_emphasis (after_first_space (strip raw_line))
                <> "Unreleased" ->
              search (pattern_after strip lower before EmptyString)
                     (after_first_space (strip raw_line)) = Some true).
Proof.
  intros strip lower search file_lines. unfold main.
  split; [| split].
  - intros header. rewrite check_lines_ended_iff by discriminate.
    split.
    + intros (before & raw_line & after & -> & Hvalid & Hr).
      apply line_verdict_ended in Hr as (H3 & Hu & Hs); [| discriminate].
      exists before, raw_line, after.
      destruct (search _ _) as [found |] eqn:Es; [| discriminate].
      destruct Hs as (-> & [= ->]). auto 10.
    + intros (before & raw_line & after & -> & Hvalid & H3 & -> & Hu & Hs).
      exists before, raw_line, after.
      split; [reflexivity |]. split; [exact Hvalid |].
      apply line_verdict_ended; [discriminate |]. rewrite Hs. auto.
  - intros refused. rewrite check_lines_ended_iff by discriminate.
    split.
    + intros (before & raw_line & after & -> & Hvalid & Hr).
      apply line_verdict_ended in Hr as (H3 & Hu & Hs); [| discriminate].
      exists before, raw_line, after.
      destruct (search _ _) as [found |] eqn:Es;
        [destruct Hs as (_ & Hs); discriminate |].
      injection Hs as ->. auto 10.
    + intros (before & raw_line & after & -> & Hvalid & H3 & Hu & -> & Hs).
      exists before, raw_line, after.
      split; [reflexivity |]. split; [exact Hvalid |].
      apply line_verdict_ended; [discriminate |]. rewrite Hs. auto.
  - split.
    + intros Hvalid before raw_line after -> H3 Hu.
      rewrite check_lines_app in Hvalid.
      destruct (check_lines strip lower search before EmptyString) eqn:Eb;
        try discriminate.
      rewrite check_lines_cons in Hvalid.
      destruct (line_verdict strip search
                  (pattern_after strip lower before EmptyString) raw_line)
        eqn:Er; try discriminate.
      destruct (search (pattern_after strip lower before EmptyString)
                  (after_first_space (strip raw_line))) as [[|] |] eqn:Es;
        [reflexivity | exfalso | exfalso].
      * assert (Hr : line_verdict strip search
                       (pattern_after strip lower before EmptyString) raw_line
                     = InvalidHeader (after_first_space (strip raw_line)))
          by (apply line_verdict_ended; [discriminate | rewrite Es; auto]).
        congruence.
      * assert (Hr : line_verdict strip search
                       (pattern_after strip lower before EmptyString) raw_line
                     = PatternError (pattern_after strip lower before EmptyString))
          by (apply line_verdict_ended; [discriminate | rewrite Es; auto]).
        congruence.
    + intros Hall.
      destruct (check_lines strip lower search file_lines EmptyString)
        as [| header | refused] eqn:Ec; [reflexivity | exfalso | exfalso].
      * apply check_lines_ended_iff in Ec
          as (before & raw_line & after & -> & _ & Hr); [| discriminate].
        apply line_verdict_ended in Hr as (H3 & Hu & Hs); [| discriminate].
        rewrite (Hall before raw_line after eq_refl H3 Hu) in Hs.
        destruct Hs as (Hs & _). discriminate.
      * apply check_lines_ended_iff in Ec
          as (before & raw_line & after & -> & _ & Hr); [| discriminate].
        apply line_verdict_ended in Hr as (H3 & Hu & Hs); [| discriminate].
        rewrite (Hall before raw_line after eq_refl H3 Hu) in Hs.
        destruct Hs as (Hs & _). discriminate.
Qed.

(** The three ends of the script on three files. *)
Example main_ends :
  main (fun line => line) (fun package => package) ex_search
    ["## Hatch"; "### [1.0](url)"; "## Hatchling"]
  = InvalidHeader "[1.0](url)"
  /\ main (fun line => line) (fun package => package) ex_search
       ["## hatch (beta"; "### **Unreleased**"; "### [1.0](url)"; "### x"]
     = PatternError (header_pattern "hatch (beta")
  /\ main (fun line => line) (fun package => package) ex_search
       ["## hatch (beta"; "### **Unreleased**"; "text"]
     = Valid.
Proof. repeat split. Qed.

(** X15. When the empty pattern is found in every header, as [re.search]
    finds it, the lines above the first package line are never rejected: a
    file whose first lines hold no package line is checked as its remaining
    lines are, with the empty pattern in force.  So a file with no package
    line at all is valid whatever its headers. *)
Theorem lines_before_first_package :
  forall (strip lower : string -> string)
         (search : string -> string -> option bool)
         (before rest : list string),
    (forall header, search EmptyString header = Some true) ->
    Forall (fun raw_line => prefix "## " (strip raw_line) = false) before ->
    main strip lower search (before ++ rest)
    = check_lines strip lower search rest EmptyString
    /\ main strip lower search before = Valid.
Proof.
  intros strip lower search before rest Hempty Hbefore. unfold main.
  assert (Hstep : forall raw_line,
            prefix "## " (strip raw_line) = false ->
            line_verdict strip search EmptyString raw_line = Valid
            /\ next_pattern strip lower EmptyString raw_line = EmptyString).
  { intros raw_line Hp. unfold line_verdict, next_pattern. rewrite Hp, Hempty.
    destruct (strip raw_line =? EmptyString); [auto |].
    destruct (prefix "### " (strip raw_line)); [| auto].
    destruct (strip_emphasis _ =? "Unreleased"); auto. }
  induction Hbefore as [| raw_line before Hp Hbefore IH].
  - auto.
  - destruct (Hstep raw_line Hp) as (Hr & Hn).
    rewrite <- app_comm_cons, !check_lines_cons, Hr, Hn. exact IH.
Qed.

Lemma lines_before_first_package_witness :
  main (fun line => line) (fun package => package) ex_search
    (ex_history ++ ["## Hatch"; "### [1.0](url)"])
  = InvalidHeader "[1.0](url)"
  /\ main (fun line => line) (fun package => package) ex_search ex_history = Valid.
Proof.
  destruct (@lines_before_first_package (fun line => line) (fun package => package)
              ex_search ex_history ["## Hatch"; "### [1.0](url)"])
    as (Happ & Hvalid).
  - intros header. reflexivity.
  - repeat constructor.
  - split; [rewrite Happ; reflexivity | exact Hvalid].
Defined.
